(** * EV status dashboard: the vehicle state simulation and its command handlers

    A shallow embedding of [vehicle-api-service/main.py]: the module-level
    dictionary [vehicle_state], the Firestore document [current_state], the
    body of the background loop [update_vehicle_state] and the Flask handlers
    [set_motor_speed], [toggle_charging], [reset_state] and
    [get_vehicle_state].

    Numbers.  Python integers are [Z].  A Python float is the rational [Q]
    it stands for, and an operation on floats returns the exact result
    rounded by a function [rnd] that the model takes as a parameter:
    [binary64], the rounding to the nearest float with ties to even, gives
    the arithmetic that the program runs, the identity ([ideal]) gives
    arithmetic without rounding.  An [int] and a [float] of the same value
    are the same number.  Truth values stored in the dictionary are kept by
    their truthiness, and a speed value by the integer that it equals. *)

From Stdlib Require Import ZArith QArith Qminmax Qround Qpower Lqa Lia.
From Stdlib Require Import String List Bool.
Import ListNotations.

Local Open Scope Q_scope.
Local Open Scope string_scope.

(** ** Python values received in a request body *)

#[local] Set Warnings "-register-all".

Inductive pyval : Type :=
| PNone
| PBool (b : bool)
| PInt (n : Z)
| PFloat (q : Q)
| PStr (s : string)
| PList (items : list pyval)
| PDict (items : list (string * pyval)).

(** Truthiness, as tested by [if v] and [x and v]. *)
Definition py_truthy (v : pyval) : bool :=
  match v with
  | PNone => false
  | PBool b => b
  | PInt n => negb (n =? 0)%Z
  | PFloat q => negb (Qeq_bool q 0)
  | PStr s => negb (s =? "")%string
  | PList items => match items with [] => false | _ => true end
  | PDict items => match items with [] => false | _ => true end
  end.

(** [v == k] for an integer [k]: [True == 1], [3.0 == 3]; a value that is
    not a number is equal to no integer. *)
Definition py_eq_int (v : pyval) (k : Z) : bool :=
  match v with
  | PBool b => ((if b then 1 else 0) =? k)%Z
  | PInt n => (n =? k)%Z
  | PFloat q => Qeq_bool q (inject_Z k)
  | _ => false
  end.

(** [d.get(key, default)] on the items of a dictionary. *)
Definition dict_get (items : list (string * pyval)) (key : string)
  (default : pyval) : pyval :=
  match find (fun kv => (fst kv =? key)%string) items with
  | Some kv => snd kv
  | None => default
  end.

Definition has_key (items : list (string * pyval)) (key : string) : bool :=
  existsb (fun kv => (fst kv =? key)%string) items.

(** [x < y] on numbers. *)
Definition Qlt_bool (x y : Q) : bool := negb (Qle_bool y x).

(** ** Constants *)

Definition MIN_BATTERY_THRESHOLD : Z := 20.
Definition HIGH_RPM_THRESHOLD : Z := 3000.
Definition MAX_TEMPERATURE : Z := 80.
Definition MIN_TEMPERATURE : Z := 25.

Definition POWER_CONSUMPTION_RATE : list (Z * Z) :=
  [(0, 0); (1, 100); (2, 300); (3, 600); (4, 1000)]%Z.

Definition RPM_SETTINGS : list (Z * Z) :=
  [(0, 0); (1, 1500); (2, 3000); (3, 4500); (4, 6000)]%Z.

Definition GEAR_RATIOS : list (Z * string) :=
  [(0%Z, "N/N"); (1%Z, "4.5:1"); (2%Z, "6.2:1"); (3%Z, "8.1:1");
   (4%Z, "10.3:1")].

(** [table[k]]: [None] stands for [KeyError]. *)
Definition getitem {A : Type} (table : list (Z * A)) (k : Z) : option A :=
  option_map snd (find (fun kv => (fst kv =? k)%Z) table).

(** ** The state record *)

Definition timestamp : Type := Z.
Bind Scope Z_scope with timestamp.

Record VehicleState : Type := mkVehicleState {
  parking_brake : bool;
  check_engine : bool;
  motor_status : bool;
  battery_low : bool;
  power : Q;
  motor_rpm : Z;
  gear_ratio : string;
  battery_percentage : Q;
  battery_temperature : Q;
  motor_speed_setting : Z;
  is_charging : bool;
  last_update : timestamp
}.

(** The dictionary literal of lines 59, 81, 192 and 350; only the time at
    which [datetime.now()] is read differs between them. *)
Definition initial_state (now : timestamp) : VehicleState :=
  {| parking_brake := false;
     check_engine := false;
     motor_status := false;
     battery_low := false;
     power := 0;
     motor_rpm := 0;
     gear_ratio := "N/N";
     battery_percentage := 100;
     battery_temperature := 25;
     motor_speed_setting := 0;
     is_charging := false;
     last_update := now |}.

(** Item assignment [vehicle_state[key] = v], one function per key. *)
Definition set_parking_brake (v : bool) (s : VehicleState) : VehicleState :=
  mkVehicleState v (check_engine s) (motor_status s) (battery_low s) (power s)
    (motor_rpm s) (gear_ratio s) (battery_percentage s)
    (battery_temperature s) (motor_speed_setting s) (is_charging s)
    (last_update s).

Definition set_check_engine (v : bool) (s : VehicleState) : VehicleState :=
  mkVehicleState (parking_brake s) v (motor_status s) (battery_low s) (power s)
    (motor_rpm s) (gear_ratio s) (battery_percentage s)
    (battery_temperature s) (motor_speed_setting s) (is_charging s)
    (last_update s).

Definition set_motor_status (v : bool) (s : VehicleState) : VehicleState :=
  mkVehicleState (parking_brake s) (check_engine s) v (battery_low s) (power s)
    (motor_rpm s) (gear_ratio s) (battery_percentage s)
    (battery_temperature s) (motor_speed_setting s) (is_charging s)
    (last_update s).

Definition set_battery_low (v : bool) (s : VehicleState) : VehicleState :=
  mkVehicleState (parking_brake s) (check_engine s) (motor_status s) v (power s)
    (motor_rpm s) (gear_ratio s) (battery_percentage s)
    (battery_temperature s) (motor_speed_setting s) (is_charging s)
    (last_update s).

Definition set_power (v : Q) (s : VehicleState) : VehicleState :=
  mkVehicleState (parking_brake s) (check_engine s) (motor_status s)
    (battery_low s) v (motor_rpm s) (gear_ratio s) (battery_percentage s)
    (battery_temperature s) (motor_speed_setting s) (is_charging s)
    (last_update s).

Definition set_motor_rpm (v : Z) (s : VehicleState) : VehicleState :=
  mkVehicleState (parking_brake s) (check_engine s) (motor_status s)
    (battery_low s) (power s) v (gear_ratio s) (battery_percentage s)
    (battery_temperature s) (motor_speed_setting s) (is_charging s)
    (last_update s).

Definition set_gear_ratio (v : string) (s : VehicleState) : VehicleState :=
  mkVehicleState (parking_brake s) (check_engine s) (motor_status s)
    (battery_low s) (power s) (motor_rpm s) v (battery_percentage s)
    (battery_temperature s) (motor_speed_setting s) (is_charging s)
    (last_update s).

Definition set_battery_percentage (v : Q) (s : VehicleState) : VehicleState :=
  mkVehicleState (parking_brake s) (check_engine s) (motor_status s)
    (battery_low s) (power s) (motor_rpm s) (gear_ratio s) v
    (battery_temperature s) (motor_speed_setting s) (is_charging s)
    (last_update s).

Definition set_battery_temperature (v : Q) (s : VehicleState) : VehicleState :=
  mkVehicleState (parking_brake s) (check_engine s) (motor_status s)
    (battery_low s) (power s) (motor_rpm s) (gear_ratio s)
    (battery_percentage s) v (motor_speed_setting s) (is_charging s)
    (last_update s).

Definition set_motor_speed_setting (v : Z) (s : VehicleState) : VehicleState :=
  mkVehicleState (parking_brake s) (check_engine s) (motor_status s)
    (battery_low s) (power s) (motor_rpm s) (gear_ratio s)
    (battery_percentage s) (battery_temperature s) v (is_charging s)
    (last_update s).

Definition set_is_charging (v : bool) (s : VehicleState) : VehicleState :=
  mkVehicleState (parking_brake s) (check_engine s) (motor_status s)
    (battery_low s) (power s) (motor_rpm s) (gear_ratio s)
    (battery_percentage s) (battery_temperature s) (motor_speed_setting s) v
    (last_update s).

Definition set_last_update (v : timestamp) (s : VehicleState) : VehicleState :=
  mkVehicleState (parking_brake s) (check_engine s) (motor_status s)
    (battery_low s) (power s) (motor_rpm s) (gear_ratio s)
    (battery_percentage s) (battery_temperature s) (motor_speed_setting s)
    (is_charging s) v.

(** ** The process: the dictionary in memory and the stored document *)

Record System : Type := mkSystem {
  vehicle_state : VehicleState;
  current_state_doc : option VehicleState
}.

(** ** Statements: state passing with exceptions

    A computation returns a value or raises; what it has written to the
    dictionary before raising stays written. *)

Inductive outcome (A : Type) : Type :=
| Val (a : A)
| Raised.
Arguments Val {A} a.
Arguments Raised {A}.

Definition M (A : Type) : Type := System -> outcome A * System.

Definition ret {A : Type} (a : A) : M A := fun sys => (Val a, sys).

Definition raise {A : Type} : M A := fun sys => (Raised, sys).

Definition bind {A B : Type} (m : M A) (k : A -> M B) : M B :=
  fun sys =>
    match m sys with
    | (Val a, sys') => k a sys'
    | (Raised, sys') => (Raised, sys')
    end.

Notation "x <- m ;; k" := (bind m (fun x => k))
  (at level 61, m at next level, right associativity).
Notation "m ;;; k" := (bind m (fun _ => k))
  (at level 61, right associativity).

(** [try: m except Exception: h]. *)
Definition try_except {A : Type} (m h : M A) : M A :=
  fun sys =>
    match m sys with
    | (Val a, sys') => (Val a, sys')
    | (Raised, sys') => h sys'
    end.

(** [vehicle_state[key]]. *)
Definition read {A : Type} (field : VehicleState -> A) : M A :=
  fun sys => (Val (field (vehicle_state sys)), sys).

(** [vehicle_state[key] = v]. *)
Definition assign (upd : VehicleState -> VehicleState) : M unit :=
  fun sys =>
    (Val tt, mkSystem (upd (vehicle_state sys)) (current_state_doc sys)).

(** A value that may be a [KeyError]. *)
Definition lift {A : Type} (o : option A) : M A :=
  match o with
  | Some a => ret a
  | None => raise
  end.

(** [doc_ref.set(vehicle_state)]: the document is overwritten with the
    dictionary as it is now, or the call raises and the document is left as
    it was. *)
Definition doc_set (write_ok : bool) : M unit :=
  fun sys =>
    if write_ok
    then (Val tt, mkSystem (vehicle_state sys) (Some (vehicle_state sys)))
    else (Raised, sys).

(** ** Requests and responses *)

(** What [request.get_json()] does: it raises, or it returns the parsed
    body ([PNone] for a body that is JSON [null]). *)
Inductive json_request : Type :=
| GetJsonRaises
| GetJsonReturns (data : pyval).

Definition get_json (req : json_request) : M pyval :=
  match req with
  | GetJsonRaises => raise
  | GetJsonReturns data => ret data
  end.

(** [data.get(key, default)]: only a dictionary has the method, on any
    other value the attribute lookup raises. *)
Definition data_get (data : pyval) (key : string) (default : pyval)
  : M pyval :=
  match data with
  | PDict items => ret (dict_get items key default)
  | _ => raise
  end.

Inductive response : Type :=
| Error (status : Z) (message : string)
| SpeedUpdated (current_speed : pyval) (rpm : Z) (pw : Q)
| ChargingUpdated (charging : pyval) (battery : Q)
| ResetDone
| StateDocument (doc : VehicleState).

Definition internal_error : M response :=
  ret (Error 500 "Internal server error").

(** [speed_setting in [0, 1, 2, 3, 4]], with the element found: the
    dictionary and the tables treat the value as that integer. *)
Definition speed_in_range (speed_setting : pyval) : option Z :=
  find (py_eq_int speed_setting) [0; 1; 2; 3; 4]%Z.

(** The inputs of one iteration of the loop: the clock reading, the two
    random draws and whether the store accepts the write. *)
Record tick_input : Type := mkTick {
  tick_now : timestamp;
  tick_brake_draw : Q;
  tick_engine_draw : Q;
  tick_write_ok : bool
}.

(** ** Operations

    A tick of the loop or a call of a handler.  The handlers of
    [/motor-speed] and [/charging] never read the clock. *)
Inductive operation : Type :=
| Tick (i : tick_input)
| SetMotorSpeed (req : json_request) (write_ok : bool)
| ToggleCharging (req : json_request) (write_ok : bool)
| Reset (now : timestamp) (write_ok : bool)
| GetState.

(** * The program, over a rounding function *)

Section Model.

Variable rnd : Q -> Q.

(** ** Float arithmetic: the exact result, rounded

    [float_literal q] is the float that the decimal literal [q] denotes.
    No operation of this program leaves the range of the finite floats, so
    neither an infinity nor a NaN arises. *)

Definition float_literal (q : Q) : Q := rnd q.
Definition fadd (x y : Q) : Q := rnd (x + y).
Definition fsub (x y : Q) : Q := rnd (x - y).
Definition fmul (x y : Q) : Q := rnd (x * y).
Definition fdiv (x y : Q) : Q := rnd (x / y).

(** ** [calculate_power_consumption] *)

Definition calculate_power_consumption (speed_setting : Z)
  (battery : Q) : option Q :=
  if Qle_bool battery 0 then Some 0
  else
    match getitem POWER_CONSUMPTION_RATE speed_setting with
    | None => None
    | Some base_power =>
        let battery_factor :=
          Qmax (float_literal 0.5) (fdiv battery 100) in
        Some (fmul (inject_Z base_power) battery_factor)
    end.

(** ** One iteration of the loop of [update_vehicle_state]

    [now] is the clock read by [datetime.now()], [brake_draw] and
    [engine_draw] are the two values of [random.random()]. *)

Definition update_body (now : timestamp) (brake_draw engine_draw : Q)
  (write_ok : bool) : M unit :=
  charging <- read is_charging ;;
  speed <- read motor_speed_setting ;;
  (if negb charging && (speed >? 0)%Z then
     speed <- read motor_speed_setting ;;
     battery <- read battery_percentage ;;
     power_consumption <- lift (calculate_power_consumption speed battery) ;;
     let consumption_rate :=
       fmul (fmul power_consumption (float_literal 0.001)) 1 in
     battery <- read battery_percentage ;;
     assign (set_battery_percentage
               (Qmax 0 (fsub battery consumption_rate))) ;;;
     speed <- read motor_speed_setting ;;
     let target_temp :=
       fadd (inject_Z MIN_TEMPERATURE)
         (fdiv (inject_Z ((MAX_TEMPERATURE - MIN_TEMPERATURE) * speed)) 4) in
     temperature <- read battery_temperature ;;
     if Qlt_bool temperature target_temp then
       temperature <- read battery_temperature ;;
       assign (set_battery_temperature
                 (Qmin target_temp (fadd temperature (float_literal 0.1))))
     else ret tt
   else
     charging <- read is_charging ;;
     if charging then
       battery <- read battery_percentage ;;
       let charge_rate :=
         if Qlt_bool battery 20 then float_literal 0.4
         else float_literal 0.2 in
       battery <- read battery_percentage ;;
       assign (set_battery_percentage (Qmin 100 (fadd battery charge_rate))) ;;;
       temperature <- read battery_temperature ;;
       assign (set_battery_temperature
                 (Qmax (inject_Z MIN_TEMPERATURE)
                    (fsub temperature (float_literal 0.05))))
     else ret tt) ;;;
  battery <- read battery_percentage ;;
  assign (set_battery_low
            (Qlt_bool battery (inject_Z MIN_BATTERY_THRESHOLD))) ;;;
  rpm <- read motor_rpm ;;
  assign (set_motor_status (rpm >? HIGH_RPM_THRESHOLD)%Z) ;;;
  (if Qlt_bool brake_draw (float_literal 0.001) then
     brake <- read parking_brake ;;
     assign (set_parking_brake (negb brake))
   else ret tt) ;;;
  (if Qlt_bool engine_draw (float_literal 0.0005) then
     engine <- read check_engine ;;
     assign (set_check_engine (negb engine))
   else ret tt) ;;;
  assign (set_last_update now) ;;;
  doc_set write_ok.

(** The [try] of the loop: an exception is logged and the loop goes on. *)
Definition update_iteration (now : timestamp) (brake_draw engine_draw : Q)
  (write_ok : bool) (sys : System) : System :=
  snd (try_except (update_body now brake_draw engine_draw write_ok) (ret tt)
         sys).

Definition tick (i : tick_input) (sys : System) : System :=
  update_iteration (tick_now i) (tick_brake_draw i) (tick_engine_draw i)
    (tick_write_ok i) sys.

(** The loop itself, driven by the inputs of its successive iterations. *)
Fixpoint update_vehicle_state (inputs : list tick_input) (sys : System)
  : System :=
  match inputs with
  | [] => sys
  | i :: rest => update_vehicle_state rest (tick i sys)
  end.

(** ** [set_motor_speed] *)

Definition set_motor_speed (req : json_request) (write_ok : bool)
  : M response :=
  try_except
    (data <- get_json req ;;
     match data with
     | PNone => ret (Error 400 "Invalid JSON payload")
     | _ =>
       speed_setting <- data_get data "speed" (PInt 0) ;;
       match speed_in_range speed_setting with
       | None => ret (Error 400 "Invalid speed setting (must be 0-4)")
       | Some speed =>
         charging <- read is_charging ;;
         if charging
         then ret (Error 400 "Cannot change speed while charging")
         else
           battery <- read battery_percentage ;;
           if Qle_bool battery 0 then ret (Error 400 "Battery depleted")
           else
             brake <- read parking_brake ;;
             if brake
             then ret (Error 400
                    "Cannot operate motor while parking brake is engaged")
             else
               assign (set_motor_speed_setting speed) ;;;
               rpm <- lift (getitem RPM_SETTINGS speed) ;;
               assign (set_motor_rpm rpm) ;;;
               battery <- read battery_percentage ;;
               pw <- lift (calculate_power_consumption speed battery) ;;
               assign (set_power pw) ;;;
               rpm <- read motor_rpm ;;
               assign (set_motor_status (rpm >? HIGH_RPM_THRESHOLD)%Z) ;;;
               gear <- lift (getitem GEAR_RATIOS speed) ;;
               assign (set_gear_ratio gear) ;;;
               doc_set write_ok ;;;
               rpm <- read motor_rpm ;;
               pw <- read power ;;
               ret (SpeedUpdated speed_setting rpm pw)
       end
     end)
    internal_error.

(** ** [toggle_charging] *)

Definition toggle_charging (req : json_request) (write_ok : bool)
  : M response :=
  try_except
    (data <- get_json req ;;
     match data with
     | PNone => ret (Error 400 "Invalid JSON payload")
     | _ =>
       charging <- data_get data "charging" (PBool false) ;;
       speed <- read motor_speed_setting ;;
       if (speed >? 0)%Z && py_truthy charging
       then ret (Error 400 "Cannot start charging while motor is running")
       else
         battery <- read battery_percentage ;;
         if Qle_bool 100 battery && py_truthy charging
         then ret (Error 400 "Battery is already full")
         else
           assign (set_is_charging (py_truthy charging)) ;;;
           (if py_truthy charging then
              assign (set_motor_speed_setting 0) ;;;
              assign (set_motor_rpm 0) ;;;
              assign (set_power (-5))
            else assign (set_power 0)) ;;;
           doc_set write_ok ;;;
           battery <- read battery_percentage ;;
           ret (ChargingUpdated charging battery)
     end)
    internal_error.

(** ** [reset_state] *)

Definition reset_state (now : timestamp) (write_ok : bool) : M response :=
  try_except
    ((fun sys =>
        (Val tt, mkSystem (initial_state now) (current_state_doc sys))) ;;;
     doc_set write_ok ;;;
     ret ResetDone)
    internal_error.

(** ** [get_vehicle_state] *)

Definition get_vehicle_state : M response :=
  fun sys =>
    match current_state_doc sys with
    | Some doc => (Val (StateDocument doc), sys)
    | None => (Val (Error 404 "Vehicle state not found"), sys)
    end.

(** ** Start of the process

    [create_current_state_document] seeds the document when the store has
    none, then the dictionary is created (line 192). *)
Definition create_current_state_document (now : timestamp)
  (stored : option VehicleState) : option VehicleState :=
  match stored with
  | Some doc => Some doc
  | None => Some (initial_state now)
  end.

Definition boot (stored : option VehicleState) (t_doc t_mem : timestamp)
  : System :=
  mkSystem (initial_state t_mem) (create_current_state_document t_doc stored).

(** ** Operations run one after the other *)

(** The response of a handler (an exception that a handler lets through
    is answered by Flask itself with status 500). *)
Definition answer (r : outcome response * System) : option response * System :=
  match fst r with
  | Val resp => (Some resp, snd r)
  | Raised => (Some (Error 500 "Internal Server Error"), snd r)
  end.

Definition exec (op : operation) (sys : System) : option response * System :=
  match op with
  | Tick i => (None, tick i sys)
  | SetMotorSpeed req write_ok => answer (set_motor_speed req write_ok sys)
  | ToggleCharging req write_ok => answer (toggle_charging req write_ok sys)
  | Reset now write_ok => answer (reset_state now write_ok sys)
  | GetState => answer (get_vehicle_state sys)
  end.

Definition step (op : operation) (sys : System) : System := snd (exec op sys).

(** The states of a process started on an empty store. *)
Inductive reachable : System -> Prop :=
| reachable_boot (t_doc t_mem : timestamp) :
    reachable (boot None t_doc t_mem)
| reachable_step (op : operation) (sys : System) :
    reachable sys -> reachable (step op sys).

(** ** The loop thread and the handlers running concurrently

    The source takes no lock.  A thread is modelled as a sequence of atomic
    steps on the shared [System], one per statement of the source; between
    two steps of a thread any other thread may take steps. *)

Inductive thread : Type :=
| Finished
| Atomic (run : System -> System * thread).

(** One statement [m], run atomically; [k] is the rest of the code,
    [handler] the [except] clause it is under. *)
Definition atomic {A : Type} (m : M A) (k : A -> thread) (handler : thread)
  : thread :=
  Atomic (fun sys =>
            match m sys with
            | (Val a, sys') => (sys', k a)
            | (Raised, sys') => (sys', handler)
            end).

(** Lines 161 to 178 of the loop body. *)
Definition update_tail (now : timestamp) (brake_draw engine_draw : Q)
  (write_ok : bool) : thread :=
  atomic (battery <- read battery_percentage ;;
          assign (set_battery_low
                    (Qlt_bool battery (inject_Z MIN_BATTERY_THRESHOLD))))
    (fun _ =>
  atomic (rpm <- read motor_rpm ;;
          assign (set_motor_status (rpm >? HIGH_RPM_THRESHOLD)%Z))
    (fun _ =>
  atomic (if Qlt_bool brake_draw (float_literal 0.001) then
            brake <- read parking_brake ;;
            assign (set_parking_brake (negb brake))
          else ret tt)
    (fun _ =>
  atomic (if Qlt_bool engine_draw (float_literal 0.0005) then
            engine <- read check_engine ;;
            assign (set_check_engine (negb engine))
          else ret tt)
    (fun _ =>
  atomic (assign (set_last_update now))
    (fun _ =>
  atomic (doc_set write_ok) (fun _ => Finished) Finished)
    Finished) Finished) Finished) Finished) Finished.

(** One iteration of the loop of [update_vehicle_state], statement by
    statement. *)
Definition update_thread (now : timestamp) (brake_draw engine_draw : Q)
  (write_ok : bool) : thread :=
  let tail := update_tail now brake_draw engine_draw write_ok in
  atomic (charging <- read is_charging ;;
          speed <- read motor_speed_setting ;;
          ret (negb charging && (speed >? 0)%Z))
    (fun running =>
       if running then
         atomic (speed <- read motor_speed_setting ;;
                 battery <- read battery_percentage ;;
                 lift (calculate_power_consumption speed battery))
           (fun power_consumption =>
              let consumption_rate :=
                fmul (fmul power_consumption (float_literal 0.001)) 1 in
         atomic (battery <- read battery_percentage ;;
                 assign (set_battery_percentage
                           (Qmax 0 (fsub battery consumption_rate))))
           (fun _ =>
         atomic (read motor_speed_setting)
           (fun speed =>
              let target_temp :=
                fadd (inject_Z MIN_TEMPERATURE)
                  (fdiv (inject_Z
                           ((MAX_TEMPERATURE - MIN_TEMPERATURE) * speed)) 4) in
         atomic (read battery_temperature)
           (fun temperature =>
              if Qlt_bool temperature target_temp then
                atomic (temperature <- read battery_temperature ;;
                        assign (set_battery_temperature
                                  (Qmin target_temp
                                     (fadd temperature (float_literal 0.1)))))
                  (fun _ => tail) Finished
              else tail)
           Finished) Finished) Finished) Finished
       else
         atomic (read is_charging)
           (fun charging =>
              if charging then
                atomic (read battery_percentage)
                  (fun battery =>
                     let charge_rate :=
                       if Qlt_bool battery 20 then float_literal 0.4
                       else float_literal 0.2 in
                atomic (battery <- read battery_percentage ;;
                        assign (set_battery_percentage
                                  (Qmin 100 (fadd battery charge_rate))))
                  (fun _ =>
                atomic (temperature <- read battery_temperature ;;
                        assign (set_battery_temperature
                                  (Qmax (inject_Z MIN_TEMPERATURE)
                                     (fsub temperature
                                        (float_literal 0.05)))))
                  (fun _ => tail) Finished) Finished) Finished
              else tail)
           Finished)
    Finished.

(** [set_motor_speed], statement by statement; reading the request is
    local to the thread. *)
Definition set_motor_speed_thread (req : json_request) (write_ok : bool)
  : thread :=
  match req with
  | GetJsonReturns (PDict items) =>
    match speed_in_range (dict_get items "speed" (PInt 0)) with
    | None => Finished
    | Some speed =>
      atomic (read is_charging)
        (fun charging => if charging then Finished else
      atomic (read battery_percentage)
        (fun battery => if Qle_bool battery 0 then Finished else
      atomic (read parking_brake)
        (fun brake => if brake then Finished else
      atomic (assign (set_motor_speed_setting speed))
        (fun _ =>
      atomic (rpm <- lift (getitem RPM_SETTINGS speed) ;;
              assign (set_motor_rpm rpm))
        (fun _ =>
      atomic (battery <- read battery_percentage ;;
              pw <- lift (calculate_power_consumption speed battery) ;;
              assign (set_power pw))
        (fun _ =>
      atomic (rpm <- read motor_rpm ;;
              assign (set_motor_status (rpm >? HIGH_RPM_THRESHOLD)%Z))
        (fun _ =>
      atomic (gear <- lift (getitem GEAR_RATIOS speed) ;;
              assign (set_gear_ratio gear))
        (fun _ =>
      atomic (doc_set write_ok) (fun _ => Finished) Finished)
        Finished) Finished) Finished) Finished) Finished) Finished) Finished)
        Finished
    end
  | _ => Finished
  end.

(** [toggle_charging], statement by statement. *)
Definition toggle_charging_thread (req : json_request) (write_ok : bool)
  : thread :=
  match req with
  | GetJsonReturns (PDict items) =>
    let charging := dict_get items "charging" (PBool false) in
    atomic (read motor_speed_setting)
      (fun speed =>
         if (speed >? 0)%Z && py_truthy charging then Finished else
    atomic (read battery_percentage)
      (fun battery =>
         if Qle_bool 100 battery && py_truthy charging then Finished else
    atomic (assign (set_is_charging (py_truthy charging)))
      (fun _ =>
         let persist :=
           atomic (doc_set write_ok) (fun _ => Finished) Finished in
         if py_truthy charging then
           atomic (assign (set_motor_speed_setting 0))
             (fun _ =>
           atomic (assign (set_motor_rpm 0))
             (fun _ =>
           atomic (assign (set_power (-5))) (fun _ => persist) Finished)
             Finished) Finished
         else
           atomic (assign (set_power 0)) (fun _ => persist) Finished)
      Finished) Finished) Finished
  | _ => Finished
  end.

(** [reset_state]: the global is rebound to a new dictionary in one
    step, then stored. *)
Definition reset_state_thread (now : timestamp) (write_ok : bool) : thread :=
  atomic (fun sys =>
            (Val tt, mkSystem (initial_state now) (current_state_doc sys)))
    (fun _ => atomic (doc_set write_ok) (fun _ => Finished) Finished)
    Finished.

Definition thread_of (op : operation) : thread :=
  match op with
  | Tick i =>
      update_thread (tick_now i) (tick_brake_draw i) (tick_engine_draw i)
        (tick_write_ok i)
  | SetMotorSpeed req write_ok => set_motor_speed_thread req write_ok
  | ToggleCharging req write_ok => toggle_charging_thread req write_ok
  | Reset now write_ok => reset_state_thread now write_ok
  | GetState => Finished
  end.

(** A thread run to its end with no other thread in between. *)
Fixpoint run_alone (t : thread) (sys : System) : System :=
  match t with
  | Finished => sys
  | Atomic run => let (sys', t') := run sys in run_alone t' sys'
  end.

(** A pool of threads under a schedule: each entry of the schedule names
    the thread that takes the next atomic step (a finished or absent thread
    takes none). *)
Fixpoint replace_thread (n : nat) (t : thread) (pool : list thread)
  : list thread :=
  match pool, n with
  | [], _ => []
  | _ :: rest, O => t :: rest
  | t0 :: rest, S n' => t0 :: replace_thread n' t rest
  end.

Definition schedule_step (n : nat) (state : list thread * System)
  : list thread * System :=
  match nth_error (fst state) n with
  | Some (Atomic run) =>
      let (sys', t') := run (snd state) in
      (replace_thread n t' (fst state), sys')
  | _ => state
  end.

Definition run_schedule (schedule : list nat) (pool : list thread)
  (sys : System) : list thread * System :=
  fold_left (fun state n => schedule_step n state) schedule (pool, sys).

(** The first [n] steps of a thread run on its own. *)
Fixpoint run_steps (n : nat) (t : thread) (sys : System) : thread * System :=
  match n with
  | O => (t, sys)
  | S n' =>
      match t with
      | Finished => (Finished, sys)
      | Atomic run => let (sys', t') := run sys in run_steps n' t' sys'
      end
  end.

(** Operations one at a time: each thread runs to its end before the
    next starts. *)
Definition serial_run (pool : list thread) (sys : System) : System :=
  fold_left (fun s t => run_alone t s) pool sys.

End Model.

(** * Statements about the program *)

(** ** Rounding functions *)

(** Arithmetic without rounding. *)
Definition ideal : Q -> Q := fun q => q.

(** What the bounds below need of the rounding: it is monotone, and it
    leaves unchanged the integers that a binary64 float represents exactly.
    Rounding to nearest has both properties, and so has [ideal]. *)
Definition monotone (rnd : Q -> Q) : Prop :=
  forall x y, x <= y -> rnd x <= rnd y.

Definition fixes_integers (rnd : Q -> Q) : Prop :=
  forall z : Z, (Z.abs z <= 2 ^ 53)%Z -> rnd (inject_Z z) == inject_Z z.

(** ** Requests and runs used in the statements *)

(** The bodies [{"speed": n}] and [{"charging": b}]. *)
Definition speed_request (n : Z) : json_request :=
  GetJsonReturns (PDict [("speed", PInt n)]).

Definition charging_request (b : bool) : json_request :=
  GetJsonReturns (PDict [("charging", PBool b)]).

(** A tick at clock [now] whose write is accepted, with draws of 0.5. *)
Definition quiet_tick (now : timestamp) : tick_input :=
  mkTick now 0.5 0.5 true.

(** The process started at clock 1 with the motor then set to level 3,
    and the same after one iteration of the loop at clock 2. *)
Definition parked_system (rnd : Q -> Q) : System :=
  step rnd (SetMotorSpeed (speed_request 3) true) (boot None 0 1).

Definition driving_system (rnd : Q -> Q) : System :=
  step rnd (Tick (quiet_tick 2)) (parked_system rnd).

(** A system whose dictionary is the initial state with the battery at
    [b] percent. *)
Definition with_battery (b : Q) : System :=
  mkSystem (set_battery_percentage b (initial_state 1)) None.

(** The answer to an operation. *)
Definition reply (rnd : Q -> Q) (op : operation) (sys : System)
  : option response :=
  fst (exec rnd op sys).

(** ** Invariants of the state record *)

(** The discrete part: the setting is a key of the tables, rpm and gear
    ratio are its table entries, charging excludes a positive setting, and
    the two flags are what their source fields give. *)
Record coherent (st : VehicleState) : Prop := {
  coh_speed : (0 <= motor_speed_setting st <= 4)%Z;
  coh_rpm :
    getitem RPM_SETTINGS (motor_speed_setting st) = Some (motor_rpm st);
  coh_gear :
    getitem GEAR_RATIOS (motor_speed_setting st) = Some (gear_ratio st);
  coh_exclusive :
    ~ ((motor_speed_setting st > 0)%Z /\ is_charging st = true);
  coh_motor_status :
    motor_status st = (motor_rpm st >? HIGH_RPM_THRESHOLD)%Z;
  coh_battery_low :
    battery_low st
    = Qlt_bool (battery_percentage st) (inject_Z MIN_BATTERY_THRESHOLD)
}.

(** The numeric part. *)
Record bounded (st : VehicleState) : Prop := {
  bnd_battery : 0 <= battery_percentage st <= 100;
  bnd_temperature :
    inject_Z MIN_TEMPERATURE <= battery_temperature st
      <= inject_Z MAX_TEMPERATURE
}.

(** An invariant of the dictionary and of the stored document. *)
Definition holds_in (P : VehicleState -> Prop) (sys : System) : Prop :=
  P (vehicle_state sys) /\
  forall doc, current_state_doc sys = Some doc -> P doc.

Definition flags_consistent (st : VehicleState) : Prop :=
  motor_status st = (motor_rpm st >? HIGH_RPM_THRESHOLD)%Z /\
  battery_low st
  = Qlt_bool (battery_percentage st) (inject_Z MIN_BATTERY_THRESHOLD).

(** ** What one tick does to battery and temperature *)

(** [target_temp] of the tick, in exact arithmetic. *)
Definition target_temp (setting : Z) : Q :=
  25 + 55 * inject_Z setting / 4.

(** The tick as the specification words it, read in exact arithmetic: a
    relation between the record [st] before a tick and the record [st']
    after it.
    - Motor running (not charging, setting > 0): the power is
      [calculate_power_consumption setting battery], which is 0 for a
      battery at or below 0 and the table value times
      [max(0.5, battery/100)] otherwise; the battery becomes
      [max(0, battery - power * 0.001)]; the temperature, when below
      [target_temp], becomes [min(target_temp, temperature + 0.1)] and else
      stays: it rises by at most 0.1 and not beyond the target.
    - Charging: the battery becomes [min(100, battery + rate)] with rate
      0.4 below 20 and 0.2 otherwise, the temperature
      [max(25, temperature - 0.05)].
    - Idle and not charging: both are unchanged. *)
Definition tick_spec (st st' : VehicleState) : Prop :=
  (is_charging st = false ->
   (motor_speed_setting st > 0)%Z ->
   exists base pw,
     getitem POWER_CONSUMPTION_RATE (motor_speed_setting st) = Some base /\
     calculate_power_consumption ideal (motor_speed_setting st)
       (battery_percentage st) = Some pw /\
     (battery_percentage st <= 0 -> pw == 0) /\
     (0 < battery_percentage st ->
      pw == inject_Z base * Qmax 0.5 (battery_percentage st / 100)) /\
     battery_percentage st' == Qmax 0 (battery_percentage st - pw * 0.001) /\
     (battery_temperature st < target_temp (motor_speed_setting st) ->
      battery_temperature st'
      == Qmin (target_temp (motor_speed_setting st))
           (battery_temperature st + 0.1) /\
      battery_temperature st' <= target_temp (motor_speed_setting st)) /\
     (target_temp (motor_speed_setting st) <= battery_temperature st ->
      battery_temperature st' = battery_temperature st) /\
     battery_temperature st <= battery_temperature st'
       <= battery_temperature st + 0.1) /\
  (is_charging st = true ->
   (battery_percentage st < 20 ->
    battery_percentage st' == Qmin 100 (battery_percentage st + 0.4)) /\
   (20 <= battery_percentage st ->
    battery_percentage st' == Qmin 100 (battery_percentage st + 0.2)) /\
   battery_temperature st' == Qmax 25 (battery_temperature st - 0.05)) /\
  (is_charging st = false ->
   (motor_speed_setting st <= 0)%Z ->
   battery_percentage st' = battery_percentage st /\
   battery_temperature st' = battery_temperature st).

(** ** The command handlers *)

(** The specification's names for the error answers: status 400 with one of
    the input messages is [InvalidArgument], status 400 with one of the state
    conflict messages is [PreconditionFailed]. *)
Inductive error_class : Type :=
| InvalidArgument
| PreconditionFailed
| NotFound
| Internal.

Definition invalid_argument_messages : list string :=
  ["Invalid JSON payload"; "Invalid speed setting (must be 0-4)"].

Definition precondition_messages : list string :=
  ["Cannot change speed while charging"; "Battery depleted";
   "Cannot operate motor while parking brake is engaged";
   "Cannot start charging while motor is running"; "Battery is already full"].

Definition error_class_of (r : option response) : option error_class :=
  match r with
  | Some (Error status message) =>
      if (status =? 400)%Z then
        if existsb (String.eqb message) invalid_argument_messages
        then Some InvalidArgument
        else if existsb (String.eqb message) precondition_messages
             then Some PreconditionFailed
             else None
      else if (status =? 404)%Z then Some NotFound
      else if (status =? 500)%Z then Some Internal
      else None
  | _ => None
  end.

(** The writes of a successful [set_motor_speed], field by field. *)
Definition set_motor_speed_effect (rnd : Q -> Q) (speed : Z)
  (st st' : VehicleState) : Prop :=
  motor_speed_setting st' = speed /\
  getitem RPM_SETTINGS speed = Some (motor_rpm st') /\
  calculate_power_consumption rnd speed (battery_percentage st)
  = Some (power st') /\
  motor_status st' = (motor_rpm st' >? HIGH_RPM_THRESHOLD)%Z /\
  getitem GEAR_RATIOS speed = Some (gear_ratio st') /\
  parking_brake st' = parking_brake st /\
  check_engine st' = check_engine st /\
  battery_low st' = battery_low st /\
  battery_percentage st' = battery_percentage st /\
  battery_temperature st' = battery_temperature st /\
  is_charging st' = is_charging st.

(** The writes of a successful [toggle_charging], field by field. *)
Definition toggle_charging_effect (charging : bool) (st st' : VehicleState)
  : Prop :=
  is_charging st' = charging /\
  (charging = true ->
   motor_speed_setting st' = 0%Z /\ motor_rpm st' = 0%Z /\ power st' = -5) /\
  (charging = false ->
   power st' = 0 /\
   motor_speed_setting st' = motor_speed_setting st /\
   motor_rpm st' = motor_rpm st) /\
  battery_percentage st' = battery_percentage st /\
  battery_temperature st' = battery_temperature st /\
  parking_brake st' = parking_brake st /\
  check_engine st' = check_engine st /\
  motor_status st' = motor_status st /\
  battery_low st' = battery_low st /\
  gear_ratio st' = gear_ratio st.

(** The defaults the specification documents for the eleven fields other
    than [last_update]. *)
Definition documented_defaults (st : VehicleState) : Prop :=
  parking_brake st = false /\
  check_engine st = false /\
  motor_status st = false /\
  battery_low st = false /\
  is_charging st = false /\
  power st = 0 /\
  motor_rpm st = 0%Z /\
  gear_ratio st = "N/N" /\
  battery_percentage st = 100 /\
  battery_temperature st = 25 /\
  motor_speed_setting st = 0%Z.

(** ** Records stored under interleaving *)

(** A stored record is complete when it is the dictionary as some sequence
    of whole operations leaves it. *)
Definition complete_record (rnd : Q -> Q) (doc : VehicleState) : Prop :=
  exists sys, reachable rnd sys /\ vehicle_state sys = doc.

(** The statement that no interleaving of the threads of any operations
    stores a partially-updated record. *)
Definition stored_records_complete (rnd : Q -> Q) : Prop :=
  forall (ops : list operation) (schedule : list nat)
         (t_doc t_mem : timestamp) (doc : VehicleState),
    current_state_doc
      (snd (run_schedule schedule (map (thread_of rnd) ops)
              (boot None t_doc t_mem)))
    = Some doc ->
    complete_record rnd doc.

(** A request for level 3 racing with one iteration of the loop: the
    handler passes its three checks and assigns the setting and the rpm
    (five steps), then the loop thread runs to its end (at most twelve
    steps), its last step storing the dictionary. *)
Definition racing_operations : list operation :=
  [SetMotorSpeed (speed_request 3) true; Tick (quiet_tick 2)].

Definition racing_schedule : list nat :=
  repeat 0%nat 5 ++ repeat 1%nat 12.

(** The schedule that lets each of [n] threads in turn take twelve steps,
    which is enough for the thread of any operation to end. *)
Definition serial_schedule (n : nat) : list nat :=
  flat_map (fun k => repeat k 12) (seq 0 n).

(** ** Runs, requests and invariants used in the further properties *)

(** Operations run one after the other, from a list. *)
Definition run_operations (rnd : Q -> Q) (ops : list operation)
  (sys : System) : System :=
  fold_left (fun s op => step rnd op s) ops sys.

(** The fields that only the handlers assign, and the fields that only
    the loop assigns ([last_update] apart). *)
Definition command_fields (st : VehicleState)
  : bool * Z * Z * string * Q :=
  (is_charging st, motor_speed_setting st, motor_rpm st, gear_ratio st,
   power st).

Definition simulation_fields (st : VehicleState)
  : Q * Q * bool * bool * bool :=
  (battery_percentage st, battery_temperature st, parking_brake st,
   check_engine st, battery_low st).

(** The number of iterations as a rational. *)
Definition ticks (n : nat) : Q := inject_Z (Z.of_nat n).

(** Whether an odd number of the draws are below the threshold. *)
Fixpoint flips (threshold : Q) (draws : list Q) : bool :=
  match draws with
  | [] => false
  | draw :: rest => xorb (Qlt_bool draw threshold) (flips threshold rest)
  end.

(** The operation with the store accepting ([true]) or refusing ([false])
    its write. *)
Definition with_write (ok : bool) (op : operation) : operation :=
  match op with
  | Tick i =>
      Tick (mkTick (tick_now i) (tick_brake_draw i) (tick_engine_draw i) ok)
  | SetMotorSpeed req _ => SetMotorSpeed req ok
  | ToggleCharging req _ => ToggleCharging req ok
  | Reset now _ => Reset now ok
  | GetState => GetState
  end.

(** Whether the store accepts the write of the operation, if it comes to
    one. *)
Definition write_accepted (op : operation) : bool :=
  match op with
  | Tick i => tick_write_ok i
  | SetMotorSpeed _ write_ok => write_ok
  | ToggleCharging _ write_ok => write_ok
  | Reset _ write_ok => write_ok
  | GetState => true
  end.

(** The success answers of the three commands. *)
Definition command_succeeded (r : option response) : bool :=
  match r with
  | Some (SpeedUpdated _ _ _) | Some (ChargingUpdated _ _) | Some ResetDone =>
      true
  | _ => false
  end.

Definition is_handler (op : operation) : bool :=
  match op with
  | Tick _ => false
  | _ => true
  end.

Definition is_reset (op : operation) : bool :=
  match op with
  | Reset _ _ => true
  | _ => false
  end.

(** The operations that can neither start charging nor refill the
    battery: ticks, speed requests and reads. *)
Definition leaves_charging_off (op : operation) : bool :=
  match op with
  | ToggleCharging _ _ | Reset _ _ => false
  | _ => true
  end.

(** The bodies [{"speed": v}] and [{"charging": v}] for any JSON value. *)
Definition speed_body (v : pyval) : json_request :=
  GetJsonReturns (PDict [("speed", v)]).

Definition charging_body (v : pyval) : json_request :=
  GetJsonReturns (PDict [("charging", v)]).

Definition is_number (v : pyval) : bool :=
  match v with
  | PBool _ | PInt _ | PFloat _ => true
  | _ => false
  end.

(** An answer with [v] in place of the value it echoes. *)
Definition echo (v : pyval) (r : option response) : option response :=
  match r with
  | Some (SpeedUpdated _ rpm pw) => Some (SpeedUpdated v rpm pw)
  | Some (ChargingUpdated _ battery) => Some (ChargingUpdated v battery)
  | _ => r
  end.

(** The stored document is the dictionary. *)
Definition synced (sys : System) : Prop :=
  current_state_doc sys = Some (vehicle_state sys).

(** The battery is empty while a speed level is still set. *)
Definition depleted_in_gear (st : VehicleState) : Prop :=
  is_charging st = false /\
  (motor_speed_setting st > 0)%Z /\
  battery_percentage st <= 0.

(** A dictionary in that condition, and one whose setting is not a key of
    the tables. *)
Definition drained_system : System :=
  mkSystem (set_motor_speed_setting 3 (set_battery_percentage 0
                                         (initial_state 1))) None.

Definition corrupted_system : System :=
  mkSystem (set_motor_speed_setting 5 (initial_state 1)) None.

(** Every atomic step of the thread, taken in a state where [Inv] holds,
    leads to a state where it holds. *)
Fixpoint keeps (Inv : System -> Prop) (t : thread) : Prop :=
  match t with
  | Finished => True
  | Atomic run =>
      forall sys, Inv sys ->
        let (sys', t') := run sys in Inv sys' /\ keeps Inv t'
  end.

(** The setting is a key of the tables and the numbers are in range, in
    the dictionary and in the stored document. *)
Definition within_limits (sys : System) : Prop :=
  (0 <= motor_speed_setting (vehicle_state sys) <= 4)%Z /\
  holds_in bounded sys.

(** A request for level [k] racing with a request to start charging: the
    speed handler passes its three checks (three steps), the charging
    handler runs to its end, then the speed handler makes its writes. *)
Definition exclusion_race (k : Z) : list operation :=
  [SetMotorSpeed (speed_request k) true;
   ToggleCharging (charging_request true) true].

Definition exclusion_race_schedule : list nat :=
  repeat 0%nat 3 ++ repeat 1%nat 12 ++ repeat 0%nat 12.

(** ** Binary64 arithmetic

    Rounding to the nearest float, ties to even, on the rationals: the
    arithmetic that Python runs on its floats, for numbers that do not
    overflow. *)

(** The integer nearest to [x], a tie going to the even one. *)
Definition round_half_even (x : Q) : Z :=
  let f := Qfloor x in
  match Qcompare (x - inject_Z f) (1 # 2) with
  | Lt => f
  | Gt => (f + 1)%Z
  | Eq => if Z.even f then f else (f + 1)%Z
  end.

(** The exponent of a positive [x]: the [e] with
    [2 ^ e <= x < 2 ^ (e + 1)]. *)
Definition exponent (x : Q) : Z :=
  let e := (Z.log2 (Qnum x) - Z.log2 (QDen x))%Z in
  if Qle_bool (2 ^ e) x then e else (e - 1)%Z.

(** The exponent of the last bit of the float nearest to a positive [x]:
    a significand has 53 bits, and no bit is below [2 ^ -1074]. *)
Definition quantum (x : Q) : Z := Z.max (exponent x - 52) (-1074).

(** The float nearest to a positive [x]. *)
Definition nearest_float (x : Q) : Q :=
  inject_Z (round_half_even (x / 2 ^ quantum x)) * 2 ^ quantum x.

(** Rounding to the nearest binary64 float, ties to even, for numbers
    that do not overflow. *)
Definition binary64 (x : Q) : Q :=
  match Qnum x with
  | Z0 => 0
  | Zpos _ => Qred (nearest_float x)
  | Zneg _ => Qred (- nearest_float (- x))
  end.

(** The error of one rounding on the numbers of this program, [2 ^ -42]:
    half the gap between neighbouring binary64 floats is at most that up
    to 2048 in magnitude. *)
Definition accuracy : Q := 1 # 4398046511104.

(** What the statements about rounded arithmetic need of the rounding.
    Rounding to the nearest binary64 float has all five properties. *)
Record float_rounding (rnd : Q -> Q) : Prop := {
  rounding_monotone : monotone rnd;
  rounding_integers : fixes_integers rnd;
  rounding_quarters :
    forall m : Z, (Z.abs m <= 2 ^ 53)%Z ->
      rnd (inject_Z m / 4) == inject_Z m / 4;
  rounding_idempotent : forall x, rnd (rnd x) == rnd x;
  rounding_accurate :
    forall x, -2048 <= x <= 2048 ->
      x - accuracy <= rnd x <= x + accuracy
}.

(** A float: a number that the rounding leaves as it is. *)
Definition representable (rnd : Q -> Q) (x : Q) : Prop := rnd x == x.

(** Equal up to the rounding errors of one iteration of the loop, which
    stay below [10 ^ -9]. *)
Definition tolerance : Q := 1 # 1000000000.

Definition near (x y : Q) : Prop := y - tolerance <= x <= y + tolerance.

(** The statement that an iteration of the loop, in binary64 arithmetic,
    changes battery and temperature by exactly the amounts of
    [tick_spec]. *)
Definition tick_amounts_exact : Prop :=
  forall (i : tick_input) (sys : System),
    reachable binary64 sys ->
    tick_spec (vehicle_state sys) (vehicle_state (tick binary64 i sys)).

(** A dictionary that is charging with the temperature at its upper
    bound. *)
Definition charging_at_80 : System :=
  mkSystem
    (set_is_charging true (set_battery_temperature 80 (initial_state 1)))
    None.

(** ** The flags under interleaving *)

(** The statement that whatever the interleaving of the threads, a read
    is served a document whose flags agree with their source fields. *)
Definition served_reads_consistent (rnd : Q -> Q) : Prop :=
  forall (ops : list operation) (schedule : list nat)
         (t_doc t_mem : timestamp) (doc : VehicleState),
    reply rnd GetState
      (snd (run_schedule schedule (map (thread_of rnd) ops)
              (boot None t_doc t_mem)))
    = Some (StateDocument doc) ->
    flags_consistent doc.

(** One iteration of the loop racing with a request for level 3: the loop
    thread runs up to and including its assignment of [motor_status] (four
    steps), the handler passes its checks and assigns the setting and the
    rpm (five steps), then the loop thread runs to its end, its last step
    storing the dictionary. *)
Definition stale_flag_schedule : list nat :=
  repeat 1%nat 4 ++ repeat 0%nat 5 ++ repeat 1%nat 12.

(** ** Request values as sent, and the read of the store *)

(** The dictionary but for the entry that a handler assigns the value of
    the request as it was sent. *)
Definition but_speed_setting (st : VehicleState) : VehicleState :=
  set_motor_speed_setting 0 st.

Definition but_is_charging (st : VehicleState) : VehicleState :=
  set_is_charging false st.

(** [doc_ref.get()]: the snapshot of the document, or the call raises. *)
Definition doc_get (read_ok : bool) : M (option VehicleState) :=
  fun sys =>
    if read_ok then (Val (current_state_doc sys), sys) else (Raised, sys).

(** [get_vehicle_state] with the answer of the store to the read among
    its inputs.  The handler has no [try]: a read that raises is answered
    by Flask. *)
Definition get_vehicle_state_reading (read_ok : bool) : M response :=
  doc <- doc_get read_ok ;;
  match doc with
  | Some d => ret (StateDocument d)
  | None => ret (Error 404 "Vehicle state not found")
  end.

Definition served_state (read_ok : bool) (sys : System) : option response :=
  fst (answer (get_vehicle_state_reading read_ok sys)).

(** * Properties *)

(** ** Comparisons and tables *)

Lemma Qlt_bool_iff (x y : Q) : Qlt_bool x y = true <-> x < y.
Proof.
  unfold Qlt_bool. rewrite negb_true_iff, <- not_true_iff_false, Qle_bool_iff.
  split; [apply Qnot_le_lt | apply Qlt_not_le].
Qed.

Lemma Qlt_bool_false (x y : Q) : Qlt_bool x y = false <-> y <= x.
Proof.
  unfold Qlt_bool. rewrite negb_false_iff. apply Qle_bool_iff.
Qed.

Lemma Qle_bool_false (x y : Q) : Qle_bool x y = false <-> y < x.
Proof.
  rewrite <- not_true_iff_false, Qle_bool_iff.
  split; [apply Qnot_le_lt | apply Qlt_not_le].
Qed.

Lemma speed_cases (k : Z) :
  (0 <= k <= 4)%Z ->
  k = 0%Z \/ k = 1%Z \/ k = 2%Z \/ k = 3%Z \/ k = 4%Z.
Proof. lia. Qed.

Lemma speed_in_range_bounds (v : pyval) (k : Z) :
  speed_in_range v = Some k -> (0 <= k <= 4)%Z.
Proof.
  intros H. apply find_some in H. destruct H as [H _].
  simpl in H. lia.
Qed.

Lemma speed_in_range_int (n : Z) :
  speed_in_range (PInt n) = if ((0 <=? n) && (n <=? 4))%Z then Some n else None.
Proof.
  unfold speed_in_range. cbn [find py_eq_int].
  destruct (n =? 0)%Z eqn:E0; [apply Z.eqb_eq in E0; subst; reflexivity |].
  destruct (n =? 1)%Z eqn:E1; [apply Z.eqb_eq in E1; subst; reflexivity |].
  destruct (n =? 2)%Z eqn:E2; [apply Z.eqb_eq in E2; subst; reflexivity |].
  destruct (n =? 3)%Z eqn:E3; [apply Z.eqb_eq in E3; subst; reflexivity |].
  destruct (n =? 4)%Z eqn:E4; [apply Z.eqb_eq in E4; subst; reflexivity |].
  destruct ((0 <=? n) && (n <=? 4))%Z eqn:E; [| reflexivity].
  lia.
Qed.

Lemma speed_request_in_range (speed : Z) :
  (0 <= speed <= 4)%Z ->
  speed_in_range (dict_get [("speed", PInt speed)] "speed" (PInt 0))
  = Some speed.
Proof.
  intros Hs. cbn [dict_get find fst snd String.eqb Ascii.eqb Bool.eqb].
  rewrite speed_in_range_int.
  replace ((0 <=? speed) && (speed <=? 4))%Z with true by lia.
  reflexivity.
Qed.

Lemma speed_request_out_of_range (speed : Z) :
  ~ (0 <= speed <= 4)%Z ->
  speed_in_range (dict_get [("speed", PInt speed)] "speed" (PInt 0)) = None.
Proof.
  intros Hs. cbn [dict_get find fst snd String.eqb Ascii.eqb Bool.eqb].
  rewrite speed_in_range_int.
  replace ((0 <=? speed) && (speed <=? 4))%Z with false by lia.
  reflexivity.
Qed.

Lemma dict_get_missing (items : list (string * pyval)) (key : string)
  (default : pyval) :
  has_key items key = false -> dict_get items key default = default.
Proof.
  unfold has_key, dict_get. induction items as [| kv items IH]; cbn.
  - reflexivity.
  - destruct (fst kv =? key)%string; cbn; [discriminate | exact IH].
Qed.

(** The three tables are defined on the settings 0 to 4. *)
Lemma tables_defined (k : Z) :
  (0 <= k <= 4)%Z ->
  exists base rpm gear,
    getitem POWER_CONSUMPTION_RATE k = Some base /\ (0 <= base <= 1000)%Z /\
    getitem RPM_SETTINGS k = Some rpm /\
    getitem GEAR_RATIOS k = Some gear.
Proof.
  intros Hk.
  destruct (speed_cases k Hk) as [-> | [-> | [-> | [-> | ->]]]];
    do 3 eexists; cbn; repeat split; lia.
Qed.

(** On those settings [calculate_power_consumption] raises no
    [KeyError]. *)
Lemma calculate_power_consumption_defined (rnd : Q -> Q) (k : Z) (b : Q) :
  (0 <= k <= 4)%Z ->
  exists p, calculate_power_consumption rnd k b = Some p.
Proof.
  intros Hk. unfold calculate_power_consumption.
  destruct (Qle_bool b 0); [eexists; reflexivity |].
  destruct (tables_defined k Hk) as (base & _ & _ & -> & _ & _).
  eexists. reflexivity.
Qed.

(** ** Running a statement sequence in a proof *)

Ltac unfold_monad :=
  cbv beta iota delta
    [tick update_iteration update_body set_motor_speed toggle_charging
     reset_state get_vehicle_state internal_error get_json data_get
     try_except bind read assign ret raise doc_set answer exec step reply
     tick_now tick_brake_draw tick_engine_draw tick_write_ok].

Ltac simpl_state :=
  cbn [vehicle_state current_state_doc fst snd lift
       parking_brake check_engine motor_status battery_low power motor_rpm
       gear_ratio battery_percentage battery_temperature motor_speed_setting
       is_charging last_update
       set_parking_brake set_check_engine set_motor_status set_battery_low
       set_power set_motor_rpm set_gear_ratio set_battery_percentage
       set_battery_temperature set_motor_speed_setting set_is_charging
       set_last_update initial_state] in *.

Ltac use_lookup :=
  match goal with
  | H : calculate_power_consumption _ _ _ = _ |- _ => rewrite H
  | H : getitem _ _ = _ |- _ => rewrite H
  | H : speed_in_range _ = _ |- _ => rewrite H
  end.

Ltac split_if :=
  match goal with
  | |- context [if ?c then _ else _] => destruct c eqn:?
  end.

Ltac split_lookup :=
  match goal with
  | |- context [lift ?o] => destruct o eqn:?
  | |- context [speed_in_range ?v] => destruct (speed_in_range v) eqn:?
  end.

(** Run the statements, using the lookups known to succeed. *)
Ltac crunch :=
  repeat (unfold_monad; simpl_state; try use_lookup; try split_if).

(** Run the statements, splitting on every lookup. *)
Ltac crunch_all :=
  repeat (unfold_monad; simpl_state; try split_lookup; try split_if).

Ltac crunch_thread :=
  repeat (cbv beta iota delta
            [thread_of update_thread update_tail set_motor_speed_thread
             toggle_charging_thread reset_state_thread atomic];
          cbn [run_alone];
          unfold_monad; simpl_state; try split_lookup; try split_if).

Ltac compare_props :=
  repeat match goal with
    | H : Qlt_bool _ _ = true |- _ => apply Qlt_bool_iff in H
    | H : Qlt_bool _ _ = false |- _ => apply Qlt_bool_false in H
    | H : Qle_bool _ _ = true |- _ => apply Qle_bool_iff in H
    | H : Qle_bool _ _ = false |- _ => apply Qle_bool_false in H
    end.

Ltac clean_andb :=
  repeat match goal with
    | H : context [(_ && true)%bool] |- _ => rewrite andb_true_r in H
    | H : context [(_ && false)%bool] |- _ => rewrite andb_false_r in H
    end.

Ltac split_minmax :=
  repeat match goal with
    | |- context [Qmax ?a ?b] =>
        let H := fresh in
        destruct (Q.max_spec a b) as [[? H] | [? H]]; rewrite H
    | |- context [Qmin ?a ?b] =>
        let H := fresh in
        destruct (Q.min_spec a b) as [[? H] | [? H]]; rewrite H
    end.

(** Arithmetic without rounding, unfolded. *)
Ltac ideal_arithmetic :=
  cbv beta delta [fadd fsub fmul fdiv float_literal ideal] in *.

(** ** The discrete invariant *)

Lemma initial_state_coherent (now : timestamp) : coherent (initial_state now).
Proof.
  split; simpl_state; try reflexivity; try lia.
Qed.

Lemma tick_coherent (rnd : Q -> Q) (i : tick_input) (sys : System) :
  coherent (vehicle_state sys) -> coherent (vehicle_state (tick rnd i sys)).
Proof.
  destruct sys as [st doc], i as [now r1 r2 ok].
  intros [Hs Hrpm Hgear Hex Hms Hbl]. simpl_state.
  destruct (calculate_power_consumption_defined rnd
              (motor_speed_setting st) (battery_percentage st) Hs)
    as (p & Hp).
  crunch.
  all: split; simpl_state; try assumption; try reflexivity.
  all: intros [Hpos Hch];
    first [congruence | apply Hex; split; [exact Hpos | reflexivity]].
Qed.

Lemma set_motor_speed_coherent (rnd : Q -> Q) (req : json_request)
  (write_ok : bool) (sys : System) :
  coherent (vehicle_state sys) ->
  coherent (vehicle_state (snd (set_motor_speed rnd req write_ok sys))).
Proof.
  destruct sys as [st doc].
  intros Hc. pose proof Hc as [Hs Hrpm Hgear Hex Hms Hbl]. simpl_state.
  destruct req as [| data]; [exact Hc |].
  destruct data; try exact Hc.
  unfold_monad. simpl_state.
  destruct (speed_in_range (dict_get items "speed" (PInt 0))) as [k |] eqn:Hk;
    [| exact Hc].
  pose proof (speed_in_range_bounds _ _ Hk) as Hk4.
  destruct (tables_defined k Hk4) as (base & rpm & gear & _ & _ & Hr & Hg).
  destruct (calculate_power_consumption_defined rnd k (battery_percentage st)
              Hk4) as (p & Hp).
  crunch; try exact Hc.
  all: split; simpl_state; try assumption; try reflexivity.
  all: intros [_ Hch]; congruence.
Qed.

Lemma toggle_charging_coherent (req : json_request) (write_ok : bool)
  (sys : System) :
  coherent (vehicle_state sys) ->
  coherent (vehicle_state (snd (toggle_charging req write_ok sys))).
Proof.
  destruct sys as [st doc].
  intros Hc. pose proof Hc as [Hs Hrpm Hgear Hex Hms Hbl]. simpl_state.
  destruct req as [| data]; [exact Hc |].
  destruct data; try exact Hc.
  crunch; try exact Hc.
  all: split; simpl_state; try assumption; try reflexivity; try lia.
  all: try (intros [Hpos Hch]; first [congruence | lia]).
  all: apply andb_false_iff in Heqb;
    destruct Heqb as [Hsp | Hf]; [| congruence].
  all: assert (Hz : motor_speed_setting st = 0%Z) by lia.
  all: rewrite Hz in Hrpm, Hgear; try exact Hgear.
  all: cbn in Hrpm; injection Hrpm as Hrpm.
  all: rewrite Hms, <- Hrpm; reflexivity.
Qed.

Lemma reset_state_coherent (now : timestamp) (write_ok : bool) (sys : System) :
  coherent (vehicle_state (snd (reset_state now write_ok sys))).
Proof.
  destruct sys as [st doc]. crunch; apply initial_state_coherent.
Qed.

Lemma step_coherent (rnd : Q -> Q) (op : operation) (sys : System) :
  coherent (vehicle_state sys) -> coherent (vehicle_state (step rnd op sys)).
Proof.
  intros Hc. destruct op as [i | req ok | req ok | now ok |].
  - apply tick_coherent, Hc.
  - unfold step, exec, answer.
    pose proof (set_motor_speed_coherent rnd req ok sys Hc) as H.
    destruct (fst (set_motor_speed rnd req ok sys)); exact H.
  - unfold step, exec, answer.
    pose proof (toggle_charging_coherent req ok sys Hc) as H.
    destruct (fst (toggle_charging req ok sys)); exact H.
  - unfold step, exec, answer.
    pose proof (reset_state_coherent now ok sys) as H.
    destruct (fst (reset_state now ok sys)); exact H.
  - destruct sys as [st [doc |]]; exact Hc.
Qed.

(** A stored document is a copy of the dictionary made at the end of an
    operation. *)
Lemma doc_after_step (rnd : Q -> Q) (op : operation) (sys : System) :
  current_state_doc (step rnd op sys) = current_state_doc sys \/
  current_state_doc (step rnd op sys) = Some (vehicle_state (step rnd op sys)).
Proof.
  destruct sys as [st doc], op as [[now r1 r2 ok] | req ok | req ok | now ok |].
  - crunch_all; auto.
  - destruct req as [| data]; [crunch_all; auto |].
    destruct data; crunch_all; auto.
  - destruct req as [| data]; [crunch_all; auto |].
    destruct data; crunch_all; auto.
  - crunch_all; auto.
  - unfold_monad. simpl_state. destruct doc; simpl_state; auto.
Qed.

(** An invariant of the record that the initial state has and every
    operation keeps holds of the dictionary and of the stored document in
    every reachable state. *)
Lemma reachable_holds_in (rnd : Q -> Q) (P : VehicleState -> Prop) :
  (forall now, P (initial_state now)) ->
  (forall op sys, reachable rnd sys -> P (vehicle_state sys) ->
     P (vehicle_state (step rnd op sys))) ->
  forall sys, reachable rnd sys -> holds_in P sys.
Proof.
  intros Hinit Hstep sys Hr.
  induction Hr as [t_doc t_mem | op sys Hr [Hmem Hdoc]].
  - split; [apply Hinit |].
    intros doc Hd. injection Hd as <-. apply Hinit.
  - pose proof (Hstep op sys Hr Hmem) as Hmem'.
    split; [exact Hmem' |].
    intros doc Hd.
    destruct (doc_after_step rnd op sys) as [Hsame | Hnew].
    + apply Hdoc. rewrite <- Hsame. exact Hd.
    + rewrite Hnew in Hd. injection Hd as <-. exact Hmem'.
Qed.

Lemma reachable_coherent (rnd : Q -> Q) (sys : System) :
  reachable rnd sys -> holds_in coherent sys.
Proof.
  apply reachable_holds_in.
  - apply initial_state_coherent.
  - intros op s _ Hc. apply step_coherent, Hc.
Qed.

(** ** Bounds, for any monotone rounding that fixes the integers *)

Lemma power_rate_nonneg (k base : Z) :
  getitem POWER_CONSUMPTION_RATE k = Some base -> (0 <= base)%Z.
Proof.
  unfold getitem, POWER_CONSUMPTION_RATE. cbn [find fst].
  repeat match goal with
    | |- context [(?a =? k)%Z] => destruct (a =? k)%Z
    end; cbn; intros H; inversion H; lia.
Qed.

Lemma ideal_monotone : monotone ideal.
Proof. intros x y H. exact H. Qed.

Lemma ideal_fixes_integers : fixes_integers ideal.
Proof. intros z _. reflexivity. Qed.

Section Bounds.

Variable rnd : Q -> Q.
Hypothesis rnd_monotone : monotone rnd.
Hypothesis rnd_integers : fixes_integers rnd.

Lemma rnd_le_integer (x : Q) (z : Z) :
  (Z.abs z <= 2 ^ 53)%Z -> x <= inject_Z z -> rnd x <= inject_Z z.
Proof.
  intros Hz Hx. rewrite <- (rnd_integers z Hz). apply rnd_monotone, Hx.
Qed.

Lemma rnd_ge_integer (x : Q) (z : Z) :
  (Z.abs z <= 2 ^ 53)%Z -> inject_Z z <= x -> inject_Z z <= rnd x.
Proof.
  intros Hz Hx. rewrite <- (rnd_integers z Hz). apply rnd_monotone, Hx.
Qed.

Lemma rnd_nonneg (x : Q) : 0 <= x -> 0 <= rnd x.
Proof. intros Hx. apply (rnd_ge_integer x 0); [lia | exact Hx]. Qed.

Lemma rnd_proper (x y : Q) : x == y -> rnd x == rnd y.
Proof.
  intros Hxy. apply Qle_antisym; apply rnd_monotone; rewrite Hxy;
    apply Qle_refl.
Qed.

Lemma calculate_power_consumption_nonneg (k : Z) (b p : Q) :
  calculate_power_consumption rnd k b = Some p -> 0 <= p.
Proof.
  unfold calculate_power_consumption.
  destruct (Qle_bool b 0).
  - intros H. injection H as <-. apply Qle_refl.
  - destruct (getitem POWER_CONSUMPTION_RATE k) as [base |] eqn:Hbase;
      [| discriminate].
    intros H. injection H as <-.
    apply power_rate_nonneg in Hbase.
    unfold fmul. apply rnd_nonneg, Qmult_le_0_compat.
    + rewrite Zle_Qle in Hbase. exact Hbase.
    + apply Q.max_le_iff. left. unfold float_literal.
      apply rnd_nonneg. lra.
Qed.

(** The battery after a tick with the motor running. *)
Lemma drain_bounded (b p : Q) :
  0 <= b <= 100 -> 0 <= p ->
  0 <= Qmax 0 (fsub rnd b (fmul rnd (fmul rnd p (float_literal rnd 0.001)) 1))
    <= 100.
Proof.
  intros Hb Hp. split; [apply Q.le_max_l |].
  apply Q.max_lub; [lra |].
  unfold fsub.
  apply (rnd_le_integer _ 100); [lia |].
  assert (Hrate : 0 <= fmul rnd (fmul rnd p (float_literal rnd 0.001)) 1).
  { unfold fmul, float_literal.
    apply rnd_nonneg, Qmult_le_0_compat; [| lra].
    apply rnd_nonneg, Qmult_le_0_compat; [exact Hp |].
    apply rnd_nonneg. lra. }
  change (inject_Z 100) with 100. lra.
Qed.

(** [target_temp] of the tick. *)
Lemma target_temp_bounded (k : Z) :
  (0 <= k <= 4)%Z ->
  25 <= fadd rnd (inject_Z MIN_TEMPERATURE)
          (fdiv rnd (inject_Z ((MAX_TEMPERATURE - MIN_TEMPERATURE) * k)) 4)
     <= 80.
Proof.
  intros Hk.
  assert (Hq : 0 <= fdiv rnd
                      (inject_Z ((MAX_TEMPERATURE - MIN_TEMPERATURE) * k)) 4
               <= 55).
  { unfold fdiv.
    assert (H0 : 0 <= inject_Z ((MAX_TEMPERATURE - MIN_TEMPERATURE) * k) / 4
                 <= 55).
    { unfold MAX_TEMPERATURE, MIN_TEMPERATURE.
      destruct (speed_cases k Hk) as [-> | [-> | [-> | [-> | ->]]]];
        split; vm_compute; discriminate. }
    split.
    - apply rnd_nonneg, H0.
    - apply (rnd_le_integer _ 55); [lia | apply H0]. }
  unfold fadd. change (inject_Z MIN_TEMPERATURE) with 25. split.
  - apply (rnd_ge_integer _ 25); [lia |]. change (inject_Z 25) with 25. lra.
  - apply (rnd_le_integer _ 80); [lia |]. change (inject_Z 80) with 80. lra.
Qed.

(** The temperature after a tick with the motor running. *)
Lemma warm_bounded (t target : Q) :
  25 <= t -> 25 <= target <= 80 ->
  25 <= Qmin target (fadd rnd t (float_literal rnd 0.1)) <= 80.
Proof.
  intros Ht Htarget. split.
  - apply Q.min_glb; [lra |].
    unfold fadd, float_literal. apply (rnd_ge_integer _ 25); [lia |].
    assert (0 <= rnd 0.1) by (apply rnd_nonneg; lra).
    change (inject_Z 25) with 25. lra.
  - apply Q.min_le_iff. left. lra.
Qed.

(** Battery and temperature after a tick while charging. *)
Lemma charge_bounded (b rate : Q) :
  0 <= b -> 0 <= rate ->
  0 <= Qmin 100 (fadd rnd b (float_literal rnd rate)) <= 100.
Proof.
  intros Hb Hrate. split; [| apply Q.le_min_l].
  apply Q.min_glb; [lra |].
  unfold fadd, float_literal. apply rnd_nonneg.
  assert (0 <= rnd rate) by (apply rnd_nonneg, Hrate). lra.
Qed.

Lemma cool_bounded (t : Q) :
  t <= 80 ->
  25 <= Qmax (inject_Z MIN_TEMPERATURE) (fsub rnd t (float_literal rnd 0.05))
     <= 80.
Proof.
  intros Ht. change (inject_Z MIN_TEMPERATURE) with 25.
  split; [apply Q.le_max_l |].
  apply Q.max_lub; [lra |].
  unfold fsub, float_literal. apply (rnd_le_integer _ 80); [lia |].
  assert (0 <= rnd 0.05) by (apply rnd_nonneg; lra).
  change (inject_Z 80) with 80. lra.
Qed.

Lemma initial_state_bounded (now : timestamp) : bounded (initial_state now).
Proof. split; simpl_state; split; vm_compute; discriminate. Qed.

Lemma tick_bounded (i : tick_input) (sys : System) :
  (0 <= motor_speed_setting (vehicle_state sys) <= 4)%Z ->
  bounded (vehicle_state sys) ->
  bounded (vehicle_state (tick rnd i sys)).
Proof.
  destruct sys as [st doc], i as [now r1 r2 ok].
  intros Hs Hbnd. pose proof Hbnd as [Hb Ht]. simpl_state.
  change (inject_Z MIN_TEMPERATURE) with 25 in Ht.
  change (inject_Z MAX_TEMPERATURE) with 80 in Ht.
  destruct (calculate_power_consumption_defined rnd
              (motor_speed_setting st) (battery_percentage st) Hs)
    as (p & Hp).
  pose proof (calculate_power_consumption_nonneg _ _ _ Hp) as Hp0.
  pose proof (target_temp_bounded (motor_speed_setting st) Hs) as Htarget.
  crunch.
  all: split; simpl_state; try assumption.
  all: change (inject_Z MAX_TEMPERATURE) with 80.
  all: lazymatch goal with
       | |- _ <= Qmax _ (fsub _ (battery_percentage _) _) <= _ =>
           apply drain_bounded; assumption
       | |- _ <= Qmin _ (fadd _ (battery_temperature _) _) <= _ =>
           apply warm_bounded; [apply Ht | exact Htarget]
       | |- _ <= Qmin _ (fadd _ (battery_percentage _) _) <= _ =>
           apply charge_bounded; lra
       | |- _ <= Qmax _ (fsub _ (battery_temperature _) _) <= _ =>
           apply cool_bounded; apply Ht
       | |- _ => change (inject_Z MIN_TEMPERATURE) with 25; exact Ht
       end.
Qed.

Lemma step_bounded (op : operation) (sys : System) :
  (0 <= motor_speed_setting (vehicle_state sys) <= 4)%Z ->
  bounded (vehicle_state sys) ->
  bounded (vehicle_state (step rnd op sys)).
Proof.
  intros Hs Hbnd. destruct op as [i | req ok | req ok | now ok |].
  - apply tick_bounded; assumption.
  - destruct sys as [st doc], Hbnd as [Hb Ht].
    destruct req as [| data]; [split; assumption |].
    destruct data; crunch_all; split; assumption.
  - destruct sys as [st doc], Hbnd as [Hb Ht].
    destruct req as [| data]; [split; assumption |].
    destruct data; crunch_all; split; assumption.
  - destruct sys as [st doc]. crunch_all; apply initial_state_bounded.
  - destruct sys as [st [doc |]]; exact Hbnd.
Qed.

Lemma reachable_bounded (sys : System) :
  reachable rnd sys -> holds_in bounded sys.
Proof.
  intros Hr.
  assert (H : holds_in (fun st => coherent st /\ bounded st) sys).
  { revert sys Hr. apply reachable_holds_in.
    - intros now. split;
        [apply initial_state_coherent | apply initial_state_bounded].
    - intros op s _ [Hc Hb]. split.
      + apply step_coherent, Hc.
      + apply step_bounded; [apply coh_speed, Hc | exact Hb]. }
  destruct H as [[_ Hmem] Hdoc].
  split; [exact Hmem |]. intros doc Hd. apply (Hdoc doc Hd).
Qed.

(** The power at a full battery is the table value. *)
Lemma full_battery_power (base : Z) :
  (0 <= base <= 1000)%Z ->
  fmul rnd (inject_Z base) (Qmax (float_literal rnd 0.5) (fdiv rnd 100 100))
  == inject_Z base.
Proof.
  intros Hbase. unfold fmul, fdiv, float_literal.
  assert (H1 : rnd (100 / 100) == 1).
  { rewrite (rnd_proper (100 / 100) (inject_Z 1)) by reflexivity.
    apply rnd_integers. lia. }
  assert (Hhalf : rnd 0.5 <= 1).
  { apply (rnd_le_integer _ 1); [lia |]. vm_compute. discriminate. }
  assert (Hmax : Qmax (rnd 0.5) (rnd (100 / 100)) == 1).
  { rewrite H1. apply Q.max_r, Hhalf. }
  rewrite (rnd_proper _ (inject_Z base)).
  - apply rnd_integers. lia.
  - rewrite Hmax. ring.
Qed.

(** C2. For a monotone rounding that fixes the integers, in every
    reachable state [battery_percentage] lies in [0, 100] and
    [battery_temperature] lies in [MIN_TEMPERATURE, MAX_TEMPERATURE], that
    is in [25, 80]; the same holds of the stored document. *)
Theorem battery_and_temperature_bounded (sys : System) :
  reachable rnd sys ->
  (0 <= battery_percentage (vehicle_state sys) <= 100 /\
   inject_Z MIN_TEMPERATURE <= battery_temperature (vehicle_state sys)
     <= inject_Z MAX_TEMPERATURE) /\
  forall doc, current_state_doc sys = Some doc ->
    0 <= battery_percentage doc <= 100 /\
    inject_Z MIN_TEMPERATURE <= battery_temperature doc
      <= inject_Z MAX_TEMPERATURE.
Proof.
  intros Hr. destruct (reachable_bounded sys Hr) as [Hmem Hdoc].
  split; [split; [apply bnd_battery | apply bnd_temperature]; exact Hmem |].
  intros doc Hd.
  split; [apply bnd_battery | apply bnd_temperature]; apply Hdoc, Hd.
Qed.

End Bounds.

(** ** Charging and motor speed exclude each other *)

(** C1. In every state reached from the start of the process by ticks and
    handler calls, in the dictionary and in the stored document alike, a
    positive [motor_speed_setting] and a true [is_charging] do not occur
    together. *)
Theorem charging_excludes_motor_speed (rnd : Q -> Q) (sys : System) :
  reachable rnd sys ->
  ~ ((motor_speed_setting (vehicle_state sys) > 0)%Z /\
     is_charging (vehicle_state sys) = true) /\
  forall doc, current_state_doc sys = Some doc ->
    ~ ((motor_speed_setting doc > 0)%Z /\ is_charging doc = true).
Proof.
  intros Hr. destruct (reachable_coherent rnd sys Hr) as [Hmem Hdoc].
  split; [apply coh_exclusive, Hmem |].
  intros doc Hd. apply coh_exclusive, Hdoc, Hd.
Qed.

(** ** The derived indicator flags *)

Lemma coherent_flags (st : VehicleState) : coherent st -> flags_consistent st.
Proof.
  intros Hc. split; [apply coh_motor_status | apply coh_battery_low]; exact Hc.
Qed.

(** ** The command handlers *)

(** C4. [set_motor_speed] on a body [{"speed": speed}] with an integer
    [speed]: the answer is the 400 [InvalidArgument] exactly when [speed] is
    not one of 0..4; for a valid speed it is a 400 [PreconditionFailed]
    exactly when the vehicle is charging, the battery is at or below 0, or
    the parking brake is on; otherwise the dictionary gets the new setting,
    the rpm and gear of the tables, the computed power and the recomputed
    [motor_status], and (the store accepting the write) the answer carries
    the speed, the rpm and the power.  From the initial state, speed 3 is
    answered with rpm 4500 and power 600, whatever the rounding among the
    monotone ones that fix the integers. *)
Theorem set_motor_speed_contract (rnd : Q -> Q) (speed : Z)
  (write_ok : bool) (sys : System) :
  (error_class_of
     (reply rnd (SetMotorSpeed (speed_request speed) write_ok) sys)
   = Some InvalidArgument <-> ~ (0 <= speed <= 4)%Z) /\
  ((0 <= speed <= 4)%Z ->
   (error_class_of
      (reply rnd (SetMotorSpeed (speed_request speed) write_ok) sys)
    = Some PreconditionFailed <->
    is_charging (vehicle_state sys) = true \/
    battery_percentage (vehicle_state sys) <= 0 \/
    parking_brake (vehicle_state sys) = true)) /\
  ((0 <= speed <= 4)%Z ->
   is_charging (vehicle_state sys) = false ->
   0 < battery_percentage (vehicle_state sys) ->
   parking_brake (vehicle_state sys) = false ->
   set_motor_speed_effect rnd speed (vehicle_state sys)
     (vehicle_state
        (step rnd (SetMotorSpeed (speed_request speed) write_ok) sys))
   /\
   (write_ok = true ->
    reply rnd (SetMotorSpeed (speed_request speed) write_ok) sys
    = Some (SpeedUpdated (PInt speed)
              (motor_rpm (vehicle_state
                 (step rnd (SetMotorSpeed (speed_request speed) write_ok)
                    sys)))
              (power (vehicle_state
                 (step rnd (SetMotorSpeed (speed_request speed) write_ok)
                    sys))))))
  /\
  (monotone rnd -> fixes_integers rnd ->
   forall t_doc t_mem,
     exists pw,
       reply rnd (SetMotorSpeed (speed_request 3) true)
         (boot None t_doc t_mem)
       = Some (SpeedUpdated (PInt 3) 4500 pw) /\ pw == 600).
Proof.
  destruct sys as [st doc]. simpl_state.
  unfold speed_request.
  split; [split |].
  - intros Hcls Hs.
    pose proof (speed_request_in_range speed Hs) as Hrange.
    destruct (tables_defined speed Hs) as (base & rpm & gear & _ & _ & Hr & Hg).
    destruct (calculate_power_consumption_defined rnd speed
                (battery_percentage st) Hs) as (pw & Hp).
    revert Hcls. crunch; cbn; discriminate.
  - intros Hs. pose proof (speed_request_out_of_range speed Hs) as Hout.
    crunch. reflexivity.
  - split; [| split].
    + intros Hs.
      pose proof (speed_request_in_range speed Hs) as Hrange.
      destruct (tables_defined speed Hs)
        as (base & rpm & gear & _ & _ & Hr & Hg).
      destruct (calculate_power_consumption_defined rnd speed
                  (battery_percentage st) Hs) as (pw & Hp).
      crunch; cbn; compare_props.
      all: split;
        [ first [discriminate | intros _; auto 4]
        | intros [H | [H | H]];
          first [reflexivity | congruence | exfalso; lra] ].
    + intros Hs Hch Hb Hbrake.
      pose proof (speed_request_in_range speed Hs) as Hrange.
      destruct (tables_defined speed Hs)
        as (base & rpm & gear & _ & _ & Hr & Hg).
      destruct (calculate_power_consumption_defined rnd speed
                  (battery_percentage st) Hs) as (pw & Hp).
      apply Qle_bool_false in Hb.
      unfold set_motor_speed_effect.
      crunch; try congruence.
      all: rewrite ?Hr, ?Hp, ?Hg; repeat split; try reflexivity; try assumption;
        try discriminate.
    + intros Hmono Hint t_doc t_mem. eexists. split; [reflexivity |].
      apply (full_battery_power rnd Hmono Hint 600). lia.
Qed.

(** C5. [toggle_charging] on a body [{"charging": charging}] with a boolean:
    the answer is a 400 [PreconditionFailed] exactly when charging is being
    switched on while the setting is positive or the battery is at or above
    100; otherwise [is_charging] takes the flag, switching on also zeroes
    the setting and the rpm and sets the power to -5, switching off sets the
    power to 0, and (the store accepting the write) the answer carries the
    flag and the battery percentage. *)
Theorem toggle_charging_contract (rnd : Q -> Q) (charging write_ok : bool)
  (sys : System) :
  (error_class_of
     (reply rnd (ToggleCharging (charging_request charging) write_ok) sys)
   = Some PreconditionFailed <->
   charging = true /\
   ((motor_speed_setting (vehicle_state sys) > 0)%Z \/
    100 <= battery_percentage (vehicle_state sys))) /\
  (~ (charging = true /\
      ((motor_speed_setting (vehicle_state sys) > 0)%Z \/
       100 <= battery_percentage (vehicle_state sys))) ->
   toggle_charging_effect charging (vehicle_state sys)
     (vehicle_state
        (step rnd (ToggleCharging (charging_request charging) write_ok) sys))
   /\
   (write_ok = true ->
    reply rnd (ToggleCharging (charging_request charging) write_ok) sys
    = Some (ChargingUpdated (PBool charging)
              (battery_percentage (vehicle_state sys))))).
Proof.
  destruct sys as [st doc]. simpl_state.
  unfold charging_request, toggle_charging_effect.
  split.
  - unfold_monad.
    cbn [dict_get find fst snd String.eqb Ascii.eqb Bool.eqb py_truthy].
    destruct charging; crunch; cbn; clean_andb; try discriminate;
      compare_props.
    all: split;
      [ first [discriminate | intros _; split; [reflexivity |]; left; lia
              | intros _; split; [reflexivity |]; right; assumption]
      | intros [Hc [Hpos | Hfull]];
        first [reflexivity | discriminate | lia | exfalso; lra] ].
  - intros Hok. unfold_monad.
    cbn [dict_get find fst snd String.eqb Ascii.eqb Bool.eqb py_truthy].
    destruct charging; crunch; cbn; clean_andb; try discriminate;
      compare_props.
    all: try (exfalso; apply Hok; split; [reflexivity |];
              first [left; lia | right; assumption]).
    all: repeat split; try reflexivity; try discriminate.
Qed.

(** C6. [reset_state] has no precondition: from any state the dictionary
    is rebound to the documented defaults, and the answer is the success
    message (the store accepting the write).  A second reset gives the same
    record again: the documented defaults, equal to the first result in
    every field but for [last_update], which holds the time of each reset
    and is equal too when the clock reads the same. *)
Theorem reset_state_restores_defaults (rnd : Q -> Q) (now now' : timestamp)
  (write_ok write_ok' : bool) (sys : System) :
  documented_defaults (vehicle_state (step rnd (Reset now write_ok) sys)) /\
  reply rnd (Reset now true) sys = Some ResetDone /\
  current_state_doc (step rnd (Reset now true) sys)
  = Some (vehicle_state (step rnd (Reset now true) sys)) /\
  documented_defaults
    (vehicle_state
       (step rnd (Reset now' write_ok') (step rnd (Reset now write_ok) sys)))
  /\
  (forall t,
     set_last_update t
       (vehicle_state
          (step rnd (Reset now' write_ok')
             (step rnd (Reset now write_ok) sys)))
     = set_last_update t (vehicle_state (step rnd (Reset now write_ok) sys)))
  /\
  vehicle_state
    (step rnd (Reset now write_ok') (step rnd (Reset now write_ok) sys))
  = vehicle_state (step rnd (Reset now write_ok) sys).
Proof.
  destruct sys as [st doc]. unfold reply, documented_defaults.
  destruct write_ok, write_ok'; cbn; repeat split; reflexivity.
Qed.

(** ** Request bodies without the expected key *)

(** C10. A body that is a JSON object without the expected key is handled
    as the default: [set_motor_speed] without ["speed"] does what it does on
    [{"speed": 0}], [toggle_charging] without ["charging"] what it does on
    [{"charging": false}], and neither is answered as invalid input.  The
    400 "Invalid JSON payload" is only given when [get_json] returned
    [None], which is not for a JSON object. *)
Theorem missing_key_defaults (rnd : Q -> Q) (items : list (string * pyval))
  (write_ok : bool) (sys : System) :
  (has_key items "speed" = false ->
   set_motor_speed rnd (GetJsonReturns (PDict items)) write_ok sys
   = set_motor_speed rnd (speed_request 0) write_ok sys /\
   error_class_of
     (reply rnd (SetMotorSpeed (GetJsonReturns (PDict items)) write_ok) sys)
   <> Some InvalidArgument) /\
  (has_key items "charging" = false ->
   toggle_charging (GetJsonReturns (PDict items)) write_ok sys
   = toggle_charging (charging_request false) write_ok sys /\
   error_class_of
     (reply rnd (ToggleCharging (GetJsonReturns (PDict items)) write_ok) sys)
   <> Some InvalidArgument) /\
  (forall req,
     reply rnd (SetMotorSpeed req write_ok) sys
     = Some (Error 400 "Invalid JSON payload") ->
     req = GetJsonReturns PNone) /\
  (forall req,
     reply rnd (ToggleCharging req write_ok) sys
     = Some (Error 400 "Invalid JSON payload") ->
     req = GetJsonReturns PNone).
Proof.
  destruct sys as [st doc].
  split; [| split; [| split]].
  - intros Hkey. split.
    + unfold speed_request. unfold_monad.
      rewrite (dict_get_missing _ _ _ Hkey). reflexivity.
    + unfold_monad. rewrite (dict_get_missing _ _ _ Hkey).
      crunch_all; cbn; discriminate.
  - intros Hkey. split.
    + unfold charging_request. unfold_monad.
      rewrite (dict_get_missing _ _ _ Hkey). reflexivity.
    + unfold_monad. rewrite (dict_get_missing _ _ _ Hkey).
      crunch_all; cbn; discriminate.
  - intros req.
    destruct req as [| data]; [crunch_all; cbn; discriminate |].
    destruct data; crunch_all; cbn; try discriminate. reflexivity.
  - intros req.
    destruct req as [| data]; [crunch_all; cbn; discriminate |].
    destruct data; crunch_all; cbn; try discriminate. reflexivity.
Qed.

(** A body that is neither [null] nor an object has no [get]: the handler
    answers 500, not 400. *)
Example list_body_is_internal_error (rnd : Q -> Q) :
  reply rnd (SetMotorSpeed (GetJsonReturns (PList [])) true) (boot None 0 1)
  = Some (Error 500 "Internal server error").
Proof. reflexivity. Qed.

(** ** [last_update] *)

Lemma set_motor_speed_last_update (rnd : Q -> Q) (req : json_request)
  (write_ok : bool) (sys : System) :
  last_update (vehicle_state (step rnd (SetMotorSpeed req write_ok) sys))
  = last_update (vehicle_state sys).
Proof.
  destruct sys as [st doc], req as [| data]; [reflexivity |].
  destruct data; crunch_all; reflexivity.
Qed.

Lemma toggle_charging_last_update (rnd : Q -> Q) (req : json_request)
  (write_ok : bool) (sys : System) :
  last_update (vehicle_state (step rnd (ToggleCharging req write_ok) sys))
  = last_update (vehicle_state sys).
Proof.
  destruct sys as [st doc], req as [| data]; [reflexivity |].
  destruct data; crunch_all; reflexivity.
Qed.

Lemma tick_last_update (rnd : Q -> Q) (i : tick_input) (sys : System) :
  (0 <= motor_speed_setting (vehicle_state sys) <= 4)%Z ->
  last_update (vehicle_state (step rnd (Tick i) sys)) = tick_now i.
Proof.
  destruct sys as [st doc], i as [now r1 r2 ok]. simpl_state. intros Hs.
  destruct (calculate_power_consumption_defined rnd
              (motor_speed_setting st) (battery_percentage st) Hs)
    as (p & Hp).
  crunch; reflexivity.
Qed.

Lemma reset_state_last_update (rnd : Q -> Q) (now : timestamp)
  (write_ok : bool) (sys : System) :
  last_update (vehicle_state (step rnd (Reset now write_ok) sys)) = now.
Proof.
  destruct sys as [st doc], write_ok; reflexivity.
Qed.

(** C8 (the code departs from it). The tick and [reset_state] write the
    clock reading into [last_update]; [set_motor_speed] and
    [toggle_charging] never write the field, so after a successful command
    it still holds the time of an earlier operation.  Here the process
    starts at clock 1 and the motor is set to level 3: the setting, rpm and
    gear are new, in the dictionary and in the stored document, and
    [last_update] is still 1; a tick at clock 7 and a reset at clock 9 do
    stamp it. *)
Theorem commands_do_not_stamp_last_update (rnd : Q -> Q) :
  (forall req write_ok sys,
     last_update (vehicle_state (step rnd (SetMotorSpeed req write_ok) sys))
     = last_update (vehicle_state sys)) /\
  (forall req write_ok sys,
     last_update (vehicle_state (step rnd (ToggleCharging req write_ok) sys))
     = last_update (vehicle_state sys)) /\
  (forall i sys,
     (0 <= motor_speed_setting (vehicle_state sys) <= 4)%Z ->
     last_update (vehicle_state (step rnd (Tick i) sys)) = tick_now i) /\
  (forall now write_ok sys,
     last_update (vehicle_state (step rnd (Reset now write_ok) sys)) = now) /\
  reply rnd (SetMotorSpeed (speed_request 3) true) (boot None 0 1)
  = Some (SpeedUpdated (PInt 3) 4500
            (power (vehicle_state (parked_system rnd)))) /\
  motor_speed_setting (vehicle_state (parked_system rnd)) = 3%Z /\
  motor_rpm (vehicle_state (parked_system rnd)) = 4500%Z /\
  gear_ratio (vehicle_state (parked_system rnd)) = "8.1:1" /\
  last_update (vehicle_state (parked_system rnd)) = 1%Z /\
  option_map last_update (current_state_doc (parked_system rnd)) = Some 1%Z /\
  last_update
    (vehicle_state (step rnd (Tick (quiet_tick 7)) (parked_system rnd)))
  = 7%Z /\
  last_update (vehicle_state (step rnd (Reset 9 true) (parked_system rnd)))
  = 9%Z.
Proof.
  split; [exact (set_motor_speed_last_update rnd) |].
  split; [exact (toggle_charging_last_update rnd) |].
  split; [exact (tick_last_update rnd) |].
  split; [exact (reset_state_last_update rnd) |].
  do 6 (split; [reflexivity |]).
  split; [| reflexivity].
  apply (tick_last_update rnd (quiet_tick 7)). cbn. lia.
Qed.

(** ** Threads *)

(** Run without interruption, the thread of an operation is the
    operation. *)
Lemma run_alone_thread_of (rnd : Q -> Q) (op : operation) (sys : System) :
  run_alone (thread_of rnd op) sys = step rnd op sys.
Proof.
  destruct sys as [st doc], op as [[now r1 r2 ok] | req ok | req ok | now ok |].
  - crunch_thread; reflexivity.
  - destruct req as [| data]; [reflexivity |].
    destruct data; try reflexivity.
    crunch_thread; reflexivity.
  - destruct req as [| data]; [reflexivity |].
    destruct data; try reflexivity.
    crunch_thread; reflexivity.
  - crunch_thread; reflexivity.
  - cbn. destruct doc; reflexivity.
Qed.

Lemma reachable_serial_run (rnd : Q -> Q) (ops : list operation)
  (sys : System) :
  reachable rnd sys -> reachable rnd (serial_run (map (thread_of rnd) ops) sys).
Proof.
  revert sys. induction ops as [| op ops IH]; intros sys Hr; cbn.
  - exact Hr.
  - apply IH. rewrite run_alone_thread_of. apply reachable_step, Hr.
Qed.

Lemma reachable_doc_complete (rnd : Q -> Q) (sys : System) :
  reachable rnd sys ->
  forall doc, current_state_doc sys = Some doc -> complete_record rnd doc.
Proof.
  induction 1 as [t_doc t_mem | op sys Hr IH]; intros doc Hd.
  - injection Hd as <-. exists (boot None t_doc t_doc).
    split; [apply reachable_boot | reflexivity].
  - destruct (doc_after_step rnd op sys) as [Hsame | Hnew].
    + apply IH. rewrite <- Hsame. exact Hd.
    + rewrite Hnew in Hd. injection Hd as <-.
      exists (step rnd op sys).
      split; [apply reachable_step, Hr | reflexivity].
Qed.

Lemma complete_record_coherent (rnd : Q -> Q) (doc : VehicleState) :
  complete_record rnd doc -> coherent doc.
Proof.
  intros (sys & Hr & <-). exact (proj1 (reachable_coherent rnd sys Hr)).
Qed.

(** A tick leaves the setting, the rpm, the gear ratio and the power as
    they are, and stores the dictionary when the write is accepted. *)
Lemma tick_frame (rnd : Q -> Q) (i : tick_input) (sys : System) :
  (0 <= motor_speed_setting (vehicle_state sys) <= 4)%Z ->
  motor_speed_setting (vehicle_state (tick rnd i sys))
  = motor_speed_setting (vehicle_state sys) /\
  motor_rpm (vehicle_state (tick rnd i sys)) = motor_rpm (vehicle_state sys) /\
  gear_ratio (vehicle_state (tick rnd i sys))
  = gear_ratio (vehicle_state sys) /\
  power (vehicle_state (tick rnd i sys)) = power (vehicle_state sys) /\
  (tick_write_ok i = true ->
   current_state_doc (tick rnd i sys) = Some (vehicle_state (tick rnd i sys))).
Proof.
  destruct sys as [st doc], i as [now r1 r2 ok]. simpl_state. intros Hs.
  destruct (calculate_power_consumption_defined rnd
              (motor_speed_setting st) (battery_percentage st) Hs)
    as (p & Hp).
  crunch; repeat split; try reflexivity; discriminate.
Qed.

Lemma run_steps_finished (n : nat) (t : thread) (sys : System) :
  fst (run_steps n t sys) = Finished ->
  snd (run_steps n t sys) = run_alone t sys.
Proof.
  revert t sys. induction n as [| n IH]; intros t sys; cbn.
  - intros ->. reflexivity.
  - destruct t as [| run]; cbn; [reflexivity |].
    destruct (run sys) as [sys' t']. apply IH.
Qed.

Lemma replace_thread_same (k : nat) (t : thread) (pool : list thread) :
  nth_error pool k = Some t -> replace_thread k t pool = pool.
Proof.
  revert k. induction pool as [| t0 pool IH]; intros [| k] H; cbn in *;
    try discriminate.
  - injection H as ->. reflexivity.
  - rewrite (IH k H). reflexivity.
Qed.

Lemma replace_thread_twice (k : nat) (t t' : thread) (pool : list thread) :
  replace_thread k t' (replace_thread k t pool) = replace_thread k t' pool.
Proof.
  revert k. induction pool as [| t0 pool IH]; intros [| k]; cbn;
    try reflexivity.
  rewrite IH. reflexivity.
Qed.

Lemma nth_error_replace_thread (k : nat) (t t' : thread)
  (pool : list thread) :
  nth_error pool k = Some t ->
  nth_error (replace_thread k t' pool) k = Some t'.
Proof.
  revert k. induction pool as [| t0 pool IH]; intros [| k] H; cbn in *;
    try discriminate.
  - reflexivity.
  - apply IH, H.
Qed.

(** A schedule that names one thread [n] times runs [n] steps of it. *)
Lemma run_schedule_repeat (k n : nat) (t : thread) (pool : list thread)
  (sys : System) :
  nth_error pool k = Some t ->
  run_schedule (repeat k n) pool sys
  = (replace_thread k (fst (run_steps n t sys)) pool,
     snd (run_steps n t sys)).
Proof.
  unfold run_schedule.
  revert t pool sys. induction n as [| n IH]; intros t pool sys Hk; cbn.
  - rewrite (replace_thread_same k t pool Hk). reflexivity.
  - unfold schedule_step at 2. cbn [fst snd]. rewrite Hk.
    destruct t as [| run].
    + rewrite (IH Finished pool sys Hk).
      destruct n; reflexivity.
    + destruct (run sys) as [sys' t'] eqn:Hrun.
      rewrite (IH t' (replace_thread k t' pool) sys'
                 (nth_error_replace_thread k _ t' pool Hk)).
      rewrite replace_thread_twice. reflexivity.
Qed.

Lemma run_schedule_app (s1 s2 : list nat) (pool : list thread)
  (sys : System) :
  run_schedule (s1 ++ s2) pool sys
  = run_schedule s2 (fst (run_schedule s1 pool sys))
      (snd (run_schedule s1 pool sys)).
Proof.
  unfold run_schedule. rewrite fold_left_app.
  destruct (fold_left _ s1 (pool, sys)); reflexivity.
Qed.

(** One iteration of the loop is at most twelve steps. *)
Lemma update_thread_steps (rnd : Q -> Q) (now : timestamp)
  (brake_draw engine_draw : Q) (write_ok : bool) (sys : System) :
  fst (run_steps 12 (update_thread rnd now brake_draw engine_draw write_ok)
         sys) = Finished.
Proof.
  destruct sys as [st doc].
  repeat (cbv beta iota delta [update_thread update_tail atomic];
          cbn [run_steps];
          unfold_monad; simpl_state; try split_lookup; try split_if);
    reflexivity.
Qed.

(** The thread of an operation ends within twelve steps. *)
Lemma thread_of_steps (rnd : Q -> Q) (op : operation) (sys : System) :
  fst (run_steps 12 (thread_of rnd op) sys) = Finished.
Proof.
  destruct op as [[now r1 r2 ok] | req ok | req ok | now ok |].
  - apply update_thread_steps.
  - destruct sys as [st doc], req as [| data]; [reflexivity |].
    destruct data; try reflexivity.
    repeat (cbv beta iota delta [thread_of set_motor_speed_thread atomic];
            cbn [run_steps];
            unfold_monad; simpl_state; try split_lookup; try split_if);
      reflexivity.
  - destruct sys as [st doc], req as [| data]; [reflexivity |].
    destruct data; try reflexivity.
    repeat (cbv beta iota delta [thread_of toggle_charging_thread atomic];
            cbn [run_steps];
            unfold_monad; simpl_state; try split_lookup; try split_if);
      reflexivity.
  - destruct sys as [st doc], ok; reflexivity.
  - reflexivity.
Qed.

Lemma replace_thread_app (done rest : list thread) (t t' : thread) :
  replace_thread (length done) t' (done ++ t :: rest)
  = ((done ++ [t']) ++ rest)%list.
Proof.
  induction done as [| t0 done IH]; cbn.
  - reflexivity.
  - rewrite IH. reflexivity.
Qed.

Lemma nth_error_middle (done rest : list thread) (t : thread) :
  nth_error (done ++ t :: rest) (length done) = Some t.
Proof.
  induction done as [| t0 done IH]; cbn; [reflexivity | exact IH].
Qed.

(** The threads of operations under the serial schedule: each runs alone
    to its end, in turn. *)
Lemma run_serial_schedule_from (rnd : Q -> Q) (ops : list operation)
  (done : list thread) (sys : System) :
  snd (run_schedule
         (flat_map (fun k => repeat k 12) (seq (length done) (length ops)))
         (done ++ map (thread_of rnd) ops) sys)
  = serial_run (map (thread_of rnd) ops) sys.
Proof.
  revert done sys. induction ops as [| op ops IH]; intros done sys.
  - reflexivity.
  - cbn [length seq flat_map map serial_run fold_left].
    rewrite run_schedule_app.
    rewrite (run_schedule_repeat (length done) 12 (thread_of rnd op)
               (done ++ thread_of rnd op :: map (thread_of rnd) ops) sys
               (nth_error_middle _ _ _)).
    cbn [fst snd].
    rewrite (run_steps_finished 12 _ sys (thread_of_steps rnd op sys)).
    rewrite thread_of_steps, replace_thread_app.
    replace (S (length done)) with (length (done ++ [Finished])%list)
      by (rewrite length_app; cbn; lia).
    rewrite IH. reflexivity.
Qed.

Lemma run_serial_schedule (rnd : Q -> Q) (ops : list operation)
  (sys : System) :
  snd (run_schedule (serial_schedule (length ops)) (map (thread_of rnd) ops)
         sys)
  = serial_run (map (thread_of rnd) ops) sys.
Proof. exact (run_serial_schedule_from rnd ops [] sys). Qed.

(** What the race stores: the new setting and rpm with the old gear ratio
    and power. *)
Lemma racing_stores_partial_record (rnd : Q -> Q) :
  exists doc,
    current_state_doc
      (snd (run_schedule racing_schedule
              (map (thread_of rnd) racing_operations) (boot None 0 1)))
    = Some doc /\
    motor_speed_setting doc = 3%Z /\
    motor_rpm doc = 4500%Z /\
    gear_ratio doc = "N/N" /\
    power doc = 0 /\
    ~ complete_record rnd doc.
Proof.
  assert (Hpartial : forall doc,
            motor_speed_setting doc = 3%Z -> gear_ratio doc = "N/N" ->
            ~ complete_record rnd doc).
  { intros doc Hs Hg Hc. apply complete_record_coherent in Hc.
    pose proof (coh_gear _ Hc) as Hgear. rewrite Hs, Hg in Hgear.
    cbn in Hgear. discriminate Hgear. }
  unfold racing_schedule, racing_operations.
  rewrite run_schedule_app.
  cbn [map].
  set (handler := thread_of rnd (SetMotorSpeed (speed_request 3) true)).
  set (loop := thread_of rnd (Tick (quiet_tick 2))).
  rewrite (run_schedule_repeat 0 5 handler [handler; loop] _ eq_refl).
  cbn [fst snd replace_thread].
  set (mid := snd (run_steps 5 handler (boot None 0 1))).
  assert (Hmid : vehicle_state mid
                 = set_motor_rpm 4500
                     (set_motor_speed_setting 3 (initial_state 1))).
  { reflexivity. }
  rewrite (run_schedule_repeat 1 12 loop
             [fst (run_steps 5 handler (boot None 0 1)); loop] mid eq_refl).
  cbn [snd]. subst loop.
  cbn [thread_of quiet_tick tick_now tick_brake_draw tick_engine_draw
       tick_write_ok].
  rewrite (run_steps_finished 12 _ mid (update_thread_steps rnd _ _ _ _ mid)).
  change (update_thread rnd 2 0.5 0.5 true)
    with (thread_of rnd (Tick (quiet_tick 2))).
  rewrite run_alone_thread_of.
  change (step rnd (Tick (quiet_tick 2)) mid)
    with (tick rnd (quiet_tick 2) mid).
  assert (Hs : (0 <= motor_speed_setting (vehicle_state mid) <= 4)%Z).
  { rewrite Hmid. cbn. lia. }
  destruct (tick_frame rnd (quiet_tick 2) mid Hs)
    as (Hspeed & Hrpm & Hgear & Hpower & Hdoc).
  exists (vehicle_state (tick rnd (quiet_tick 2) mid)).
  split; [apply Hdoc; reflexivity |].
  rewrite Hmid in Hspeed, Hrpm, Hgear, Hpower.
  repeat split; try assumption.
  apply Hpartial; assumption.
Qed.

(** C9, as stated, fails, whatever the rounding: there are operations and
    a schedule of their steps after which the stored document is a
    partially-updated record. *)
Lemma stored_records_not_always_complete :
  ~ exists rnd, stored_records_complete rnd.
Proof.
  intros [rnd Hall].
  destruct (racing_stores_partial_record rnd)
    as (doc & Hd & _ & _ & _ & _ & Hn).
  apply Hn.
  exact (Hall racing_operations racing_schedule 0%Z 1%Z doc Hd).
Qed.

(** C9, amended. No operation takes a lock.  Run one at a time, each to
    its end before the next starts (the serial schedule), the operations
    store complete records only; when the loop thread runs between two
    assignments of a handler, the record it stores, and that
    [get_vehicle_state] then serves, is partially updated: here the setting
    3 and rpm 4500 of the request with the gear ratio and power of the
    state before it. *)
Theorem stored_records_complete_without_interleaving (rnd : Q -> Q) :
  (forall (ops : list operation) (t_doc t_mem : timestamp)
          (doc : VehicleState),
     current_state_doc
       (snd (run_schedule (serial_schedule (length ops))
               (map (thread_of rnd) ops) (boot None t_doc t_mem)))
     = Some doc ->
     complete_record rnd doc) /\
  (forall op sys, run_alone (thread_of rnd op) sys = step rnd op sys) /\
  exists doc,
    reply rnd GetState
      (snd (run_schedule racing_schedule
              (map (thread_of rnd) racing_operations) (boot None 0 1)))
    = Some (StateDocument doc) /\
    motor_speed_setting doc = 3%Z /\
    motor_rpm doc = 4500%Z /\
    gear_ratio doc = "N/N" /\
    power doc = 0 /\
    ~ complete_record rnd doc.
Proof.
  split; [| split].
  - intros ops t_doc t_mem doc. rewrite run_serial_schedule. intros Hd.
    apply (reachable_doc_complete rnd _
             (reachable_serial_run rnd ops _ (reachable_boot rnd t_doc t_mem))
             doc Hd).
  - exact (run_alone_thread_of rnd).
  - destruct (racing_stores_partial_record rnd)
      as (doc & Hd & H1 & H2 & H3 & H4 & Hn).
    exists doc. split; [| auto].
    unfold reply, exec, get_vehicle_state, answer. cbv beta iota.
    rewrite Hd. reflexivity.
Qed.

(** ** The derived flags under interleaving *)

(** The loop thread of the default state after its first four steps: what
    is left of it assigns neither [motor_rpm] nor [motor_status], and
    stores the dictionary when the write is accepted. *)
Lemma update_thread_after_flags (rnd : Q -> Q) (now : timestamp)
  (brake_draw engine_draw : Q) :
  exists rest : thread,
    (forall t_doc t_mem,
       run_steps 4 (update_thread rnd now brake_draw engine_draw true)
         (boot None t_doc t_mem) = (rest, boot None t_doc t_mem)) /\
    (forall sys,
       motor_rpm (vehicle_state (snd (run_steps 12 rest sys)))
       = motor_rpm (vehicle_state sys) /\
       motor_status (vehicle_state (snd (run_steps 12 rest sys)))
       = motor_status (vehicle_state sys) /\
       current_state_doc (snd (run_steps 12 rest sys))
       = Some (vehicle_state (snd (run_steps 12 rest sys)))).
Proof.
  eexists. split.
  - intros t_doc t_mem.
    unfold update_thread, update_tail. cbv zeta.
    cbn [run_steps]. unfold atomic at 1. unfold_monad. simpl_state.
    cbn [negb andb Z.gtb Z.compare].
    unfold atomic at 1. unfold_monad. simpl_state.
    unfold atomic at 1. unfold_monad. simpl_state.
    unfold atomic at 1. unfold_monad. simpl_state.
    reflexivity.
  - intros [st doc].
    cbn [run_steps]. unfold atomic. unfold_monad. simpl_state.
    destruct (Qlt_bool brake_draw (float_literal rnd 0.001));
      destruct (Qlt_bool engine_draw (float_literal rnd 0.0005));
      unfold_monad; simpl_state; repeat split.
Qed.

(** What the race serves: the rpm of the request with the flag computed
    before it. *)
Lemma racing_serves_stale_flag (rnd : Q -> Q) :
  exists doc,
    reply rnd GetState
      (snd (run_schedule stale_flag_schedule
              (map (thread_of rnd) racing_operations) (boot None 0 1)))
    = Some (StateDocument doc) /\
    motor_rpm doc = 4500%Z /\
    motor_status doc = false /\
    ~ flags_consistent doc.
Proof.
  destruct (update_thread_after_flags rnd 2 0.5 0.5)
    as (rest & Hfirst & Hrest).
  unfold stale_flag_schedule, racing_operations. cbn [map].
  set (handler := thread_of rnd (SetMotorSpeed (speed_request 3) true)).
  set (loop := thread_of rnd (Tick (quiet_tick 2))).
  assert (Hloop : run_steps 4 loop (boot None 0 1) = (rest, boot None 0 1)).
  { exact (Hfirst 0%Z 1%Z). }
  rewrite run_schedule_app.
  rewrite (run_schedule_repeat 1 4 loop [handler; loop] _ eq_refl).
  rewrite !Hloop. cbn [fst snd replace_thread].
  rewrite run_schedule_app.
  rewrite (run_schedule_repeat 0 5 handler [handler; rest] _ eq_refl).
  cbn [fst snd replace_thread].
  set (mid := snd (run_steps 5 handler (boot None 0 1))).
  assert (Hmid : vehicle_state mid
                 = set_motor_rpm 4500
                     (set_motor_speed_setting 3 (initial_state 1))).
  { reflexivity. }
  rewrite (run_schedule_repeat 1 12 rest
             [fst (run_steps 5 handler (boot None 0 1)); rest] mid eq_refl).
  cbn [snd].
  destruct (Hrest mid) as (Hrpm & Hstatus & Hdoc).
  exists (vehicle_state (snd (run_steps 12 rest mid))).
  rewrite Hmid in Hrpm, Hstatus. simpl_state.
  split; [| split; [exact Hrpm | split; [exact Hstatus |]]].
  - unfold reply, exec, get_vehicle_state, answer. cbv beta iota.
    rewrite Hdoc. reflexivity.
  - intros [Hflag _]. rewrite Hrpm, Hstatus in Hflag. discriminate Hflag.
Qed.

(** C7, as stated, fails, whatever the rounding: there are operations and
    a schedule of their steps after which the document that a read is
    served has [motor_rpm] 4500 and [motor_status] false. *)
Lemma served_reads_not_always_consistent :
  ~ exists rnd, served_reads_consistent rnd.
Proof.
  intros [rnd Hall].
  destruct (racing_serves_stale_flag rnd) as (doc & Hd & _ & _ & Hn).
  apply Hn.
  exact (Hall racing_operations stale_flag_schedule 0%Z 1%Z doc Hd).
Qed.

(** C7, amended. No operation takes a lock.  In every state that whole
    operations leave, run one after the other or under the serial
    schedule, the flags of the document that a read is served, and of the
    dictionary and the document that any tick or handler call leaves,
    agree with their source fields: [motor_status] is [motor_rpm > 3000]
    and [battery_low] is [battery_percentage < 20].  When a request for a
    speed level runs between the loop's assignment of [motor_status] and
    its write to the store, the document stored, and then served by
    [get_vehicle_state], has the rpm of the request with the flag
    computed before it: here rpm 4500 with [motor_status] false. *)
Theorem served_flags_consistent_without_interleaving (rnd : Q -> Q) :
  (forall sys, reachable rnd sys ->
     (forall doc, reply rnd GetState sys = Some (StateDocument doc) ->
        flags_consistent doc) /\
     forall op,
       flags_consistent (vehicle_state (step rnd op sys)) /\
       forall doc, current_state_doc (step rnd op sys) = Some doc ->
         flags_consistent doc) /\
  (forall (ops : list operation) (t_doc t_mem : timestamp)
          (doc : VehicleState),
     reply rnd GetState
       (snd (run_schedule (serial_schedule (length ops))
               (map (thread_of rnd) ops) (boot None t_doc t_mem)))
     = Some (StateDocument doc) ->
     flags_consistent doc) /\
  exists doc,
    reply rnd GetState
      (snd (run_schedule stale_flag_schedule
              (map (thread_of rnd) racing_operations) (boot None 0 1)))
    = Some (StateDocument doc) /\
    motor_rpm doc = 4500%Z /\
    motor_status doc = false /\
    ~ flags_consistent doc.
Proof.
  assert (Hseq : forall sys, reachable rnd sys ->
            forall doc, reply rnd GetState sys = Some (StateDocument doc) ->
              flags_consistent doc).
  { intros sys Hr doc Hget.
    destruct (reachable_coherent rnd sys Hr) as [_ Hdoc].
    apply coherent_flags, Hdoc.
    destruct sys as [st [d |]]; cbn in Hget; [| discriminate].
    injection Hget as <-. reflexivity. }
  split; [| split].
  - intros sys Hr. split; [apply Hseq, Hr |].
    intros op.
    destruct (reachable_coherent rnd _ (reachable_step rnd op sys Hr))
      as [Hmem Hdoc].
    split; [apply coherent_flags, Hmem |].
    intros doc Hd. apply coherent_flags, Hdoc, Hd.
  - intros ops t_doc t_mem doc. rewrite run_serial_schedule.
    apply Hseq, reachable_serial_run, reachable_boot.
  - apply racing_serves_stale_flag.
Qed.

(** * Arithmetic without rounding, and runs that exercise the statements *)

Lemma charging_excludes_motor_speed_witness :
  reachable ideal (driving_system ideal) /\
  (~ ((motor_speed_setting (vehicle_state (driving_system ideal)) > 0)%Z /\
      is_charging (vehicle_state (driving_system ideal)) = true) /\
   forall doc, current_state_doc (driving_system ideal) = Some doc ->
     ~ ((motor_speed_setting doc > 0)%Z /\ is_charging doc = true)).
Proof.
  split.
  - do 2 apply reachable_step. apply reachable_boot.
  - apply (charging_excludes_motor_speed ideal (driving_system ideal)).
    do 2 apply reachable_step. apply reachable_boot.
Defined.

Lemma battery_and_temperature_bounded_witness :
  monotone ideal /\ fixes_integers ideal /\
  reachable ideal (driving_system ideal) /\
  ((0 <= battery_percentage (vehicle_state (driving_system ideal)) <= 100 /\
    inject_Z MIN_TEMPERATURE
      <= battery_temperature (vehicle_state (driving_system ideal))
      <= inject_Z MAX_TEMPERATURE) /\
   forall doc, current_state_doc (driving_system ideal) = Some doc ->
     0 <= battery_percentage doc <= 100 /\
     inject_Z MIN_TEMPERATURE <= battery_temperature doc
       <= inject_Z MAX_TEMPERATURE).
Proof.
  split; [exact ideal_monotone |].
  split; [exact ideal_fixes_integers |].
  split.
  - do 2 apply reachable_step. apply reachable_boot.
  - apply (battery_and_temperature_bounded ideal ideal_monotone
             ideal_fixes_integers).
    do 2 apply reachable_step. apply reachable_boot.
Defined.

(** ** What one tick does to battery and temperature *)

Lemma target_temp_ideal (k : Z) :
  fadd ideal (inject_Z MIN_TEMPERATURE)
    (fdiv ideal (inject_Z ((MAX_TEMPERATURE - MIN_TEMPERATURE) * k)) 4)
  == target_temp k.
Proof.
  unfold target_temp. ideal_arithmetic.
  rewrite inject_Z_mult.
  change (inject_Z MIN_TEMPERATURE) with 25.
  change (inject_Z (MAX_TEMPERATURE - MIN_TEMPERATURE)) with 55.
  reflexivity.
Qed.

(** In exact arithmetic, one tick on a state whose setting is one of
    0..4 updates battery and temperature as [tick_spec] says: drain by
    [power * 0.001] clamped at 0 and a rise of at most 0.1 towards
    [target_temp] while the motor runs, a gain of 0.4 or 0.2 clamped at 100
    and a loss of 0.05 floored at 25 while charging, no change otherwise. *)
Lemma tick_without_rounding (i : tick_input) (sys : System) :
  (0 <= motor_speed_setting (vehicle_state sys) <= 4)%Z ->
  tick_spec (vehicle_state sys) (vehicle_state (tick ideal i sys)).
Proof.
  destruct sys as [st doc], i as [now r1 r2 ok]. simpl_state. intros Hs.
  unfold tick_spec.
  pose proof (target_temp_ideal (motor_speed_setting st)) as Htarget.
  split; [| split].
  - intros Hch Hpos.
    destruct (tables_defined _ Hs) as (base & _ & _ & Hbase & _ & _).
    destruct (calculate_power_consumption_defined ideal
                (motor_speed_setting st) (battery_percentage st) Hs)
      as (pw & Hp).
    exists base, pw.
    split; [exact Hbase |]. split; [exact Hp |].
    assert (Hgt : (motor_speed_setting st >? 0)%Z = true) by lia.
    split; [| split].
    + intros Hb. apply Qle_bool_iff in Hb.
      unfold calculate_power_consumption in Hp. rewrite Hb in Hp.
      injection Hp as <-. reflexivity.
    + intros Hb. apply Qle_bool_false in Hb.
      unfold calculate_power_consumption in Hp. rewrite Hb, Hbase in Hp.
      injection Hp as <-. reflexivity.
    + unfold_monad. simpl_state. rewrite Hch, Hgt. cbn [negb andb].
      crunch; simpl_state; compare_props.
      all: set (ct := fadd ideal _ (fdiv ideal _ 4)) in *.
      all: ideal_arithmetic.
      all: repeat match goal with |- _ /\ _ => split end.
      all: intros; try reflexivity; try (exfalso; lra);
        try (split_minmax; lra).
  - intros Hch. unfold_monad. simpl_state. rewrite Hch. cbn [negb andb].
    crunch; simpl_state; try discriminate; compare_props.
    all: ideal_arithmetic.
    all: change (inject_Z MIN_TEMPERATURE) with 25.
    all: repeat match goal with |- _ /\ _ => split end.
    all: intros; try reflexivity; exfalso; lra.
  - intros Hch Hpos.
    assert (Hgt : (motor_speed_setting st >? 0)%Z = false) by lia.
    unfold_monad. simpl_state. rewrite Hch, Hgt. cbn [negb andb].
    crunch; simpl_state; try discriminate; split; reflexivity.
Qed.

(** The same tick evaluated: at level 3 and 100 percent the battery loses
    0.6 points and the temperature gains 0.1. *)
Example tick_at_level_3 :
  battery_percentage
    (vehicle_state (tick ideal (quiet_tick 2) (parked_system ideal)))
  == 99.4 /\
  battery_temperature
    (vehicle_state (tick ideal (quiet_tick 2) (parked_system ideal)))
  == 25.1.
Proof. split; vm_compute; reflexivity. Qed.

(** ** The scenarios of the specification, evaluated *)

Example depleted_battery_refuses_speed :
  reply ideal (SetMotorSpeed (speed_request 1) true) (with_battery 0)
  = Some (Error 400 "Battery depleted").
Proof. reflexivity. Qed.

Example running_motor_refuses_charging :
  reply ideal (ToggleCharging (charging_request true) true)
    (step ideal (SetMotorSpeed (speed_request 2) true) (boot None 0 1))
  = Some (Error 400 "Cannot start charging while motor is running").
Proof. reflexivity. Qed.

Example charging_at_99 :
  reply ideal (ToggleCharging (charging_request true) true) (with_battery 99)
  = Some (ChargingUpdated (PBool true) 99) /\
  battery_percentage
    (vehicle_state
       (step ideal (Tick (quiet_tick 2))
          (step ideal (ToggleCharging (charging_request true) true)
             (with_battery 99))))
  == 99.2 /\
  battery_temperature
    (vehicle_state
       (step ideal (Tick (quiet_tick 2))
          (step ideal (ToggleCharging (charging_request true) true)
             (with_battery 99))))
  == 25.
Proof. repeat split; vm_compute; reflexivity. Qed.

Example charging_power_sentinel :
  power
    (vehicle_state
       (step ideal (Tick (quiet_tick 2))
          (step ideal (ToggleCharging (charging_request true) true)
             (with_battery 99))))
  = -5 /\
  power
    (vehicle_state
       (step ideal (ToggleCharging (charging_request false) true)
          (step ideal (Tick (quiet_tick 2))
             (step ideal (ToggleCharging (charging_request true) true)
                (with_battery 99)))))
  = 0.
Proof. split; reflexivity. Qed.

(** * Binary64 arithmetic *)

(** ** Rounding to an integer *)

Lemma round_half_even_near (x : Q) :
  x - (1 # 2) <= inject_Z (round_half_even x) <= x + (1 # 2).
Proof.
  unfold round_half_even.
  pose proof (Qfloor_le x) as Hlow. pose proof (Qlt_floor x) as Hhigh.
  rewrite inject_Z_plus in Hhigh. change (inject_Z 1) with 1 in Hhigh.
  set (f := Qfloor x) in *.
  destruct (Qcompare_spec (x - inject_Z f) (1 # 2)) as [H | H | H].
  - destruct (Z.even f).
    + lra.
    + rewrite inject_Z_plus. change (inject_Z 1) with 1. lra.
  - lra.
  - rewrite inject_Z_plus. change (inject_Z 1) with 1. lra.
Qed.

Lemma round_half_even_floor (x : Q) :
  (Qfloor x <= round_half_even x <= Qfloor x + 1)%Z.
Proof.
  unfold round_half_even.
  destruct (Qcompare (x - inject_Z (Qfloor x)) (1 # 2));
    [destruct (Z.even _) | |]; lia.
Qed.

Lemma round_half_even_monotone (x y : Q) :
  x <= y -> (round_half_even x <= round_half_even y)%Z.
Proof.
  intros Hxy.
  pose proof (Qfloor_resp_le x y Hxy) as Hf.
  destruct (Z.eq_dec (Qfloor x) (Qfloor y)) as [Heq | Hne].
  - unfold round_half_even. rewrite Heq.
    set (f := Qfloor y) in *.
    destruct (Qcompare_spec (x - inject_Z f) (1 # 2)) as [Hx | Hx | Hx];
      destruct (Qcompare_spec (y - inject_Z f) (1 # 2)) as [Hy | Hy | Hy];
      try (exfalso; lra); try destruct (Z.even f); lia.
  - pose proof (round_half_even_floor x). pose proof (round_half_even_floor y).
    lia.
Qed.

Lemma round_half_even_integer (z : Z) : round_half_even (inject_Z z) = z.
Proof.
  unfold round_half_even. rewrite Qfloor_Z.
  destruct (Qcompare_spec (inject_Z z - inject_Z z) (1 # 2)) as [H | H | H];
    [exfalso; lra | reflexivity | exfalso; lra].
Qed.

(** ** Powers of two *)

Lemma two_power_pos (z : Z) : 0 < 2 ^ z.
Proof. apply Qpower_0_lt. reflexivity. Qed.

Lemma two_power_plus (a b : Z) : 2 ^ (a + b) == 2 ^ a * 2 ^ b.
Proof. apply Qpower_plus. discriminate. Qed.

Lemma two_power_le (a b : Z) : (a <= b)%Z -> 2 ^ a <= 2 ^ b.
Proof. intros H. apply Qpower_le_compat_l; [exact H | discriminate]. Qed.

Lemma two_power_lt_inv (a b : Z) : 2 ^ a < 2 ^ b -> (a < b)%Z.
Proof. intros H. apply (Qpower_lt_compat_l_inv 2); [exact H | reflexivity]. Qed.

Lemma two_power_integer (a : Z) :
  (0 <= a)%Z -> inject_Z (2 ^ a) == 2 ^ a.
Proof. intros H. rewrite Zpower_Qpower by exact H. reflexivity. Qed.

(** A multiple of [2 ^ j] is a multiple of [2 ^ q] for [q <= j]. *)
Lemma grid_scale (m j q : Z) :
  (q <= j)%Z ->
  inject_Z m * 2 ^ j == inject_Z (m * 2 ^ (j - q)) * 2 ^ q.
Proof.
  intros H. rewrite inject_Z_mult, two_power_integer by lia.
  replace j with ((j - q) + q)%Z at 1 by lia.
  rewrite two_power_plus. ring.
Qed.

(** ** The exponent *)

Lemma exponent_spec (x : Q) :
  0 < x -> 2 ^ exponent x <= x < 2 ^ (exponent x + 1).
Proof.
  intros Hx. unfold exponent.
  destruct x as [n d].
  assert (Hn : (0 < n)%Z).
  { unfold Qlt in Hx. cbn in Hx. lia. }
  cbn [Qnum Qden].
  set (a := Z.log2 n). set (b := Z.log2 (Z.pos d)).
  pose proof (Z.log2_spec n Hn) as Ha.
  pose proof (Z.log2_spec (Z.pos d) eq_refl) as Hb.
  pose proof (Z.log2_nonneg n) as Ha0.
  pose proof (Z.log2_nonneg (Z.pos d)) as Hb0.
  fold a in Ha, Ha0. fold b in Hb, Hb0.
  unfold Z.succ in Ha, Hb.
  assert (HA : 2 ^ a <= inject_Z n < 2 * 2 ^ a).
  { rewrite <- (two_power_integer a) by lia.
    change (2 * inject_Z (2 ^ a)) with (inject_Z 2 * inject_Z (2 ^ a)).
    rewrite <- inject_Z_mult, <- Zle_Qle, <- Zlt_Qlt.
    rewrite Z.pow_add_r in Ha by lia. lia. }
  assert (HB : 2 ^ b <= inject_Z (Z.pos d) < 2 * 2 ^ b).
  { rewrite <- (two_power_integer b) by lia.
    change (2 * inject_Z (2 ^ b)) with (inject_Z 2 * inject_Z (2 ^ b)).
    rewrite <- inject_Z_mult, <- Zle_Qle, <- Zlt_Qlt.
    rewrite Z.pow_add_r in Hb by lia. lia. }
  assert (Hq : (n # d) * inject_Z (Z.pos d) == inject_Z n).
  { unfold Qeq, Qmult, inject_Z. cbn. lia. }
  assert (He : 2 ^ (a - b) * 2 ^ b == 2 ^ a).
  { rewrite <- two_power_plus. replace (a - b + b)%Z with a by lia.
    reflexivity. }
  assert (Hlow : 2 ^ (a - b - 1) * 2 == 2 ^ (a - b)).
  { change 2 with (2 ^ 1) at 2. rewrite <- two_power_plus.
    replace (a - b - 1 + 1)%Z with (a - b)%Z by lia. reflexivity. }
  assert (Hhigh : 2 ^ (a - b + 1) == 2 ^ (a - b) * 2).
  { rewrite two_power_plus. reflexivity. }
  pose proof (two_power_pos (a - b)) as Ht.
  pose proof (two_power_pos (a - b - 1)) as Ht1.
  pose proof (two_power_pos a) as HA0.
  pose proof (two_power_pos b) as HB0.
  destruct (Qle_bool (2 ^ (a - b)) (n # d)) eqn:Hle.
  - apply Qle_bool_iff in Hle. split; [exact Hle |].
    set (t := 2 ^ (a - b)) in *. set (t2 := 2 ^ (a - b + 1)) in *.
    set (A := 2 ^ a) in *. set (B := 2 ^ b) in *.
    set (N := inject_Z n) in *. set (D := inject_Z (Z.pos d)) in *.
    set (x := n # d) in *.
    clearbody t t2 A B N D x. rewrite Hhigh. nra.
  - assert (Hlt : n # d < 2 ^ (a - b)).
    { apply Qnot_le_lt. intros H. apply Qle_bool_iff in H. congruence. }
    replace (a - b - 1 + 1)%Z with (a - b)%Z by lia.
    split; [| exact Hlt].
    set (t := 2 ^ (a - b)) in *. set (t1 := 2 ^ (a - b - 1)) in *.
    set (A := 2 ^ a) in *. set (B := 2 ^ b) in *.
    set (N := inject_Z n) in *. set (D := inject_Z (Z.pos d)) in *.
    set (x := n # d) in *.
    clearbody t t1 A B N D x. nra.
Qed.

Lemma exponent_lt (x : Q) (k : Z) :
  0 < x -> x < 2 ^ k -> (exponent x < k)%Z.
Proof.
  intros Hx Hk. destruct (exponent_spec x Hx) as [Hlow _].
  apply two_power_lt_inv. lra.
Qed.

Lemma exponent_ge (x : Q) (k : Z) :
  0 < x -> 2 ^ k <= x -> (k <= exponent x)%Z.
Proof.
  intros Hx Hk. destruct (exponent_spec x Hx) as [_ Hhigh].
  assert (H : (k < exponent x + 1)%Z) by (apply two_power_lt_inv; lra).
  lia.
Qed.

Lemma exponent_monotone (x y : Q) :
  0 < x -> x <= y -> (exponent x <= exponent y)%Z.
Proof.
  intros Hx Hxy. destruct (exponent_spec x Hx) as [Hlow _].
  apply exponent_ge; lra.
Qed.

(** ** The nearest float to a positive number *)

Lemma scaled_grid (m j q : Z) :
  (q <= j)%Z ->
  inject_Z m * 2 ^ j / 2 ^ q == inject_Z (m * 2 ^ (j - q)).
Proof.
  intros H. rewrite (grid_scale m j q H).
  pose proof (two_power_pos q) as Hw.
  set (w := 2 ^ q) in *. clearbody w. field. lra.
Qed.

(** Rounding does not cross a multiple of the quantum. *)
Lemma nearest_float_le_grid (x : Q) (m j : Z) :
  (quantum x <= j)%Z -> x <= inject_Z m * 2 ^ j ->
  nearest_float x <= inject_Z m * 2 ^ j.
Proof.
  intros Hq Hx. unfold nearest_float.
  rewrite (grid_scale m j (quantum x) Hq).
  pose proof (two_power_pos (quantum x)) as Hw.
  apply Qmult_le_compat_r; [| lra].
  rewrite <- Zle_Qle.
  rewrite <- (round_half_even_integer (m * 2 ^ (j - quantum x))).
  apply round_half_even_monotone.
  rewrite <- (scaled_grid m j (quantum x) Hq).
  apply Qmult_le_compat_r; [exact Hx |].
  apply Qlt_le_weak, Qinv_lt_0_compat, Hw.
Qed.

Lemma nearest_float_ge_grid (x : Q) (m j : Z) :
  (quantum x <= j)%Z -> inject_Z m * 2 ^ j <= x ->
  inject_Z m * 2 ^ j <= nearest_float x.
Proof.
  intros Hq Hx. unfold nearest_float.
  rewrite (grid_scale m j (quantum x) Hq).
  pose proof (two_power_pos (quantum x)) as Hw.
  apply Qmult_le_compat_r; [| lra].
  rewrite <- Zle_Qle.
  rewrite <- (round_half_even_integer (m * 2 ^ (j - quantum x))).
  apply round_half_even_monotone.
  rewrite <- (scaled_grid m j (quantum x) Hq).
  apply Qmult_le_compat_r; [exact Hx |].
  apply Qlt_le_weak, Qinv_lt_0_compat, Hw.
Qed.

Lemma nearest_float_nonneg (x : Q) : 0 <= x -> 0 <= nearest_float x.
Proof.
  intros Hx.
  assert (H : inject_Z 0 * 2 ^ quantum x <= nearest_float x).
  { apply nearest_float_ge_grid; [lia |].
    change (inject_Z 0) with 0. lra. }
  change (inject_Z 0) with 0 in H. lra.
Qed.

Lemma nearest_float_monotone (x y : Q) :
  0 < x -> x <= y -> nearest_float x <= nearest_float y.
Proof.
  intros Hx Hxy.
  assert (Hy : 0 < y) by lra.
  pose proof (exponent_monotone x y Hx Hxy) as He.
  destruct (Z.eq_dec (quantum x) (quantum y)) as [Heq | Hne].
  - unfold nearest_float. rewrite Heq.
    pose proof (two_power_pos (quantum y)) as Hw.
    apply Qmult_le_compat_r; [| lra].
    rewrite <- Zle_Qle. apply round_half_even_monotone.
    apply Qmult_le_compat_r; [exact Hxy |].
    apply Qlt_le_weak, Qinv_lt_0_compat, Hw.
  - assert (Hq : quantum y = (exponent y - 52)%Z /\
                 (exponent x < exponent y)%Z /\
                 (quantum x <= exponent y)%Z).
    { unfold quantum in *. lia. }
    destruct Hq as (Hqy & Hlt & Hqx).
    destruct (exponent_spec x Hx) as [_ Hhigh].
    destruct (exponent_spec y Hy) as [Hlow _].
    pose proof (two_power_le (exponent x + 1) (exponent y)) as Hpow.
    apply Qle_trans with (inject_Z 1 * 2 ^ exponent y).
    + apply nearest_float_le_grid; [exact Hqx |].
      change (inject_Z 1) with 1. specialize (Hpow ltac:(lia)). lra.
    + apply nearest_float_ge_grid; [lia |].
      change (inject_Z 1) with 1. lra.
Qed.

Lemma nearest_float_proper (x y : Q) :
  0 < x -> x == y -> nearest_float x == nearest_float y.
Proof.
  intros Hx Hxy.
  apply Qle_antisym; apply nearest_float_monotone; lra.
Qed.

(** A number with a significand of at most 53 bits and no bit below
    [2 ^ -1074] is a float. *)
Lemma nearest_float_exact (m j : Z) :
  (0 < m <= 2 ^ 53)%Z -> (-1074 <= j)%Z ->
  nearest_float (inject_Z m * 2 ^ j) == inject_Z m * 2 ^ j.
Proof.
  assert (Hless : forall m j,
            (0 < m < 2 ^ 53)%Z -> (-1074 <= j)%Z ->
            nearest_float (inject_Z m * 2 ^ j) == inject_Z m * 2 ^ j).
  { clear. intros m j Hm Hj.
    pose proof (two_power_pos j) as Hw.
    assert (Hm0 : 0 < inject_Z m).
    { change 0 with (inject_Z 0). rewrite <- Zlt_Qlt. lia. }
    assert (Hm53 : inject_Z m < 2 ^ 53).
    { rewrite <- (two_power_integer 53) by lia. rewrite <- Zlt_Qlt. lia. }
    assert (Hx : 0 < inject_Z m * 2 ^ j) by nra.
    assert (Hq : (quantum (inject_Z m * 2 ^ j) <= j)%Z).
    { assert (He : (exponent (inject_Z m * 2 ^ j) < 53 + j)%Z).
      { apply exponent_lt; [exact Hx |].
        rewrite two_power_plus.
        set (w := 2 ^ j) in *. set (p := 2 ^ 53) in *.
        set (z := inject_Z m) in *. clearbody w p z. nra. }
      unfold quantum. lia. }
    apply Qle_antisym.
    - apply nearest_float_le_grid; [exact Hq | apply Qle_refl].
    - apply nearest_float_ge_grid; [exact Hq | apply Qle_refl]. }
  intros Hm Hj.
  destruct (Z.eq_dec m (2 ^ 53)) as [-> | Hne].
  - assert (Heq : inject_Z (2 ^ 53) * 2 ^ j
                  == inject_Z (2 ^ 52) * 2 ^ (j + 1)).
    { rewrite two_power_plus.
      change (inject_Z (2 ^ 53)) with (inject_Z (2 ^ 52) * 2).
      change (2 ^ 1) with 2. ring. }
    assert (Hx : 0 < inject_Z (2 ^ 53) * 2 ^ j).
    { apply Qmult_lt_0_compat; [reflexivity | apply two_power_pos]. }
    rewrite (nearest_float_proper _ _ Hx Heq).
    rewrite Heq. apply Hless; lia.
  - apply Hless; lia.
Qed.

(** The significand of the nearest float has at most 53 bits. *)
Lemma nearest_float_significand (x : Q) :
  0 < x ->
  (0 <= round_half_even (x / 2 ^ quantum x) <= 2 ^ 53)%Z.
Proof.
  intros Hx.
  pose proof (two_power_pos (quantum x)) as Hw.
  destruct (exponent_spec x Hx) as [_ Hhigh].
  split.
  - rewrite <- (round_half_even_integer 0).
    apply round_half_even_monotone.
    change (inject_Z 0) with 0.
    apply Qle_shift_div_l; [exact Hw | lra].
  - rewrite <- (round_half_even_integer (2 ^ 53)).
    apply round_half_even_monotone.
    apply Qle_shift_div_r; [exact Hw |].
    rewrite two_power_integer by lia. rewrite <- two_power_plus.
    apply Qle_trans with (2 ^ (exponent x + 1)); [lra |].
    apply two_power_le. unfold quantum. lia.
Qed.

(** The nearest float is within half a quantum. *)
Lemma nearest_float_near (x : Q) :
  x - 2 ^ quantum x / 2 <= nearest_float x <= x + 2 ^ quantum x / 2.
Proof.
  unfold nearest_float.
  pose proof (two_power_pos (quantum x)) as Hw.
  pose proof (round_half_even_near (x / 2 ^ quantum x)) as Hr.
  set (w := 2 ^ quantum x) in *.
  set (r := inject_Z (round_half_even (x / w))) in *.
  assert (Hs : x / w * w == x) by (field; lra).
  set (s := x / w) in *. clearbody r s w.
  assert (H1 : (s - (1 # 2)) * w <= r * w).
  { apply Qmult_le_compat_r; lra. }
  assert (H2 : r * w <= (s + (1 # 2)) * w).
  { apply Qmult_le_compat_r; lra. }
  unfold Qdiv. cbn [Qinv Qnum Qden]. split; lra.
Qed.

(** ** The rounding *)

Lemma binary64_positive (x : Q) : 0 < x -> binary64 x == nearest_float x.
Proof.
  intros Hx. unfold binary64.
  destruct x as [[| n | n] d]; cbn [Qnum].
  - exfalso. unfold Qlt in Hx. cbn in Hx. lia.
  - apply Qred_correct.
  - exfalso. unfold Qlt in Hx. cbn in Hx. lia.
Qed.

Lemma binary64_zero (x : Q) : x == 0 -> binary64 x == 0.
Proof.
  intros Hx. unfold binary64.
  destruct x as [[| n | n] d]; try reflexivity;
    exfalso; unfold Qeq in Hx; cbn in Hx; lia.
Qed.

Lemma binary64_negative (x : Q) :
  x < 0 -> binary64 x == - nearest_float (- x).
Proof.
  intros Hx. unfold binary64.
  destruct x as [[| n | n] d]; cbn [Qnum].
  - exfalso. unfold Qlt in Hx. cbn in Hx. lia.
  - exfalso. unfold Qlt in Hx. cbn in Hx. lia.
  - apply Qred_correct.
Qed.

Lemma binary64_monotone (x y : Q) : x <= y -> binary64 x <= binary64 y.
Proof.
  intros Hxy.
  destruct (Q_dec x 0) as [[Hx | Hx] | Hx];
    destruct (Q_dec y 0) as [[Hy | Hy] | Hy]; try (exfalso; lra).
  - rewrite (binary64_negative x Hx), (binary64_negative y Hy).
    assert (H : nearest_float (- y) <= nearest_float (- x)).
    { apply nearest_float_monotone; lra. }
    lra.
  - rewrite (binary64_negative x Hx), (binary64_positive y Hy).
    pose proof (nearest_float_nonneg (- x)).
    pose proof (nearest_float_nonneg y). lra.
  - rewrite (binary64_negative x Hx), (binary64_zero y Hy).
    pose proof (nearest_float_nonneg (- x)). lra.
  - rewrite (binary64_positive x Hx), (binary64_positive y Hy).
    apply nearest_float_monotone; assumption.
  - rewrite (binary64_zero x Hx), (binary64_positive y Hy).
    apply nearest_float_nonneg. lra.
  - rewrite (binary64_zero x Hx), (binary64_zero y Hy). apply Qle_refl.
Qed.

Lemma binary64_proper (x y : Q) : x == y -> binary64 x == binary64 y.
Proof.
  intros Hxy. apply Qle_antisym; apply binary64_monotone; lra.
Qed.

Lemma binary64_exact (m j : Z) :
  (Z.abs m <= 2 ^ 53)%Z -> (-1074 <= j)%Z ->
  binary64 (inject_Z m * 2 ^ j) == inject_Z m * 2 ^ j.
Proof.
  intros Hm Hj.
  pose proof (two_power_pos j) as Hw.
  destruct (Z.lt_trichotomy m 0) as [Hneg | [-> | Hpos]].
  - assert (Hz : inject_Z m < 0).
    { change 0 with (inject_Z 0). rewrite <- Zlt_Qlt. exact Hneg. }
    assert (Hx : inject_Z m * 2 ^ j < 0).
    { set (w := 2 ^ j) in *. clearbody w. nra. }
    rewrite (binary64_negative _ Hx).
    assert (Heq : - (inject_Z m * 2 ^ j) == inject_Z (- m) * 2 ^ j).
    { rewrite inject_Z_opp. ring. }
    assert (Hx' : 0 < - (inject_Z m * 2 ^ j)) by lra.
    rewrite (nearest_float_proper _ _ Hx' Heq).
    rewrite nearest_float_exact by lia.
    rewrite inject_Z_opp. ring.
  - assert (Hx : inject_Z 0 * 2 ^ j == 0).
    { change (inject_Z 0) with 0. ring. }
    rewrite (binary64_zero _ Hx), Hx. reflexivity.
  - assert (Hz : 0 < inject_Z m).
    { change 0 with (inject_Z 0). rewrite <- Zlt_Qlt. exact Hpos. }
    assert (Hx : 0 < inject_Z m * 2 ^ j).
    { apply Qmult_lt_0_compat; assumption. }
    rewrite (binary64_positive _ Hx).
    apply nearest_float_exact; lia.
Qed.

Lemma binary64_integer (z : Z) :
  (Z.abs z <= 2 ^ 53)%Z -> binary64 (inject_Z z) == inject_Z z.
Proof.
  intros Hz.
  rewrite (binary64_proper _ (inject_Z z * 2 ^ 0)) by (cbn; ring).
  rewrite binary64_exact by lia. cbn. ring.
Qed.

Lemma binary64_quarter (m : Z) :
  (Z.abs m <= 2 ^ 53)%Z -> binary64 (inject_Z m / 4) == inject_Z m / 4.
Proof.
  intros Hm.
  assert (Heq : inject_Z m / 4 == inject_Z m * 2 ^ (-2)).
  { change (2 ^ (-2)) with (/ (2 * 2)). field. }
  rewrite (binary64_proper _ _ Heq), Heq.
  apply binary64_exact; lia.
Qed.

Lemma binary64_idempotent (x : Q) : binary64 (binary64 x) == binary64 x.
Proof.
  assert (Hpos : forall y, 0 < y ->
            binary64 (nearest_float y) == nearest_float y).
  { intros y Hy. unfold nearest_float.
    apply binary64_exact.
    - pose proof (nearest_float_significand y Hy). lia.
    - unfold quantum. lia. }
  destruct (Q_dec x 0) as [[Hx | Hx] | Hx].
  - rewrite (binary64_proper _ _ (binary64_negative x Hx)).
    rewrite (binary64_negative x Hx).
    unfold nearest_float.
    assert (Heq : - (inject_Z (round_half_even (- x / 2 ^ quantum (- x)))
                     * 2 ^ quantum (- x))
                  == inject_Z (- round_half_even (- x / 2 ^ quantum (- x)))
                     * 2 ^ quantum (- x)).
    { rewrite inject_Z_opp. ring. }
    rewrite (binary64_proper _ _ Heq), Heq.
    apply binary64_exact.
    + pose proof (nearest_float_significand (- x) ltac:(lra)). lia.
    + unfold quantum. lia.
  - rewrite (binary64_proper _ _ (binary64_positive x Hx)).
    rewrite (binary64_positive x Hx). apply Hpos, Hx.
  - rewrite (binary64_proper _ _ (binary64_zero x Hx)).
    rewrite (binary64_zero x Hx). reflexivity.
Qed.

Lemma quantum_small (x : Q) :
  0 < x -> x <= 2048 -> 2 ^ quantum x / 2 <= 1 # 4398046511104.
Proof.
  intros Hx Hmax.
  assert (He : (exponent x < 12)%Z).
  { apply exponent_lt; [exact Hx |].
    change (2 ^ 12) with 4096. lra. }
  pose proof (two_power_le (quantum x) (-41)) as Hw.
  change (2 ^ (-41)) with (1 # 2199023255552) in Hw.
  assert (H : 2 ^ quantum x <= 1 # 2199023255552).
  { apply Hw. unfold quantum. lia. }
  set (w := 2 ^ quantum x) in *. clearbody w.
  unfold Qdiv. cbn [Qinv Qnum Qden]. lra.
Qed.

Lemma binary64_accurate (x : Q) :
  -2048 <= x <= 2048 ->
  x - (1 # 4398046511104) <= binary64 x <= x + (1 # 4398046511104).
Proof.
  intros Hrange.
  destruct (Q_dec x 0) as [[Hx | Hx] | Hx].
  - rewrite (binary64_negative x Hx).
    pose proof (nearest_float_near (- x)) as Hnear.
    pose proof (quantum_small (- x)) as Hsmall.
    assert (Hs : 2 ^ quantum (- x) / 2 <= 1 # 4398046511104).
    { apply Hsmall; lra. }
    set (w := 2 ^ quantum (- x) / 2) in *.
    set (r := nearest_float (- x)) in *. clearbody w r. lra.
  - rewrite (binary64_positive x Hx).
    pose proof (nearest_float_near x) as Hnear.
    pose proof (quantum_small x) as Hsmall.
    assert (Hs : 2 ^ quantum x / 2 <= 1 # 4398046511104).
    { apply Hsmall; lra. }
    set (w := 2 ^ quantum x / 2) in *.
    set (r := nearest_float x) in *. clearbody w r. lra.
  - rewrite (binary64_zero x Hx). lra.
Qed.

(** ** Roundings that behave as binary64 does on the numbers of the program *)

Lemma ideal_float_rounding : float_rounding ideal.
Proof.
  split.
  - exact ideal_monotone.
  - exact ideal_fixes_integers.
  - intros m _. reflexivity.
  - intros x. reflexivity.
  - intros x _. unfold ideal, accuracy. lra.
Qed.


(** ** The battery and the temperature that one iteration leaves *)

Lemma tick_running (rnd : Q -> Q) (i : tick_input) (sys : System) (p : Q) :
  is_charging (vehicle_state sys) = false ->
  (motor_speed_setting (vehicle_state sys) > 0)%Z ->
  calculate_power_consumption rnd (motor_speed_setting (vehicle_state sys))
    (battery_percentage (vehicle_state sys)) = Some p ->
  battery_percentage (vehicle_state (tick rnd i sys))
  = Qmax 0 (fsub rnd (battery_percentage (vehicle_state sys))
              (fmul rnd (fmul rnd p (float_literal rnd 0.001)) 1)) /\
  battery_temperature (vehicle_state (tick rnd i sys))
  = (let target :=
       fadd rnd (inject_Z MIN_TEMPERATURE)
         (fdiv rnd
            (inject_Z ((MAX_TEMPERATURE - MIN_TEMPERATURE)
                       * motor_speed_setting (vehicle_state sys))) 4) in
     if Qlt_bool (battery_temperature (vehicle_state sys)) target
     then Qmin target
            (fadd rnd (battery_temperature (vehicle_state sys))
               (float_literal rnd 0.1))
     else battery_temperature (vehicle_state sys)).
Proof.
  destruct sys as [st doc], i as [now r1 r2 ok]. simpl_state.
  intros Hch Hk Hp.
  assert (Hgt : (motor_speed_setting st >? 0)%Z = true) by lia.
  unfold_monad. simpl_state. rewrite Hch, Hgt. cbn [negb andb].
  cbv zeta. crunch; simpl_state; split; reflexivity.
Qed.

Lemma tick_charging (rnd : Q -> Q) (i : tick_input) (sys : System) :
  is_charging (vehicle_state sys) = true ->
  battery_percentage (vehicle_state (tick rnd i sys))
  = Qmin 100
      (fadd rnd (battery_percentage (vehicle_state sys))
         (if Qlt_bool (battery_percentage (vehicle_state sys)) 20
          then float_literal rnd 0.4 else float_literal rnd 0.2)) /\
  battery_temperature (vehicle_state (tick rnd i sys))
  = Qmax (inject_Z MIN_TEMPERATURE)
      (fsub rnd (battery_temperature (vehicle_state sys))
         (float_literal rnd 0.05)).
Proof.
  destruct sys as [st doc], i as [now r1 r2 ok]. simpl_state.
  intros Hch.
  unfold_monad. simpl_state. rewrite Hch. cbn [negb andb].
  crunch; simpl_state; try discriminate; split; reflexivity.
Qed.

Lemma tick_idle (rnd : Q -> Q) (i : tick_input) (sys : System) :
  is_charging (vehicle_state sys) = false ->
  (motor_speed_setting (vehicle_state sys) <= 0)%Z ->
  battery_percentage (vehicle_state (tick rnd i sys))
  = battery_percentage (vehicle_state sys) /\
  battery_temperature (vehicle_state (tick rnd i sys))
  = battery_temperature (vehicle_state sys).
Proof.
  destruct sys as [st doc], i as [now r1 r2 ok]. simpl_state.
  intros Hch Hk.
  assert (Hgt : (motor_speed_setting st >? 0)%Z = false) by lia.
  unfold_monad. simpl_state. rewrite Hch, Hgt. cbn [negb andb].
  crunch; simpl_state; try discriminate; split; reflexivity.
Qed.

Section Rounded.

Variable rnd : Q -> Q.
Hypothesis rounding : float_rounding rnd.

Let Hm := rounding_monotone rnd rounding.
Let Hi := rounding_integers rnd rounding.

Lemma rounded_proper (x y : Q) : x == y -> rnd x == rnd y.
Proof. apply (rnd_proper rnd Hm). Qed.

Lemma rounded_half : float_literal rnd 0.5 == 0.5.
Proof.
  unfold float_literal.
  rewrite (rounded_proper 0.5 (inject_Z 2 / 4)) by reflexivity.
  rewrite (rounding_quarters rnd rounding 2) by lia. reflexivity.
Qed.

Lemma rounded_target (k : Z) :
  (0 <= k <= 4)%Z ->
  fadd rnd (inject_Z MIN_TEMPERATURE)
    (fdiv rnd (inject_Z ((MAX_TEMPERATURE - MIN_TEMPERATURE) * k)) 4)
  == target_temp k.
Proof.
  intros Hk. unfold fadd, fdiv, target_temp.
  change (inject_Z MIN_TEMPERATURE) with 25.
  change (MAX_TEMPERATURE - MIN_TEMPERATURE)%Z with 55%Z.
  pose proof (rounding_quarters rnd rounding (55 * k)) as Hinner.
  pose proof (rounding_quarters rnd rounding (100 + 55 * k)) as Houter.
  rewrite (rounded_proper _ (inject_Z (100 + 55 * k) / 4)).
  - rewrite Houter by lia. rewrite inject_Z_plus, inject_Z_mult. field.
  - rewrite Hinner by lia. rewrite inject_Z_plus, inject_Z_mult. field.
Qed.


Lemma rounded_nonneg (x : Q) : 0 <= x -> 0 <= rnd x.
Proof. apply (rnd_nonneg rnd Hm Hi). Qed.

(** The battery factor [max(0.5, battery / 100)]. *)
Lemma factor_near (b : Q) :
  0 <= b <= 100 ->
  Qmax 0.5 (b / 100) - accuracy
  <= Qmax (float_literal rnd 0.5) (fdiv rnd b 100)
  <= Qmax 0.5 (b / 100) + accuracy /\
  0.5 <= Qmax (float_literal rnd 0.5) (fdiv rnd b 100) <= 1.
Proof.
  intros Hb. pose proof rounded_half as Hhalf. unfold fdiv.
  assert (Hq : 0 <= b / 100 <= 1).
  { unfold Qdiv. cbn [Qinv Qnum Qden]. lra. }
  assert (Hr : b / 100 - accuracy <= rnd (b / 100) <= b / 100 + accuracy).
  { apply (rounding_accurate rnd rounding). lra. }
  assert (Hr1 : rnd (b / 100) <= 1).
  { apply (rnd_le_integer rnd Hm Hi _ 1); [lia | apply Hq]. }
  set (r := rnd (b / 100)) in *. set (q := b / 100) in *.
  set (h := float_literal rnd 0.5) in *.
  unfold accuracy in *.
  destruct (Q.max_spec h r) as [[? ->] | [? ->]];
    destruct (Q.max_spec 0.5 q) as [[? ->] | [? ->]];
    repeat split; lra.
Qed.

Lemma power_near (k : Z) (b p px : Q) :
  (0 <= k <= 4)%Z -> 0 <= b <= 100 ->
  calculate_power_consumption rnd k b = Some p ->
  calculate_power_consumption ideal k b = Some px ->
  px - 1001 * accuracy <= p <= px + 1001 * accuracy /\
  0 <= px <= 1000 /\ 0 <= p <= 1000.
Proof.
  intros Hk Hb Hp Hpx.
  destruct (tables_defined k Hk) as (base & _ & _ & Hbase & Hrange & _).
  unfold calculate_power_consumption in Hp, Hpx.
  destruct (Qle_bool b 0).
  - injection Hp as <-. injection Hpx as <-. unfold accuracy.
    repeat split; lra.
  - rewrite Hbase in Hp, Hpx. injection Hp as <-. injection Hpx as <-.
    destruct (factor_near b Hb) as [Hf Hf1].
    assert (Hz : 0 <= inject_Z base <= 1000).
    { split; [change 0 with (inject_Z 0) | change 1000 with (inject_Z 1000)];
        rewrite <- Zle_Qle; lia. }
    ideal_arithmetic.
    set (f := Qmax (rnd 0.5) (rnd (b / 100))) in *.
    set (fx := Qmax 0.5 (b / 100)) in *.
    assert (Hfx : 0.5 <= fx <= 1).
    { unfold fx. split; [apply Q.le_max_l |].
      apply Q.max_lub; [lra |]. unfold Qdiv. cbn [Qinv Qnum Qden]. lra. }
    set (bz := inject_Z base) in *.
    clearbody f fx bz.
    assert (Hprod : 0 <= bz * f <= 1000) by (split; nra).
    assert (Hr : bz * f - accuracy <= rnd (bz * f) <= bz * f + accuracy).
    { apply (rounding_accurate rnd rounding). lra. }
    assert (Hr0 : 0 <= rnd (bz * f) <= 1000).
    { split; [apply rounded_nonneg; lra |].
      apply (rnd_le_integer rnd Hm Hi _ 1000); [lia | apply Hprod]. }
    unfold accuracy in *.
    repeat split; try lra; nra.
Qed.


(** The drain [power * 0.001 * 1] of one iteration. *)
Lemma consumption_near (p px : Q) :
  0 <= p <= 1000 -> 0 <= px <= 1000 ->
  px - 1001 * accuracy <= p <= px + 1001 * accuracy ->
  px * 0.001 - 1004 * accuracy
  <= fmul rnd (fmul rnd p (float_literal rnd 0.001)) 1
  <= px * 0.001 + 1004 * accuracy /\
  p * 0.001 - 1002 * accuracy
  <= fmul rnd (fmul rnd p (float_literal rnd 0.001)) 1 <= 2 /\
  0 <= fmul rnd (fmul rnd p (float_literal rnd 0.001)) 1.
Proof.
  intros Hp Hpx Hnear. unfold fmul, float_literal.
  assert (Hl : 0.001 - accuracy <= rnd 0.001 <= 0.001 + accuracy).
  { apply (rounding_accurate rnd rounding). lra. }
  set (l := rnd 0.001) in *. clearbody l.
  unfold accuracy in *.
  assert (Hpl : 0 <= p * l <= 1.1) by (split; nra).
  assert (Hy : p * l - accuracy <= rnd (p * l) <= p * l + accuracy).
  { apply (rounding_accurate rnd rounding). lra. }
  assert (Hy0 : 0 <= rnd (p * l)) by (apply rounded_nonneg; lra).
  set (y := rnd (p * l)) in *. clearbody y.
  unfold accuracy in *.
  assert (Hc : y * 1 - accuracy <= rnd (y * 1) <= y * 1 + accuracy).
  { apply (rounding_accurate rnd rounding). lra. }
  assert (Hc0 : 0 <= rnd (y * 1)).
  { apply rounded_nonneg.
    lra. }
  set (c := rnd (y * 1)) in *. clearbody c.
  unfold accuracy in *.
  repeat split; nra.
Qed.

(** The battery after an iteration with the motor running. *)
Lemma drain_near (b c cx : Q) (slack : Q) :
  0 <= b <= 100 -> 0 <= slack ->
  cx - slack <= c <= cx + slack -> 0 <= c <= 2 ->
  Qmax 0 (b - cx) - (slack + accuracy) <= Qmax 0 (fsub rnd b c)
  <= Qmax 0 (b - cx) + (slack + accuracy).
Proof.
  intros Hb Hslack Hc Hc2. unfold fsub.
  assert (Hr : b - c - accuracy <= rnd (b - c) <= b - c + accuracy).
  { apply (rounding_accurate rnd rounding). lra. }
  set (r := rnd (b - c)) in *. clearbody r.
  unfold accuracy in *.
  destruct (Q.max_spec 0 r) as [[? ->] | [? ->]];
    destruct (Q.max_spec 0 (b - cx)) as [[? ->] | [? ->]];
    split; lra.
Qed.

(** A sum or a difference with a literal between 0 and 1. *)
Lemma add_literal_near (x lit : Q) :
  -1000 <= x <= 1000 -> 0 <= lit <= 1 ->
  x + lit - 2 * accuracy <= fadd rnd x (float_literal rnd lit)
  <= x + lit + 2 * accuracy.
Proof.
  intros Hx Hlit. unfold fadd, float_literal.
  assert (Hl : lit - accuracy <= rnd lit <= lit + accuracy).
  { apply (rounding_accurate rnd rounding). lra. }
  set (l := rnd lit) in *. clearbody l. unfold accuracy in *.
  assert (Hr : x + l - accuracy <= rnd (x + l) <= x + l + accuracy).
  { apply (rounding_accurate rnd rounding). lra. }
  unfold accuracy in *. lra.
Qed.

Lemma sub_literal_near (x lit : Q) :
  -1000 <= x <= 1000 -> 0 <= lit <= 1 ->
  x - lit - 2 * accuracy <= fsub rnd x (float_literal rnd lit)
  <= x - lit + 2 * accuracy.
Proof.
  intros Hx Hlit. unfold fsub, float_literal.
  assert (Hl : lit - accuracy <= rnd lit <= lit + accuracy).
  { apply (rounding_accurate rnd rounding). lra. }
  set (l := rnd lit) in *. clearbody l. unfold accuracy in *.
  assert (Hr : x - l - accuracy <= rnd (x - l) <= x - l + accuracy).
  { apply (rounding_accurate rnd rounding). lra. }
  unfold accuracy in *. lra.
Qed.

End Rounded.

(** Rounding to the nearest binary64 float has the five properties. *)
Lemma binary64_float_rounding : float_rounding binary64.
Proof.
  split.
  - exact binary64_monotone.
  - exact binary64_integer.
  - exact binary64_quarter.
  - exact binary64_idempotent.
  - exact binary64_accurate.
Qed.

(** The floats of the examples: 0.1 is not a float, and neither is the
    sum of 99 and the float of 0.2, nor the sum of 25 and the float of
    0.1. *)
Example binary64_values :
  binary64 0.1 = 3602879701896397 # 36028797018963968 /\
  binary64 (99 + binary64 0.2) = 6980579422424269 # 70368744177664 /\
  binary64 (25 + binary64 0.1) = 3532510957718733 # 140737488355328 /\
  99.2 < binary64 (99 + binary64 0.2) /\
  25.1 < binary64 (25 + binary64 0.1).
Proof. vm_compute. repeat split. Qed.

(** ** One iteration of the loop, rounded *)

Lemma Qmin_near (a a' x y s : Q) :
  a == a' -> y - s <= x <= y + s ->
  Qmin a' y - s <= Qmin a x <= Qmin a' y + s.
Proof.
  intros Ha Hxy.
  destruct (Q.min_spec a x) as [[? ->] | [? ->]];
    destruct (Q.min_spec a' y) as [[? ->] | [? ->]]; split; lra.
Qed.

Lemma Qmax_near (a a' x y s : Q) :
  a == a' -> y - s <= x <= y + s ->
  Qmax a' y - s <= Qmax a x <= Qmax a' y + s.
Proof.
  intros Ha Hxy.
  destruct (Q.max_spec a x) as [[? ->] | [? ->]];
    destruct (Q.max_spec a' y) as [[? ->] | [? ->]]; split; lra.
Qed.

Lemma Qlt_bool_proper (x y y' : Q) : y == y' -> Qlt_bool x y = Qlt_bool x y'.
Proof.
  intros Hy. destruct (Qlt_bool x y') eqn:H.
  - apply Qlt_bool_iff in H. apply Qlt_bool_iff. lra.
  - apply Qlt_bool_false in H. apply Qlt_bool_false. lra.
Qed.

Section RoundedTick.

Variable rnd : Q -> Q.
Hypothesis rounding : float_rounding rnd.

Lemma tick_near (i : tick_input) (sys : System) :
  (0 <= motor_speed_setting (vehicle_state sys) <= 4)%Z ->
  bounded (vehicle_state sys) ->
  near (battery_percentage (vehicle_state (tick rnd i sys)))
    (battery_percentage (vehicle_state (tick ideal i sys))) /\
  near (battery_temperature (vehicle_state (tick rnd i sys)))
    (battery_temperature (vehicle_state (tick ideal i sys))).
Proof.
  intros Hk [Hb Ht].
  change (inject_Z MIN_TEMPERATURE) with 25 in Ht.
  change (inject_Z MAX_TEMPERATURE) with 80 in Ht.
  set (st := vehicle_state sys) in *.
  destruct (is_charging st) eqn:Hch.
  - (* charging *)
    destruct (tick_charging rnd i sys Hch) as [-> ->].
    destruct (tick_charging ideal i sys Hch) as [-> ->].
    fold st. unfold near, tolerance. split.
    + apply Qmin_near; [reflexivity |].
      destruct (Qlt_bool (battery_percentage st) 20).
      * pose proof (add_literal_near rnd rounding (battery_percentage st) 0.4)
          as H.
        ideal_arithmetic. unfold accuracy in H. lra.
      * pose proof (add_literal_near rnd rounding (battery_percentage st) 0.2)
          as H.
        ideal_arithmetic. unfold accuracy in H. lra.
    + apply Qmax_near; [reflexivity |].
      pose proof (sub_literal_near rnd rounding (battery_temperature st) 0.05)
        as H.
      ideal_arithmetic. unfold accuracy in H. lra.
  - destruct (Z_gt_le_dec (motor_speed_setting st) 0) as [Hpos | Hzero].
    + (* the motor runs *)
      destruct (calculate_power_consumption_defined rnd
                  (motor_speed_setting st) (battery_percentage st) Hk)
        as (p & Hp).
      destruct (calculate_power_consumption_defined ideal
                  (motor_speed_setting st) (battery_percentage st) Hk)
        as (px & Hpx).
      destruct (tick_running rnd i sys p Hch Hpos Hp) as [-> ->].
      destruct (tick_running ideal i sys px Hch Hpos Hpx) as [-> ->].
      fold st. cbv zeta.
      destruct (power_near rnd rounding _ _ p px Hk Hb Hp Hpx)
        as (Hnear & Hpx0 & Hp0).
      destruct (consumption_near rnd rounding p px Hp0 Hpx0 Hnear)
        as (Hc & [_ Hc2] & Hc0).
      unfold near, tolerance. split.
      * set (c := fmul rnd (fmul rnd p (float_literal rnd 0.001)) 1) in *.
        destruct (drain_near rnd rounding (battery_percentage st) c
                    (px * 0.001 * 1) (1004 * accuracy) Hb) as [Hd1 Hd2];
          [unfold accuracy; lra | unfold accuracy in *; lra
          | split; assumption |].
        clearbody c. ideal_arithmetic. unfold accuracy in *. lra.
      * pose proof (rounded_target rnd rounding _ Hk) as Htg.
        pose proof (target_temp_ideal (motor_speed_setting st)) as Htgx.
        pose proof (target_temp_bounded rnd (rounding_monotone rnd rounding)
                      (rounding_integers rnd rounding) _ Hk) as Hrange.
        set (tg := fadd rnd _ (fdiv rnd _ 4)) in *.
        set (tgx := fadd ideal _ (fdiv ideal _ 4)) in *.
        rewrite (Qlt_bool_proper _ tg tgx) by lra.
        destruct (Qlt_bool (battery_temperature st) tgx); [| lra].
        apply Qmin_near; [lra |].
        pose proof (add_literal_near rnd rounding (battery_temperature st) 0.1)
          as H.
        ideal_arithmetic. unfold accuracy in H. lra.
    + (* idle *)
      destruct (tick_idle rnd i sys Hch Hzero) as [-> ->].
      destruct (tick_idle ideal i sys Hch Hzero) as [-> ->].
      unfold near, tolerance. split; lra.
Qed.

End RoundedTick.

(** C3, as stated, fails in the arithmetic that the program runs: after a
    request for level 3 on the default state, one iteration of the loop
    takes the temperature from 25 to the float of [25 + 0.1], which is
    above 25.1: the rise is not by exactly, nor by at most, 0.1. *)
Lemma tick_amounts_not_exact : ~ tick_amounts_exact.
Proof.
  intros Hall.
  assert (Hr : reachable binary64 (parked_system binary64)).
  { apply reachable_step, reachable_boot. }
  destruct (Hall (quiet_tick 2) (parked_system binary64) Hr) as [Hrun _].
  destruct Hrun as (base & pw & _ & _ & _ & _ & _ & _ & _ & _ & Hrise).
  - vm_compute. reflexivity.
  - vm_compute. reflexivity.
  - revert Hrise. vm_compute. intros H. apply H. reflexivity.
Qed.

(** C3, amended. One iteration of the loop, in binary64 arithmetic or in
    any other with the properties of [float_rounding], on a state whose
    setting is one of 0..4 and whose battery and temperature are within
    their bounds: the battery and the temperature it leaves are within
    [10 ^ -9] of those of a record [exact] that [tick_spec] relates to the
    state before, that is, of the amounts of the claim (drain by
    [power * 0.001] clamped at 0 and a rise of 0.1 towards [target_temp]
    while the motor runs, a gain of 0.4 or 0.2 clamped at 100 and a loss of
    0.05 floored at 25 while charging); the power that
    [calculate_power_consumption] returns is within [10 ^ -9] of the table
    value times [max(0.5, battery / 100)].  Exactly, and not only up to
    rounding: the temperature does not pass [target_temp], a temperature
    at or above it is left as it is, and an idle state that is not
    charging keeps its battery and temperature. *)
Theorem tick_battery_and_temperature_up_to_rounding (rnd : Q -> Q)
  (i : tick_input) (sys : System) :
  float_rounding rnd ->
  (0 <= motor_speed_setting (vehicle_state sys) <= 4)%Z ->
  bounded (vehicle_state sys) ->
  exists exact : VehicleState,
    tick_spec (vehicle_state sys) exact /\
    near (battery_percentage (vehicle_state (tick rnd i sys)))
      (battery_percentage exact) /\
    near (battery_temperature (vehicle_state (tick rnd i sys)))
      (battery_temperature exact) /\
    (forall p px,
       calculate_power_consumption rnd
         (motor_speed_setting (vehicle_state sys))
         (battery_percentage (vehicle_state sys)) = Some p ->
       calculate_power_consumption ideal
         (motor_speed_setting (vehicle_state sys))
         (battery_percentage (vehicle_state sys)) = Some px ->
       near p px) /\
    (is_charging (vehicle_state sys) = false ->
     (motor_speed_setting (vehicle_state sys) > 0)%Z ->
     (battery_temperature (vehicle_state sys)
      < target_temp (motor_speed_setting (vehicle_state sys)) ->
      battery_temperature (vehicle_state (tick rnd i sys))
      <= target_temp (motor_speed_setting (vehicle_state sys))) /\
     (target_temp (motor_speed_setting (vehicle_state sys))
      <= battery_temperature (vehicle_state sys) ->
      battery_temperature (vehicle_state (tick rnd i sys))
      = battery_temperature (vehicle_state sys))) /\
    (is_charging (vehicle_state sys) = false ->
     (motor_speed_setting (vehicle_state sys) <= 0)%Z ->
     battery_percentage (vehicle_state (tick rnd i sys))
     = battery_percentage (vehicle_state sys) /\
     battery_temperature (vehicle_state (tick rnd i sys))
     = battery_temperature (vehicle_state sys)).
Proof.
  intros Hrnd Hk Hbound.
  exists (vehicle_state (tick ideal i sys)).
  destruct (tick_near rnd Hrnd i sys Hk Hbound) as [Hb Ht].
  split; [apply tick_without_rounding, Hk |].
  split; [exact Hb |]. split; [exact Ht |].
  split; [| split].
  - intros p px Hp Hpx.
    destruct (power_near rnd Hrnd _ _ p px Hk (bnd_battery _ Hbound) Hp Hpx)
      as (Hnear & _ & _).
    unfold near, tolerance. unfold accuracy in Hnear. lra.
  - intros Hch Hpos.
    destruct (calculate_power_consumption_defined rnd _
                (battery_percentage (vehicle_state sys)) Hk) as (p & Hp).
    destruct (tick_running rnd i sys p Hch Hpos Hp) as [_ ->]. cbv zeta.
    pose proof (rounded_target rnd Hrnd _ Hk) as Htg.
    set (tg := fadd rnd _ (fdiv rnd _ 4)) in *.
    set (tgx := target_temp _) in *.
    set (t := battery_temperature (vehicle_state sys)) in *.
    rewrite (Qlt_bool_proper t tg tgx Htg).
    split.
    + intros Hlt. apply Qlt_bool_iff in Hlt. rewrite Hlt.
      rewrite <- Htg. apply Q.le_min_l.
    + intros Hge.
      assert (Hlt : Qlt_bool t tgx = false).
      { apply Qlt_bool_false. exact Hge. }
      rewrite Hlt. reflexivity.
  - intros Hch Hzero. apply tick_idle; assumption.
Qed.

Lemma tick_battery_and_temperature_up_to_rounding_witness :
  float_rounding binary64 /\
  (0 <= motor_speed_setting (vehicle_state (parked_system binary64)) <= 4)%Z /\
  bounded (vehicle_state (parked_system binary64)) /\
  exists exact : VehicleState,
    tick_spec (vehicle_state (parked_system binary64)) exact /\
    near
      (battery_percentage
         (vehicle_state (tick binary64 (quiet_tick 2)
                           (parked_system binary64))))
      (battery_percentage exact) /\
    near
      (battery_temperature
         (vehicle_state (tick binary64 (quiet_tick 2)
                           (parked_system binary64))))
      (battery_temperature exact).
Proof.
  assert (Hk : (0 <= motor_speed_setting
                      (vehicle_state (parked_system binary64)) <= 4)%Z).
  { vm_compute. split; discriminate. }
  assert (Hb : bounded (vehicle_state (parked_system binary64))).
  { split; vm_compute; split; discriminate. }
  split; [exact binary64_float_rounding |].
  split; [exact Hk |]. split; [exact Hb |].
  destruct (tick_battery_and_temperature_up_to_rounding binary64
              (quiet_tick 2) (parked_system binary64)
              binary64_float_rounding Hk Hb)
    as (exact & Hspec & Hbattery & Htemperature & _).
  exists exact. split; [exact Hspec |]. split; assumption.
Defined.

(** * Further properties of the loop, the handlers and the store *)

(** ** [calculate_power_consumption] *)

Lemma power_rate_defined_iff (k : Z) :
  getitem POWER_CONSUMPTION_RATE k = None <-> ~ (0 <= k <= 4)%Z.
Proof.
  unfold getitem, POWER_CONSUMPTION_RATE. cbn [find fst].
  repeat match goal with
    | |- context [(?a =? k)%Z] => destruct (Z.eqb_spec a k)
    end; cbn; split; intros H; try discriminate; try lia; try reflexivity.
Qed.

(** X1. [calculate_power_consumption] tests the battery before it looks
    the setting up: with a battery at or below 0 it returns 0 for any
    setting, a key of the table or not; with a battery above 0 it raises
    [KeyError] exactly when the setting is not one of 0..4. *)
Theorem power_lookup_after_battery_test (rnd : Q -> Q) (k : Z) (b : Q) :
  (b <= 0 -> calculate_power_consumption rnd k b = Some 0) /\
  (0 < b ->
   (calculate_power_consumption rnd k b = None <-> ~ (0 <= k <= 4)%Z)).
Proof.
  unfold calculate_power_consumption. split.
  - intros Hb. apply Qle_bool_iff in Hb. rewrite Hb. reflexivity.
  - intros Hb. apply Qle_bool_false in Hb. rewrite Hb.
    rewrite <- power_rate_defined_iff.
    destruct (getitem POWER_CONSUMPTION_RATE k); split; intros H;
      first [discriminate | reflexivity].
Qed.

Lemma power_rate_monotone (k1 k2 base1 base2 : Z) :
  (k1 <= k2)%Z ->
  getitem POWER_CONSUMPTION_RATE k1 = Some base1 ->
  getitem POWER_CONSUMPTION_RATE k2 = Some base2 ->
  (0 <= base1 <= base2)%Z.
Proof.
  unfold getitem, POWER_CONSUMPTION_RATE. cbn [find fst].
  repeat match goal with
    | |- context [(?a =? ?k)%Z] => destruct (Z.eqb_spec a k)
    end; cbn; intros Hk H1 H2; try discriminate;
    inversion H1; inversion H2; lia.
Qed.

Lemma power_rate_even (k base : Z) :
  getitem POWER_CONSUMPTION_RATE k = Some base ->
  exists half : Z, (base = 2 * half)%Z /\ (0 <= half <= 500)%Z.
Proof.
  unfold getitem, POWER_CONSUMPTION_RATE. cbn [find fst].
  repeat match goal with
    | |- context [(?a =? k)%Z] => destruct (Z.eqb_spec a k)
    end; cbn; intros H; inversion H.
  - exists 0%Z. lia.
  - exists 50%Z. lia.
  - exists 150%Z. lia.
  - exists 300%Z. lia.
  - exists 500%Z. lia.
Qed.

Section Power.

Variable rnd : Q -> Q.
Hypothesis rnd_monotone : monotone rnd.
Hypothesis rnd_integers : fixes_integers rnd.

Lemma battery_factor_bounds (b : Q) :
  b <= 100 ->
  0 <= Qmax (float_literal rnd 0.5) (fdiv rnd b 100) <= 1.
Proof.
  intros Hb. unfold float_literal, fdiv. split.
  - apply Q.max_le_iff. left. apply (rnd_nonneg rnd rnd_monotone rnd_integers).
    lra.
  - apply Q.max_lub.
    + apply (rnd_le_integer rnd rnd_monotone rnd_integers _ 1); [lia |].
      vm_compute. discriminate.
    + apply (rnd_le_integer rnd rnd_monotone rnd_integers _ 1); [lia |].
      change (inject_Z 1) with 1.
      unfold Qdiv. cbn [Qinv Qnum Qden]. lra.
Qed.

(** X2. For a monotone rounding that fixes the integers and a battery of
    at most 100 percent, the power that [calculate_power_consumption]
    returns lies between 0 and the rate of the table; when the battery
    is above 0 and the literal 0.5 is a float (as it is in binary64), it
    is at least half that rate. *)
Theorem power_within_table_rate (k base : Z) (b p : Q) :
  getitem POWER_CONSUMPTION_RATE k = Some base ->
  b <= 100 ->
  calculate_power_consumption rnd k b = Some p ->
  0 <= p <= inject_Z base /\
  (0 < b -> float_literal rnd 0.5 == 0.5 -> inject_Z base / 2 <= p).
Proof.
  intros Hbase Hb Hp.
  pose proof (power_rate_monotone k k base base (Z.le_refl k) Hbase Hbase)
    as [Hb0 _].
  destruct (power_rate_even k base Hbase) as (half & Hhalf & Hrange).
  assert (Hb0q : 0 <= inject_Z base).
  { change 0 with (inject_Z 0). rewrite <- Zle_Qle. exact Hb0. }
  unfold calculate_power_consumption in Hp.
  destruct (Qle_bool b 0) eqn:Hle.
  - injection Hp as <-. split; [split; [apply Qle_refl | exact Hb0q] |].
    intros Hpos. apply Qle_bool_iff in Hle. exfalso. lra.
  - rewrite Hbase in Hp. injection Hp as <-.
    pose proof (battery_factor_bounds b Hb) as [Hf0 Hf1].
    set (f := Qmax (float_literal rnd 0.5) (fdiv rnd b 100)) in *.
    unfold fmul. split; [split |].
    + apply (rnd_nonneg rnd rnd_monotone rnd_integers).
      apply Qmult_le_0_compat; assumption.
    + apply (rnd_le_integer rnd rnd_monotone rnd_integers); [lia |].
      nra.
    + intros _ Hhalf_float.
      assert (Hge : 0.5 <= f).
      { rewrite <- Hhalf_float. apply Q.le_max_l. }
      assert (Heq : inject_Z base / 2 == inject_Z half).
      { rewrite Hhalf, inject_Z_mult. field. }
      rewrite Heq.
      apply (rnd_ge_integer rnd rnd_monotone rnd_integers); [lia |].
      rewrite <- Heq. unfold Qdiv. cbn [Qinv Qnum Qden]. nra.
Qed.

(** X3. For a monotone rounding that fixes the integers,
    [calculate_power_consumption] is monotone in both arguments: a higher
    setting or a fuller battery never gives less power. *)
Theorem power_monotone (k1 k2 : Z) (b1 b2 p1 p2 : Q) :
  (k1 <= k2)%Z -> b1 <= b2 ->
  calculate_power_consumption rnd k1 b1 = Some p1 ->
  calculate_power_consumption rnd k2 b2 = Some p2 ->
  p1 <= p2.
Proof.
  intros Hk Hb H1 H2.
  pose proof (calculate_power_consumption_nonneg rnd rnd_monotone rnd_integers
                _ _ _ H2) as Hp2.
  unfold calculate_power_consumption in H1, H2.
  destruct (Qle_bool b1 0) eqn:Hle1.
  - injection H1 as <-. exact Hp2.
  - apply Qle_bool_false in Hle1.
    destruct (Qle_bool b2 0) eqn:Hle2.
    + apply Qle_bool_iff in Hle2. exfalso. lra.
    + destruct (getitem POWER_CONSUMPTION_RATE k1) as [base1 |] eqn:Hb1;
        [| discriminate].
      destruct (getitem POWER_CONSUMPTION_RATE k2) as [base2 |] eqn:Hb2;
        [| discriminate].
      injection H1 as <-. injection H2 as <-.
      destruct (power_rate_monotone k1 k2 base1 base2 Hk Hb1 Hb2)
        as [Hz0 Hz12].
      rewrite Zle_Qle in Hz0, Hz12. change (inject_Z 0) with 0 in Hz0.
      unfold fmul. apply rnd_monotone.
      assert (Hf : Qmax (float_literal rnd 0.5) (fdiv rnd b1 100)
                   <= Qmax (float_literal rnd 0.5) (fdiv rnd b2 100)).
      { apply Q.max_le_compat_l. unfold fdiv. apply rnd_monotone.
        unfold Qdiv. cbn [Qinv Qnum Qden]. lra. }
      assert (Hf0 : 0 <= Qmax (float_literal rnd 0.5) (fdiv rnd b1 100)).
      { apply Q.max_le_iff. left. unfold float_literal.
        apply (rnd_nonneg rnd rnd_monotone rnd_integers). lra. }
      nra.
Qed.

End Power.

(** ** Which code writes which field *)

Lemma tick_command_fields (rnd : Q -> Q) (i : tick_input) (sys : System) :
  command_fields (vehicle_state (tick rnd i sys))
  = command_fields (vehicle_state sys).
Proof.
  destruct sys as [st doc], i as [now r1 r2 ok].
  unfold command_fields. crunch_all; congruence.
Qed.

(** The loop leaves the charging flag and the setting as they are. *)
Lemma loop_keeps_mode (rnd : Q -> Q) (inputs : list tick_input)
  (sys : System) :
  is_charging (vehicle_state (update_vehicle_state rnd inputs sys))
  = is_charging (vehicle_state sys) /\
  motor_speed_setting (vehicle_state (update_vehicle_state rnd inputs sys))
  = motor_speed_setting (vehicle_state sys).
Proof.
  revert sys. induction inputs as [| i inputs IH]; intros sys;
    cbn [update_vehicle_state].
  - split; reflexivity.
  - pose proof (tick_command_fields rnd i sys) as Hframe.
    unfold command_fields in Hframe. injection Hframe as Hc Hk _ _ _.
    destruct (IH (tick rnd i sys)) as [IHc IHk]. split; congruence.
Qed.

(** X4. However many iterations the loop of [update_vehicle_state] makes,
    whatever the clock, the draws and the answers of the store, it leaves
    [is_charging], [motor_speed_setting], [motor_rpm], [gear_ratio] and
    [power] as they were: the loop never stops the motor, never ends a
    charge, and never refreshes the power figure that [set_motor_speed]
    computed. *)
Theorem loop_leaves_command_fields (rnd : Q -> Q) (inputs : list tick_input)
  (sys : System) :
  command_fields (vehicle_state (update_vehicle_state rnd inputs sys))
  = command_fields (vehicle_state sys).
Proof.
  revert sys. induction inputs as [| i inputs IH]; intros sys; cbn.
  - reflexivity.
  - rewrite IH. apply tick_command_fields.
Qed.

(** X5. [set_motor_speed] and [toggle_charging], on any request and
    whether the store accepts the write or not, leave
    [battery_percentage], [battery_temperature], [parking_brake],
    [check_engine] and [battery_low] as they were. *)
Theorem commands_leave_simulation_fields (rnd : Q -> Q) (req : json_request)
  (write_ok : bool) (sys : System) :
  simulation_fields (vehicle_state (step rnd (SetMotorSpeed req write_ok) sys))
  = simulation_fields (vehicle_state sys) /\
  simulation_fields
    (vehicle_state (step rnd (ToggleCharging req write_ok) sys))
  = simulation_fields (vehicle_state sys).
Proof.
  destruct sys as [st doc]. unfold simulation_fields. split.
  - destruct req as [| data]; [reflexivity |].
    destruct data; crunch_all; congruence.
  - destruct req as [| data]; [reflexivity |].
    destruct data; crunch_all; congruence.
Qed.

(** ** Many iterations of the loop *)

(** An iteration that raises nothing leaves the two flags computed from
    the battery and the rpm it leaves. *)
Lemma tick_flags (rnd : Q -> Q) (i : tick_input) (sys : System) :
  (0 <= motor_speed_setting (vehicle_state sys) <= 4)%Z ->
  flags_consistent (vehicle_state (tick rnd i sys)).
Proof.
  destruct sys as [st doc], i as [now r1 r2 ok]. simpl_state. intros Hs.
  destruct (calculate_power_consumption_defined rnd
              (motor_speed_setting st) (battery_percentage st) Hs)
    as (p & Hp).
  unfold flags_consistent. crunch; split; reflexivity.
Qed.

Lemma ticks_succ (n : nat) : ticks (S n) == ticks n + 1.
Proof.
  unfold ticks. rewrite Nat2Z.inj_succ, <- Z.add_1_r, inject_Z_plus.
  reflexivity.
Qed.

Lemma ticks_le (n m : nat) : (n <= m)%nat -> ticks n <= ticks m.
Proof. intros H. unfold ticks. rewrite <- Zle_Qle. lia. Qed.

Lemma loop_flags (rnd : Q -> Q) (inputs : list tick_input) (sys : System) :
  (0 <= motor_speed_setting (vehicle_state sys) <= 4)%Z ->
  inputs <> [] ->
  flags_consistent (vehicle_state (update_vehicle_state rnd inputs sys)).
Proof.
  revert sys. induction inputs as [| i inputs IH]; intros sys Hk Hne.
  - contradiction.
  - cbn [update_vehicle_state].
    pose proof (tick_command_fields rnd i sys) as Hframe.
    unfold command_fields in Hframe. injection Hframe as _ Hk' _ _ _.
    destruct inputs as [| j inputs].
    + cbn [update_vehicle_state]. apply tick_flags, Hk.
    + apply IH; [lia | discriminate].
Qed.

Lemma target_temp_range (k : Z) :
  (1 <= k <= 4)%Z -> 25 <= target_temp k <= 80.
Proof.
  intros Hk. unfold target_temp.
  assert (Hq : 1 <= inject_Z k <= 4).
  { split; [change 1 with (inject_Z 1) | change 4 with (inject_Z 4)];
      rewrite <- Zle_Qle; lia. }
  unfold Qdiv. cbn [Qinv Qnum Qden]. lra.
Qed.

Section RoundedLoop.

Variable rnd : Q -> Q.
Hypothesis rounding : float_rounding rnd.

Let Hm := rounding_monotone rnd rounding.
Let Hi := rounding_integers rnd rounding.

(** With the motor running and the battery above 0 the power is at least
    50, the lowest rate of the table at the factor 0.5. *)
Lemma running_power (k : Z) (b : Q) :
  (1 <= k <= 4)%Z -> 0 <= b <= 100 ->
  exists p,
    calculate_power_consumption rnd k b = Some p /\
    0 <= p <= 1000 /\ (0 < b -> 50 <= p).
Proof.
  intros Hk Hb.
  assert (Hk0 : (0 <= k <= 4)%Z) by lia.
  destruct (calculate_power_consumption_defined rnd k b Hk0) as (p & Hp).
  destruct (calculate_power_consumption_defined ideal k b Hk0) as (px & Hpx).
  destruct (power_near rnd rounding k b p px Hk0 Hb Hp Hpx) as (_ & _ & Hp0).
  exists p. split; [exact Hp |]. split; [exact Hp0 |].
  intros Hpos. unfold calculate_power_consumption in Hp.
  apply Qle_bool_false in Hpos. rewrite Hpos in Hp.
  assert (Hbase : exists base,
             getitem POWER_CONSUMPTION_RATE k = Some base /\
             (100 <= base)%Z).
  { assert (Hc : k = 1%Z \/ k = 2%Z \/ k = 3%Z \/ k = 4%Z) by lia.
    destruct Hc as [-> | [-> | [-> | ->]]];
      [exists 100%Z | exists 300%Z | exists 600%Z | exists 1000%Z];
      (split; [reflexivity | lia]). }
  destruct Hbase as (base & Hbase & Hbase100).
  rewrite Hbase in Hp. injection Hp as <-.
  unfold fmul.
  apply (rnd_ge_integer rnd Hm Hi _ 50); [lia |].
  assert (H100 : 100 <= inject_Z base).
  { change 100 with (inject_Z 100). rewrite <- Zle_Qle. exact Hbase100. }
  assert (Hf : 0.5 <= Qmax (float_literal rnd 0.5) (fdiv rnd b 100)).
  { rewrite <- (rounded_half rnd rounding) at 1. apply Q.le_max_l. }
  change (inject_Z 50) with 50.
  set (f := Qmax _ _) in *. clearbody f. nra.
Qed.

(** With the motor running, an iteration takes at least 0.04999 points
    off the battery, down to 0. *)
Lemma tick_drains_rounded (i : tick_input) (sys : System) :
  is_charging (vehicle_state sys) = false ->
  (1 <= motor_speed_setting (vehicle_state sys) <= 4)%Z ->
  0 <= battery_percentage (vehicle_state sys) <= 100 ->
  0 <= battery_percentage (vehicle_state (tick rnd i sys))
    <= Qmax 0 (battery_percentage (vehicle_state sys) - 0.04999).
Proof.
  intros Hch Hk Hb.
  destruct (running_power _ _ Hk Hb) as (p & Hp & Hp0 & Hp50).
  assert (Hpos : (motor_speed_setting (vehicle_state sys) > 0)%Z) by lia.
  destruct (tick_running rnd i sys p Hch Hpos Hp) as [-> _].
  destruct (consumption_near rnd rounding p p Hp0 Hp0)
    as (_ & [Hc Hc2] & Hc0); [unfold accuracy; lra |].
  set (c := fmul rnd (fmul rnd p (float_literal rnd 0.001)) 1) in *.
  set (b := battery_percentage (vehicle_state sys)) in *.
  clearbody c. split; [apply Q.le_max_l |].
  apply Q.max_lub; [apply Q.le_max_l |].
  apply Q.max_le_iff. unfold fsub.
  destruct (Qlt_le_dec 0 b) as [Hlt | Hle].
  - right. specialize (Hp50 Hlt).
    assert (Hr : b - c - accuracy <= rnd (b - c) <= b - c + accuracy).
    { apply (rounding_accurate rnd rounding). lra. }
    unfold accuracy in *. lra.
  - left. apply (rnd_le_integer rnd Hm Hi _ 0); [lia |].
    change (inject_Z 0) with 0. lra.
Qed.

Lemma loop_drains_rounded (inputs : list tick_input) (sys : System) :
  is_charging (vehicle_state sys) = false ->
  (1 <= motor_speed_setting (vehicle_state sys) <= 4)%Z ->
  0 <= battery_percentage (vehicle_state sys) <= 100 ->
  0 <= battery_percentage (vehicle_state (update_vehicle_state rnd inputs sys))
    <= Qmax 0 (battery_percentage (vehicle_state sys)
               - 0.04999 * ticks (length inputs)).
Proof.
  revert sys. induction inputs as [| i inputs IH]; intros sys Hch Hk Hb.
  - cbn [update_vehicle_state length]. split; [apply Hb |].
    apply Q.max_le_iff. right. change (ticks 0) with 0. lra.
  - cbn [update_vehicle_state length].
    pose proof (tick_command_fields rnd i sys) as Hframe.
    unfold command_fields in Hframe. injection Hframe as Hc' Hk' _ _ _.
    destruct (tick_drains_rounded i sys Hch Hk Hb) as [Hstep0 Hstep].
    rewrite ticks_succ.
    pose proof (ticks_le 0 (length inputs) (Nat.le_0_l _)) as Hn.
    change (ticks 0) with 0 in Hn.
    specialize (IH (tick rnd i sys)).
    set (m := ticks (length inputs)) in *.
    set (b := battery_percentage (vehicle_state sys)) in *.
    set (b1 := battery_percentage (vehicle_state (tick rnd i sys))) in *.
    assert (Hb1 : 0 <= b1 <= 100).
    { split; [exact Hstep0 |].
      eapply Qle_trans; [exact Hstep |]. apply Q.max_lub; lra. }
    destruct IH as [IH0 IH]; [congruence | lia | exact Hb1 |].
    split; [exact IH0 |].
    eapply Qle_trans; [exact IH |].
    apply Q.max_lub; [apply Q.le_max_l |].
    apply Q.max_le_iff.
    destruct (Q.max_spec 0 (b - 0.04999)) as [[Hlt Hmax] | [Hle Hmax]];
      rewrite Hmax in Hstep.
    + right. lra.
    + left. lra.
Qed.

(** While charging, an iteration adds at least 0.1999 points to the
    battery, up to 100, and takes at least 0.04999 degrees off the
    temperature, down to 25. *)
Lemma tick_charges_rounded (i : tick_input) (sys : System) :
  is_charging (vehicle_state sys) = true ->
  bounded (vehicle_state sys) ->
  (Qmin 100 (battery_percentage (vehicle_state sys) + 0.1999)
   <= battery_percentage (vehicle_state (tick rnd i sys)) <= 100) /\
  (25 <= battery_temperature (vehicle_state (tick rnd i sys))
   <= Qmax 25 (battery_temperature (vehicle_state sys) - 0.04999)).
Proof.
  intros Hch [Hb Ht].
  change (inject_Z MIN_TEMPERATURE) with 25 in Ht.
  change (inject_Z MAX_TEMPERATURE) with 80 in Ht.
  destruct (tick_charging rnd i sys Hch) as [-> ->].
  change (inject_Z MIN_TEMPERATURE) with 25.
  set (b := battery_percentage (vehicle_state sys)) in *.
  set (t := battery_temperature (vehicle_state sys)) in *.
  split; split; try apply Q.le_min_l; try apply Q.le_max_l.
  - apply Q.min_glb; [apply Q.le_min_l |].
    apply Q.min_le_iff. right.
    destruct (Qlt_bool b 20).
    + pose proof (add_literal_near rnd rounding b 0.4) as H.
      unfold accuracy in H. lra.
    + pose proof (add_literal_near rnd rounding b 0.2) as H.
      unfold accuracy in H. lra.
  - apply Q.max_lub; [apply Q.le_max_l |].
    apply Q.max_le_iff. right.
    pose proof (sub_literal_near rnd rounding t 0.05) as H.
    unfold accuracy in H. lra.
Qed.

Lemma loop_charges_rounded (inputs : list tick_input) (sys : System) :
  is_charging (vehicle_state sys) = true ->
  bounded (vehicle_state sys) ->
  (Qmin 100 (battery_percentage (vehicle_state sys)
             + 0.1999 * ticks (length inputs))
   <= battery_percentage
        (vehicle_state (update_vehicle_state rnd inputs sys)) <= 100) /\
  (25 <= battery_temperature
           (vehicle_state (update_vehicle_state rnd inputs sys))
   <= Qmax 25 (battery_temperature (vehicle_state sys)
               - 0.04999 * ticks (length inputs))).
Proof.
  revert sys. induction inputs as [| i inputs IH]; intros sys Hch Hbound.
  - cbn [update_vehicle_state length]. change (ticks 0) with 0.
    destruct Hbound as [Hb Ht].
    change (inject_Z MIN_TEMPERATURE) with 25 in Ht.
    split; split; try apply Hb; try apply Ht.
    + apply Q.min_le_iff. right. lra.
    + apply Q.max_le_iff. right. lra.
  - cbn [update_vehicle_state length].
    pose proof (tick_command_fields rnd i sys) as Hframe.
    unfold command_fields in Hframe. injection Hframe as Hc' _ _ _ _.
    destruct (tick_charges_rounded i sys Hch Hbound) as [[Hb Hb100] [Ht25 Ht]].
    destruct Hbound as [Hb0 Ht0].
    change (inject_Z MIN_TEMPERATURE) with 25 in Ht0.
    change (inject_Z MAX_TEMPERATURE) with 80 in Ht0.
    specialize (IH (tick rnd i sys)).
    rewrite ticks_succ.
    pose proof (ticks_le 0 (length inputs) (Nat.le_0_l _)) as Hn.
    change (ticks 0) with 0 in Hn.
    set (m := ticks (length inputs)) in *.
    set (b := battery_percentage (vehicle_state sys)) in *.
    set (b1 := battery_percentage (vehicle_state (tick rnd i sys))) in *.
    set (t := battery_temperature (vehicle_state sys)) in *.
    set (t1 := battery_temperature (vehicle_state (tick rnd i sys))) in *.
    assert (Hbound1 : bounded (vehicle_state (tick rnd i sys))).
    { split; fold b1 t1.
      - split; [| exact Hb100].
        eapply Qle_trans; [| exact Hb]. apply Q.min_glb; lra.
      - change (inject_Z MIN_TEMPERATURE) with 25.
        change (inject_Z MAX_TEMPERATURE) with 80.
        split; [exact Ht25 |].
        eapply Qle_trans; [exact Ht |]. apply Q.max_lub; lra. }
    destruct IH as [[IHb IHb100] [IHt25 IHt]]; [congruence | exact Hbound1 |].
    split; split; try assumption.
    + eapply Qle_trans; [| exact IHb].
      apply Q.min_glb; [apply Q.le_min_l |].
      apply Q.min_le_iff.
      destruct (Q.min_spec 100 (b + 0.1999)) as [[Hlt Hmin] | [Hle Hmin]];
        rewrite Hmin in Hb.
      * left. lra.
      * right. lra.
    + eapply Qle_trans; [exact IHt |].
      apply Q.max_lub; [apply Q.le_max_l |].
      apply Q.max_le_iff.
      destruct (Q.max_spec 25 (t - 0.04999)) as [[Hlt Hmax] | [Hle Hmax]];
        rewrite Hmax in Ht.
      * right. lra.
      * left. lra.
Qed.

(** With the motor running, an iteration moves the temperature at least
    0.0999 up towards the target and not beyond it, and leaves a
    temperature at or above the target as it is. *)
Lemma tick_warms_rounded (i : tick_input) (sys : System) :
  is_charging (vehicle_state sys) = false ->
  (1 <= motor_speed_setting (vehicle_state sys) <= 4)%Z ->
  (25 <= battery_temperature (vehicle_state sys)
   <= target_temp (motor_speed_setting (vehicle_state sys)) ->
   Qmin (target_temp (motor_speed_setting (vehicle_state sys)))
     (battery_temperature (vehicle_state sys) + 0.0999)
   <= battery_temperature (vehicle_state (tick rnd i sys))
   <= target_temp (motor_speed_setting (vehicle_state sys))) /\
  (target_temp (motor_speed_setting (vehicle_state sys))
   <= battery_temperature (vehicle_state sys) ->
   battery_temperature (vehicle_state (tick rnd i sys))
   = battery_temperature (vehicle_state sys)).
Proof.
  intros Hch Hk.
  assert (Hk0 : (0 <= motor_speed_setting (vehicle_state sys) <= 4)%Z) by lia.
  assert (Hpos : (motor_speed_setting (vehicle_state sys) > 0)%Z) by lia.
  destruct (calculate_power_consumption_defined rnd _
              (battery_percentage (vehicle_state sys)) Hk0) as (p & Hp).
  destruct (tick_running rnd i sys p Hch Hpos Hp) as [_ ->]. cbv zeta.
  pose proof (rounded_target rnd rounding _ Hk0) as Htg.
  pose proof (target_temp_range _ Hk) as Hrange.
  set (tg := fadd rnd _ (fdiv rnd _ 4)) in *.
  set (tgx := target_temp _) in *.
  set (t := battery_temperature (vehicle_state sys)) in *.
  rewrite (Qlt_bool_proper t tg tgx Htg).
  split.
  - intros Ht.
    assert (Hmin : Qmin tgx (t + 0.0999)
                   <= Qmin tg (fadd rnd t (float_literal rnd 0.1)) <= tgx).
    { split.
      - apply Q.min_glb; [rewrite Htg; apply Q.le_min_l |].
        apply Q.min_le_iff. right.
        pose proof (add_literal_near rnd rounding t 0.1) as H.
        unfold accuracy in H. lra.
      - rewrite <- Htg. apply Q.le_min_l. }
    destruct (Qlt_bool t tgx) eqn:Hlt; [exact Hmin |].
    apply Qlt_bool_false in Hlt.
    split; [apply Q.min_le_iff; left |]; lra.
  - intros Ht.
    assert (Hlt : Qlt_bool t tgx = false) by (apply Qlt_bool_false; exact Ht).
    rewrite Hlt. reflexivity.
Qed.

Lemma loop_warms_rounded (inputs : list tick_input) (sys : System) :
  is_charging (vehicle_state sys) = false ->
  (1 <= motor_speed_setting (vehicle_state sys) <= 4)%Z ->
  25 <= battery_temperature (vehicle_state sys)
    <= target_temp (motor_speed_setting (vehicle_state sys)) ->
  Qmin (target_temp (motor_speed_setting (vehicle_state sys)))
    (battery_temperature (vehicle_state sys) + 0.0999 * ticks (length inputs))
  <= battery_temperature
       (vehicle_state (update_vehicle_state rnd inputs sys))
  <= target_temp (motor_speed_setting (vehicle_state sys)).
Proof.
  revert sys. induction inputs as [| i inputs IH]; intros sys Hch Hk Ht.
  - cbn [update_vehicle_state length]. change (ticks 0) with 0.
    split; [| apply Ht]. apply Q.min_le_iff. right. lra.
  - cbn [update_vehicle_state length].
    pose proof (tick_command_fields rnd i sys) as Hframe.
    unfold command_fields in Hframe. injection Hframe as Hc' Hk' _ _ _.
    destruct (tick_warms_rounded i sys Hch Hk) as [Hbelow _].
    specialize (Hbelow Ht). destruct Hbelow as [Hstep Ht1].
    rewrite ticks_succ.
    pose proof (ticks_le 0 (length inputs) (Nat.le_0_l _)) as Hn.
    change (ticks 0) with 0 in Hn.
    specialize (IH (tick rnd i sys)).
    rewrite Hk' in IH.
    set (m := ticks (length inputs)) in *.
    set (tg := target_temp (motor_speed_setting (vehicle_state sys))) in *.
    set (t := battery_temperature (vehicle_state sys)) in *.
    set (t1 := battery_temperature (vehicle_state (tick rnd i sys))) in *.
    assert (Ht25 : 25 <= t1).
    { eapply Qle_trans; [| exact Hstep]. apply Q.min_glb; lra. }
    destruct IH as [IHlow IHhigh]; [congruence | lia | split; assumption |].
    split; [| exact IHhigh].
    eapply Qle_trans; [| exact IHlow].
    apply Q.min_glb; [apply Q.le_min_l |].
    apply Q.min_le_iff.
    destruct (Q.min_spec tg (t + 0.0999)) as [[Hlt Hmin] | [Hle Hmin]];
      rewrite Hmin in Hstep.
    + left. lra.
    + right. lra.
Qed.

Lemma loop_stays_warm_rounded (inputs : list tick_input) (sys : System) :
  is_charging (vehicle_state sys) = false ->
  (1 <= motor_speed_setting (vehicle_state sys) <= 4)%Z ->
  target_temp (motor_speed_setting (vehicle_state sys))
  <= battery_temperature (vehicle_state sys) ->
  battery_temperature (vehicle_state (update_vehicle_state rnd inputs sys))
  = battery_temperature (vehicle_state sys).
Proof.
  revert sys. induction inputs as [| i inputs IH]; intros sys Hch Hk Ht.
  - reflexivity.
  - cbn [update_vehicle_state].
    pose proof (tick_command_fields rnd i sys) as Hframe.
    unfold command_fields in Hframe. injection Hframe as Hc' Hk' _ _ _.
    destruct (tick_warms_rounded i sys Hch Hk) as [_ Hat].
    rewrite IH; [apply Hat, Ht | congruence | lia |].
    rewrite Hk', (Hat Ht). exact Ht.
Qed.

End RoundedLoop.

(** X6. With the motor at one of the levels 1..4, not charging and the
    battery between 0 and 100 percent, 2001 iterations of the loop (or
    more) leave the battery at exactly 0 and [battery_low] set, whatever
    the draws and the answers of the store, in floating-point arithmetic
    as in exact arithmetic: an iteration takes at least 0.04999 points,
    and the clamp at 0 is exact.  The setting is still the same: the loop
    empties the battery and does not take the motor out of gear. *)
Theorem motor_drains_battery_to_zero (rnd : Q -> Q)
  (inputs : list tick_input) (sys : System) :
  float_rounding rnd ->
  is_charging (vehicle_state sys) = false ->
  (1 <= motor_speed_setting (vehicle_state sys) <= 4)%Z ->
  0 <= battery_percentage (vehicle_state sys) <= 100 ->
  (2001 <= length inputs)%nat ->
  battery_percentage (vehicle_state (update_vehicle_state rnd inputs sys))
  == 0 /\
  battery_low (vehicle_state (update_vehicle_state rnd inputs sys)) = true /\
  motor_speed_setting (vehicle_state (update_vehicle_state rnd inputs sys))
  = motor_speed_setting (vehicle_state sys).
Proof.
  intros Hrnd Hch Hk Hb Hn.
  assert (Hne : inputs <> []).
  { intros ->. cbn in Hn. lia. }
  assert (Hzero : battery_percentage
                    (vehicle_state (update_vehicle_state rnd inputs sys))
                  == 0).
  { destruct (loop_drains_rounded rnd Hrnd inputs sys Hch Hk Hb)
      as [Hlow Hhigh].
    apply Qle_antisym; [| exact Hlow].
    eapply Qle_trans; [exact Hhigh |].
    apply Q.max_lub; [apply Qle_refl |].
    pose proof (ticks_le 2001 (length inputs) Hn) as Hticks.
    change (ticks 2001) with 2001 in Hticks. lra. }
  split; [exact Hzero |]. split.
  - destruct (loop_flags rnd inputs sys) as [_ Hlow]; [lia | exact Hne |].
    rewrite Hlow. apply Qlt_bool_iff. rewrite Hzero. reflexivity.
  - apply loop_keeps_mode.
Qed.

(** X7. While charging, from a battery and a temperature within their
    bounds, 501 iterations of the loop (or more) leave the battery at
    exactly 100 and 1101 iterations (or more) leave the temperature at
    exactly 25, in floating-point arithmetic as in exact arithmetic: an
    iteration adds at least 0.1999 points and takes at least 0.04999
    degrees, and the clamps are exact.  [is_charging] is still set: the
    loop does not end the charge at a full battery. *)
Theorem charging_fills_battery (rnd : Q -> Q) (inputs : list tick_input)
  (sys : System) :
  float_rounding rnd ->
  is_charging (vehicle_state sys) = true ->
  bounded (vehicle_state sys) ->
  ((501 <= length inputs)%nat ->
   battery_percentage (vehicle_state (update_vehicle_state rnd inputs sys))
   == 100) /\
  ((1101 <= length inputs)%nat ->
   battery_temperature (vehicle_state (update_vehicle_state rnd inputs sys))
   == 25) /\
  is_charging (vehicle_state (update_vehicle_state rnd inputs sys)) = true.
Proof.
  intros Hrnd Hch Hbound.
  destruct (loop_charges_rounded rnd Hrnd inputs sys Hch Hbound)
    as [[Hlow Hmax] [Hmin Hhigh]].
  destruct Hbound as [Hb Ht].
  change (inject_Z MIN_TEMPERATURE) with 25 in Ht.
  change (inject_Z MAX_TEMPERATURE) with 80 in Ht.
  split; [| split].
  - intros Hn.
    apply Qle_antisym; [exact Hmax |].
    eapply Qle_trans; [| exact Hlow].
    apply Q.min_glb; [apply Qle_refl |].
    pose proof (ticks_le 501 (length inputs) Hn) as Hticks.
    change (ticks 501) with 501 in Hticks. lra.
  - intros Hn.
    apply Qle_antisym; [| exact Hmin].
    eapply Qle_trans; [exact Hhigh |].
    apply Q.max_lub; [apply Qle_refl |].
    pose proof (ticks_le 1101 (length inputs) Hn) as Hticks.
    change (ticks 1101) with 1101 in Hticks. lra.
  - destruct (loop_keeps_mode rnd inputs sys) as [Hc' _]. congruence.
Qed.

(** X8. With the motor at one of the levels 1..4 and not charging, the
    temperature settles at the target of the level,
    [25 + 55 * setting / 4], which floating-point arithmetic computes
    exactly: from a temperature between 25 and the target, 551 iterations
    of the loop (or more) leave it at exactly the target (an iteration
    adds at least 0.0999 degrees, and the clamp is exact); a temperature
    at or above the target is left as it is, however many iterations
    follow (the loop cools the battery only while charging). *)
Theorem temperature_settles_at_target (rnd : Q -> Q)
  (inputs : list tick_input) (sys : System) :
  float_rounding rnd ->
  is_charging (vehicle_state sys) = false ->
  (1 <= motor_speed_setting (vehicle_state sys) <= 4)%Z ->
  25 <= battery_temperature (vehicle_state sys) ->
  (battery_temperature (vehicle_state sys)
   <= target_temp (motor_speed_setting (vehicle_state sys)) ->
   (551 <= length inputs)%nat ->
   battery_temperature (vehicle_state (update_vehicle_state rnd inputs sys))
   == target_temp (motor_speed_setting (vehicle_state sys))) /\
  (target_temp (motor_speed_setting (vehicle_state sys))
   <= battery_temperature (vehicle_state sys) ->
   battery_temperature (vehicle_state (update_vehicle_state rnd inputs sys))
   = battery_temperature (vehicle_state sys)).
Proof.
  intros Hrnd Hch Hk Hmin. split.
  - intros Ht Hn.
    destruct (loop_warms_rounded rnd Hrnd inputs sys Hch Hk (conj Hmin Ht))
      as [Hlow Hhigh].
    apply Qle_antisym; [exact Hhigh |].
    eapply Qle_trans; [| exact Hlow].
    apply Q.min_glb; [apply Qle_refl |].
    pose proof (ticks_le 551 (length inputs) Hn) as Hticks.
    change (ticks 551) with 551 in Hticks.
    pose proof (target_temp_range _ Hk) as [_ Hmax]. lra.
  - apply (loop_stays_warm_rounded rnd Hrnd); assumption.
Qed.

(** In binary64 arithmetic one iteration fewer does not do: 1100
    iterations of a charge that starts at 80 degrees leave the temperature
    above 25, and 550 iterations at level 4 from 25 degrees leave it below
    the target of 80. *)
Example iteration_counts_are_tight :
  25 < battery_temperature
         (vehicle_state
            (update_vehicle_state binary64 (repeat (quiet_tick 2) 1100)
               charging_at_80)) /\
  battery_temperature
    (vehicle_state
       (update_vehicle_state binary64 (repeat (quiet_tick 2) 550)
          (step binary64 (SetMotorSpeed (speed_request 4) true)
             (boot None 0 1))))
  < target_temp 4.
Proof. split; vm_compute; reflexivity. Qed.

Lemma tick_flips (rnd : Q -> Q) (i : tick_input) (sys : System) :
  (0 <= motor_speed_setting (vehicle_state sys) <= 4)%Z ->
  parking_brake (vehicle_state (tick rnd i sys))
  = xorb (Qlt_bool (tick_brake_draw i) (float_literal rnd 0.001))
      (parking_brake (vehicle_state sys)) /\
  check_engine (vehicle_state (tick rnd i sys))
  = xorb (Qlt_bool (tick_engine_draw i) (float_literal rnd 0.0005))
      (check_engine (vehicle_state sys)).
Proof.
  destruct sys as [st doc], i as [now r1 r2 ok]. simpl_state. intros Hs.
  destruct (calculate_power_consumption_defined rnd
              (motor_speed_setting st) (battery_percentage st) Hs)
    as (p & Hp).
  crunch; simpl_state; split;
    first [reflexivity | destruct (parking_brake st); reflexivity
          | destruct (check_engine st); reflexivity].
Qed.

(** X9. With a setting in the tables, after any number of iterations of
    the loop [parking_brake] differs from its value before exactly when an
    odd number of the brake draws were below the float of 0.001, and
    [check_engine] exactly when an odd number of the engine draws were
    below the float of 0.0005; neither depends on anything else. *)
Theorem brake_and_engine_follow_the_draws (rnd : Q -> Q)
  (inputs : list tick_input) (sys : System) :
  (0 <= motor_speed_setting (vehicle_state sys) <= 4)%Z ->
  parking_brake (vehicle_state (update_vehicle_state rnd inputs sys))
  = xorb (flips (float_literal rnd 0.001) (map tick_brake_draw inputs))
      (parking_brake (vehicle_state sys)) /\
  check_engine (vehicle_state (update_vehicle_state rnd inputs sys))
  = xorb (flips (float_literal rnd 0.0005) (map tick_engine_draw inputs))
      (check_engine (vehicle_state sys)).
Proof.
  revert sys. induction inputs as [| i inputs IH]; intros sys Hs.
  - split; reflexivity.
  - cbn [update_vehicle_state map flips].
    pose proof (tick_command_fields rnd i sys) as Hframe.
    unfold command_fields in Hframe. injection Hframe as _ Hk _ _ _.
    destruct (tick_flips rnd i sys Hs) as [Hbrake Hengine].
    destruct (IH (tick rnd i sys)) as [IHb IHe]; [lia |].
    split.
    + rewrite IHb, Hbrake.
      set (draw := Qlt_bool _ _). set (later := flips _ _).
      set (brake := parking_brake _).
      destruct draw, later, brake; reflexivity.
    + rewrite IHe, Hengine.
      set (draw := Qlt_bool _ _). set (later := flips _ _).
      set (engine := check_engine _).
      destruct draw, later, engine; reflexivity.
Qed.

(** X10. A dictionary whose setting is above the keys of the table, not
    charging and with the battery above 0, stalls the loop: every
    iteration raises [KeyError] in [calculate_power_consumption] before
    any assignment, the [except] clause swallows it, and the dictionary
    and the stored document stay as they are ([last_update] too), however
    many iterations follow. *)
Theorem setting_outside_table_stalls_loop (rnd : Q -> Q)
  (inputs : list tick_input) (sys : System) :
  is_charging (vehicle_state sys) = false ->
  (4 < motor_speed_setting (vehicle_state sys))%Z ->
  0 < battery_percentage (vehicle_state sys) ->
  update_vehicle_state rnd inputs sys = sys.
Proof.
  intros Hch Hk Hb.
  assert (Htick : forall i, tick rnd i sys = sys).
  { intros [now r1 r2 ok]. destruct sys as [st doc]. simpl_state.
    assert (Hgt : (motor_speed_setting st >? 0)%Z = true) by lia.
    assert (Hp : calculate_power_consumption rnd (motor_speed_setting st)
                   (battery_percentage st) = None).
    { unfold calculate_power_consumption.
      apply Qle_bool_false in Hb. rewrite Hb.
      rewrite (proj2 (power_rate_defined_iff (motor_speed_setting st)));
        [reflexivity | lia]. }
    unfold_monad. simpl_state. rewrite Hch, Hgt. cbn [negb andb].
    unfold_monad. simpl_state. rewrite Hp. reflexivity. }
  induction inputs as [| i inputs IH]; [reflexivity |].
  cbn [update_vehicle_state]. rewrite Htick. exact IH.
Qed.

(** ** Runs of operations *)

Lemma run_operations_cons (rnd : Q -> Q) (op : operation)
  (ops : list operation) (sys : System) :
  run_operations rnd (op :: ops) sys
  = run_operations rnd ops (step rnd op sys).
Proof. reflexivity. Qed.

(** An iteration in which [calculate_power_consumption] raises changes
    nothing. *)
Lemma tick_raises (rnd : Q -> Q) (i : tick_input) (sys : System) :
  is_charging (vehicle_state sys) = false ->
  (motor_speed_setting (vehicle_state sys) > 0)%Z ->
  calculate_power_consumption rnd (motor_speed_setting (vehicle_state sys))
    (battery_percentage (vehicle_state sys)) = None ->
  tick rnd i sys = sys.
Proof.
  destruct sys as [st doc], i as [now r1 r2 ok]. simpl_state.
  intros Hch Hk Hp.
  assert (Hgt : (motor_speed_setting st >? 0)%Z = true) by lia.
  unfold_monad. simpl_state. rewrite Hch, Hgt. cbn [negb andb].
  unfold_monad. simpl_state. rewrite Hp. reflexivity.
Qed.

Section RoundedSteps.

Variable rnd : Q -> Q.
Hypothesis rounding : float_rounding rnd.

Let Hm := rounding_monotone rnd rounding.
Let Hi := rounding_integers rnd rounding.

Lemma representable_rounded (x : Q) : representable rnd (rnd x).
Proof. apply (rounding_idempotent rnd rounding). Qed.

Lemma representable_integer (z : Z) :
  (Z.abs z <= 2 ^ 53)%Z -> representable rnd (inject_Z z).
Proof. apply Hi. Qed.

Lemma representable_proper (x y : Q) :
  x == y -> representable rnd y -> representable rnd x.
Proof.
  unfold representable. intros Hxy Hy.
  rewrite (rounded_proper rnd rounding x y Hxy), Hy, Hxy. reflexivity.
Qed.

Lemma representable_max (x y : Q) :
  representable rnd x -> representable rnd y -> representable rnd (Qmax x y).
Proof.
  intros Hx Hy.
  destruct (Q.max_spec x y) as [[_ H] | [_ H]];
    eapply representable_proper; eassumption.
Qed.

Lemma representable_min (x y : Q) :
  representable rnd x -> representable rnd y -> representable rnd (Qmin x y).
Proof.
  intros Hx Hy.
  destruct (Q.min_spec x y) as [[_ H] | [_ H]];
    eapply representable_proper; eassumption.
Qed.

(** A drain takes nothing below 0 and adds nothing. *)
Lemma drain_le (b p : Q) :
  representable rnd b -> 0 <= b -> 0 <= p ->
  0 <= Qmax 0 (fsub rnd b (fmul rnd (fmul rnd p (float_literal rnd 0.001)) 1))
    <= b /\
  representable rnd
    (Qmax 0 (fsub rnd b (fmul rnd (fmul rnd p (float_literal rnd 0.001)) 1))).
Proof.
  intros Hrep Hb Hp.
  assert (Hrate : 0 <= fmul rnd (fmul rnd p (float_literal rnd 0.001)) 1).
  { unfold fmul, float_literal.
    apply (rounded_nonneg rnd rounding), Qmult_le_0_compat; [| lra].
    apply (rounded_nonneg rnd rounding), Qmult_le_0_compat; [exact Hp |].
    apply (rounded_nonneg rnd rounding). lra. }
  set (c := fmul rnd _ 1) in *. clearbody c.
  split; [split; [apply Q.le_max_l |] |].
  - apply Q.max_lub; [exact Hb |].
    unfold fsub. apply Qle_trans with (rnd b); [apply Hm; lra |].
    unfold representable in Hrep. rewrite Hrep. apply Qle_refl.
  - apply representable_max; [apply (representable_integer 0); lia |].
    apply representable_rounded.
Qed.

(** A rise towards a target above takes nothing off. *)
Lemma warm_ge (t tg lit : Q) :
  representable rnd t -> representable rnd tg -> t < tg -> 0 <= lit ->
  t <= Qmin tg (fadd rnd t (float_literal rnd lit)) /\
  representable rnd (Qmin tg (fadd rnd t (float_literal rnd lit))).
Proof.
  intros Hrep Htg Hlt Hlit. split.
  - apply Q.min_glb; [lra |].
    unfold fadd, float_literal.
    apply Qle_trans with (rnd t).
    + unfold representable in Hrep. rewrite Hrep. apply Qle_refl.
    + apply Hm. pose proof (rounded_nonneg rnd rounding lit Hlit). lra.
  - apply representable_min; [exact Htg | apply representable_rounded].
Qed.

Lemma step_without_charging_rounded (op : operation) (sys : System) :
  leaves_charging_off op = true ->
  is_charging (vehicle_state sys) = false ->
  0 <= battery_percentage (vehicle_state sys) ->
  representable rnd (battery_percentage (vehicle_state sys)) ->
  representable rnd (battery_temperature (vehicle_state sys)) ->
  is_charging (vehicle_state (step rnd op sys)) = false /\
  0 <= battery_percentage (vehicle_state (step rnd op sys))
    <= battery_percentage (vehicle_state sys) /\
  battery_temperature (vehicle_state sys)
  <= battery_temperature (vehicle_state (step rnd op sys)) /\
  representable rnd (battery_percentage (vehicle_state (step rnd op sys))) /\
  representable rnd (battery_temperature (vehicle_state (step rnd op sys))).
Proof.
  intros Hop Hch Hb Hrb Hrt.
  assert (Hsame : forall sys',
            is_charging (vehicle_state sys')
            = is_charging (vehicle_state sys) ->
            battery_percentage (vehicle_state sys')
            = battery_percentage (vehicle_state sys) ->
            battery_temperature (vehicle_state sys')
            = battery_temperature (vehicle_state sys) ->
            is_charging (vehicle_state sys') = false /\
            0 <= battery_percentage (vehicle_state sys')
              <= battery_percentage (vehicle_state sys) /\
            battery_temperature (vehicle_state sys)
            <= battery_temperature (vehicle_state sys') /\
            representable rnd (battery_percentage (vehicle_state sys')) /\
            representable rnd (battery_temperature (vehicle_state sys'))).
  { intros sys' -> -> ->.
    repeat split; try assumption; apply Qle_refl. }
  destruct op as [i | req ok | req ok | now ok |]; try discriminate.
  - change (step rnd (Tick i) sys) with (tick rnd i sys).
    pose proof (tick_command_fields rnd i sys) as Hframe.
    unfold command_fields in Hframe. injection Hframe as Hc' _ _ _ _.
    destruct (Z_gt_le_dec (motor_speed_setting (vehicle_state sys)) 0)
      as [Hpos | Hzero].
    + destruct (calculate_power_consumption rnd
                  (motor_speed_setting (vehicle_state sys))
                  (battery_percentage (vehicle_state sys))) as [p |] eqn:Hp.
      * destruct (tick_running rnd i sys p Hch Hpos Hp) as [-> ->].
        cbv zeta.
        pose proof (calculate_power_consumption_nonneg rnd Hm Hi _ _ _ Hp)
          as Hp0.
        destruct (drain_le _ p Hrb Hb Hp0) as [Hdrain Hrep].
        split; [congruence |]. split; [exact Hdrain |].
        set (tg := fadd rnd _ (fdiv rnd _ 4)).
        destruct (Qlt_bool (battery_temperature (vehicle_state sys)) tg)
          eqn:Hlt.
        -- apply Qlt_bool_iff in Hlt.
           destruct (warm_ge _ tg 0.1 Hrt (representable_rounded _) Hlt)
             as [Hwarm Hrep']; [lra |].
           repeat split; assumption.
        -- repeat split; try assumption. apply Qle_refl.
      * rewrite (tick_raises rnd i sys Hch Hpos Hp).
        apply Hsame; reflexivity.
    + destruct (tick_idle rnd i sys Hch Hzero) as [Hb' Ht'].
      apply Hsame; assumption.
  - apply Hsame.
    all: destruct sys as [st doc]; simpl_state.
    all: destruct req as [| data]; [reflexivity |].
    all: destruct data; crunch_all; reflexivity.
  - apply Hsame.
    all: destruct sys as [st [doc |]]; reflexivity.
Qed.

(** The battery and the temperature of every state that the process
    reaches are floats. *)
Lemma reachable_representable (sys : System) :
  reachable rnd sys ->
  representable rnd (battery_percentage (vehicle_state sys)) /\
  representable rnd (battery_temperature (vehicle_state sys)).
Proof.
  induction 1 as [t_doc t_mem | op sys Hr [IHb IHt]].
  - split;
      [apply (representable_integer 100) | apply (representable_integer 25)];
      lia.
  - assert (Hsame : forall sys',
              battery_percentage (vehicle_state sys')
              = battery_percentage (vehicle_state sys) ->
              battery_temperature (vehicle_state sys')
              = battery_temperature (vehicle_state sys) ->
              representable rnd (battery_percentage (vehicle_state sys')) /\
              representable rnd (battery_temperature (vehicle_state sys'))).
    { intros sys' -> ->. split; assumption. }
    destruct op as [i | req ok | req ok | now ok |].
    + change (step rnd (Tick i) sys) with (tick rnd i sys).
      destruct (is_charging (vehicle_state sys)) eqn:Hch.
      * destruct (tick_charging rnd i sys Hch) as [-> ->]. split.
        -- apply representable_min;
             [apply (representable_integer 100); lia
             | apply representable_rounded].
        -- apply representable_max;
             [apply (representable_integer 25); lia
             | apply representable_rounded].
      * destruct (Z_gt_le_dec (motor_speed_setting (vehicle_state sys)) 0)
          as [Hpos | Hzero].
        -- destruct (calculate_power_consumption rnd
                       (motor_speed_setting (vehicle_state sys))
                       (battery_percentage (vehicle_state sys)))
             as [p |] eqn:Hp.
           ++ destruct (tick_running rnd i sys p Hch Hpos Hp) as [-> ->].
              cbv zeta. split.
              ** apply representable_max;
                   [apply (representable_integer 0); lia
                   | apply representable_rounded].
              ** destruct (Qlt_bool _ _); [| exact IHt].
                 apply representable_min; apply representable_rounded.
           ++ rewrite (tick_raises rnd i sys Hch Hpos Hp).
              split; assumption.
        -- destruct (tick_idle rnd i sys Hch Hzero) as [Hb' Ht'].
           apply Hsame; assumption.
    + apply Hsame.
      all: destruct sys as [st doc]; simpl_state.
      all: destruct req as [| data]; [reflexivity |].
      all: destruct data; crunch_all; reflexivity.
    + apply Hsame.
      all: destruct sys as [st doc]; simpl_state.
      all: destruct req as [| data]; [reflexivity |].
      all: destruct data; crunch_all; reflexivity.
    + destruct sys as [st doc], ok; crunch_all; simpl_state.
      all: split;
        [apply (representable_integer 100) | apply (representable_integer 25)];
        lia.
    + apply Hsame.
      all: destruct sys as [st [doc |]]; reflexivity.
Qed.

End RoundedSteps.

(** X11. From a dictionary that is not charging, whose battery is at or
    above 0 and whose battery and temperature are floats (as they are in
    every state the process reaches), no sequence of ticks, speed
    requests and reads raises [battery_percentage] or lowers
    [battery_temperature], in floating-point arithmetic as in exact
    arithmetic: the battery only gains, and the temperature only falls,
    through [toggle_charging] or [reset_state]. *)
Theorem battery_only_rises_while_charging (rnd : Q -> Q)
  (ops : list operation) (sys : System) :
  float_rounding rnd ->
  is_charging (vehicle_state sys) = false ->
  0 <= battery_percentage (vehicle_state sys) ->
  representable rnd (battery_percentage (vehicle_state sys)) ->
  representable rnd (battery_temperature (vehicle_state sys)) ->
  forallb leaves_charging_off ops = true ->
  battery_percentage (vehicle_state (run_operations rnd ops sys))
  <= battery_percentage (vehicle_state sys) /\
  battery_temperature (vehicle_state sys)
  <= battery_temperature (vehicle_state (run_operations rnd ops sys)).
Proof.
  intros Hrnd.
  revert sys. induction ops as [| op ops IH];
    intros sys Hch Hb Hrb Hrt Hops.
  - split; apply Qle_refl.
  - cbn [forallb] in Hops. apply andb_true_iff in Hops.
    destruct Hops as [Hop Hrest].
    destruct (step_without_charging_rounded rnd Hrnd op sys Hop Hch Hb Hrb Hrt)
      as (Hch' & [Hb0 Hb'] & Ht' & Hrb' & Hrt').
    rewrite run_operations_cons.
    destruct (IH (step rnd op sys) Hch' Hb0 Hrb' Hrt' Hrest) as [IHb IHt].
    split; eapply Qle_trans; eassumption.
Qed.

(** ** Answers of the handlers *)

(** X12. A command answered with status 400 has changed nothing: the
    dictionary and the stored document are as before the request, for any
    request body and either handler. *)
Theorem refused_command_changes_nothing (rnd : Q -> Q) (op : operation)
  (sys : System) (message : string) :
  reply rnd op sys = Some (Error 400 message) -> step rnd op sys = sys.
Proof.
  destruct sys as [st doc], op as [i | req ok | req ok | now ok |].
  - discriminate.
  - destruct req as [| data]; [discriminate |].
    destruct data; crunch_all; cbn; intros H; try discriminate; reflexivity.
  - destruct req as [| data]; [discriminate |].
    destruct data; crunch_all; cbn; intros H; try discriminate; reflexivity.
  - crunch_all; cbn; discriminate.
  - unfold_monad. simpl_state. destruct doc; reflexivity.
Qed.

(** X13. When the store refuses the write, an operation leaves the
    dictionary exactly as it does when the store accepts it, and leaves
    the stored document as it was; a command that would have been
    answered with success is answered 500 "Internal server error", its
    assignments to the dictionary made all the same. *)
Theorem refused_write_keeps_memory (rnd : Q -> Q) (op : operation)
  (sys : System) :
  vehicle_state (step rnd (with_write false op) sys)
  = vehicle_state (step rnd (with_write true op) sys) /\
  current_state_doc (step rnd (with_write false op) sys)
  = current_state_doc sys /\
  (command_succeeded (reply rnd (with_write true op) sys) = true ->
   reply rnd (with_write false op) sys
   = Some (Error 500 "Internal server error")).
Proof.
  destruct sys as [st doc],
    op as [[now r1 r2 ok0] | req ok | req ok | now ok |];
    cbn [with_write tick_now tick_brake_draw tick_engine_draw].
  - crunch_all; repeat split; try reflexivity; discriminate.
  - destruct req as [| data]; [repeat split; discriminate |].
    destruct data; crunch_all; repeat split; try reflexivity; discriminate.
  - destruct req as [| data]; [repeat split; discriminate |].
    destruct data; crunch_all; repeat split; try reflexivity; discriminate.
  - crunch_all; repeat split; try reflexivity; discriminate.
  - unfold_monad. simpl_state. destruct doc; repeat split; discriminate.
Qed.

Ltac same_lookups :=
  repeat match goal with
    | H : Some _ = Some _ |- _ => injection H as H; subst
    | H1 : ?a = Some ?x, H2 : ?a = Some ?y |- _ =>
        rewrite H1 in H2; injection H2 as H2; subst
    end.

(** Run the operation, then run it again on the result. *)
Ltac run_twice :=
  let again := fresh "again" in
  match goal with
  | |- exec ?rnd ?op (step ?rnd ?op ?sys) = _ =>
      set (again := exec rnd op) at 1
  end;
  crunch_all; subst again; crunch_all; try reflexivity; try congruence;
  same_lookups; cbn [Z.gtb Z.compare andb] in *; clean_andb;
  first [reflexivity | congruence].

(** X14. Every handler is idempotent: the same request made again (for
    [reset_state], at the same clock reading) gets the same answer and
    leaves the same dictionary and stored document as the first. *)
Theorem handlers_idempotent (rnd : Q -> Q) (op : operation) (sys : System) :
  is_handler op = true ->
  exec rnd op (step rnd op sys) = exec rnd op sys.
Proof.
  destruct sys as [st doc], op as [i | req ok | req ok | now ok |];
    intros Hop; try discriminate.
  - destruct req as [| data]; [reflexivity |].
    destruct ok, data; run_twice.
  - destruct req as [| data]; [reflexivity |].
    destruct ok, data; run_twice.
  - destruct ok; run_twice.
  - unfold_monad. simpl_state. destruct doc; reflexivity.
Qed.

(** X15. A request whose body [get_json] cannot read, or reads as
    something other than [None] or an object (a list, a string, a number,
    a boolean), is answered 500 "Internal server error" by
    [set_motor_speed] and by [toggle_charging], and changes nothing. *)
Theorem unreadable_request_is_internal_error (rnd : Q -> Q)
  (req : json_request) (write_ok : bool) (sys : System) :
  req <> GetJsonReturns PNone ->
  (forall items, req <> GetJsonReturns (PDict items)) ->
  exec rnd (SetMotorSpeed req write_ok) sys
  = (Some (Error 500 "Internal server error"), sys) /\
  exec rnd (ToggleCharging req write_ok) sys
  = (Some (Error 500 "Internal server error"), sys).
Proof.
  intros Hnull Hobject. destruct sys as [st doc].
  destruct req as [| data]; [split; reflexivity |].
  destruct data; try (split; reflexivity).
  - contradiction.
  - exfalso. apply (Hobject items). reflexivity.
Qed.

Lemma speed_in_range_not_number (v : pyval) :
  is_number v = false -> speed_in_range v = None.
Proof. destruct v; try discriminate; reflexivity. Qed.

Lemma py_eq_int_float (q : Q) (n k : Z) :
  q == inject_Z n -> py_eq_int (PFloat q) k = py_eq_int (PInt n) k.
Proof.
  intros Hq. cbn [py_eq_int].
  destruct (Z.eqb_spec n k) as [-> | Hne].
  - apply Qeq_bool_iff. exact Hq.
  - apply not_true_iff_false. intros H. apply Qeq_bool_iff in H.
    rewrite Hq in H. apply Hne.
    unfold Qeq in H. cbn in H. lia.
Qed.

Lemma speed_in_range_float (q : Q) (n : Z) :
  q == inject_Z n -> speed_in_range (PFloat q) = speed_in_range (PInt n).
Proof.
  intros Hq. unfold speed_in_range. cbn [find].
  rewrite !(py_eq_int_float q n _ Hq). reflexivity.
Qed.

Lemma speed_in_range_fraction (q : Q) :
  (forall n : Z, ~ q == inject_Z n) -> speed_in_range (PFloat q) = None.
Proof.
  intros Hq. unfold speed_in_range. cbn [find py_eq_int].
  repeat match goal with
    | |- context [Qeq_bool ?x (inject_Z ?k)] =>
        destruct (Qeq_bool x (inject_Z k)) eqn:?
    end; try reflexivity.
  all: exfalso;
    match goal with
    | H : Qeq_bool _ (inject_Z ?k) = true |- _ =>
        apply Qeq_bool_iff in H; exact (Hq k H)
    end.
Qed.

(** The run of the handler depends on the value of ["speed"] through the
    membership test only, but for the echo. *)
Lemma set_motor_speed_by_number (rnd : Q -> Q) (v w : pyval)
  (write_ok : bool) (sys : System) :
  speed_in_range v = speed_in_range w ->
  exec rnd (SetMotorSpeed (speed_body v) write_ok) sys
  = (echo v (reply rnd (SetMotorSpeed (speed_body w) write_ok) sys),
     step rnd (SetMotorSpeed (speed_body w) write_ok) sys).
Proof.
  destruct sys as [st doc]. intros Hvw. unfold speed_body.
  unfold_monad.
  cbn [dict_get find fst snd String.eqb Ascii.eqb Bool.eqb].
  rewrite Hvw.
  crunch_all; reflexivity.
Qed.

(** X16. [set_motor_speed] compares the value of ["speed"] with 0..4 by
    [==], whatever its JSON type: a string, [null], a list or an object is
    answered 400 "Invalid speed setting", and so is a float that is not a
    whole number; a boolean is taken as 1 or 0 and a float equal to the
    integer [n] as [n]: the answer is the one for that integer with the
    value echoed as it was sent, and the dictionary gets the entries it
    gets for that integer, but for [motor_speed_setting], which the source
    assigns the value as it was sent. *)
Theorem speed_value_compared_as_number (rnd : Q -> Q) (write_ok : bool)
  (sys : System) :
  (forall v, is_number v = false ->
     reply rnd (SetMotorSpeed (speed_body v) write_ok) sys
     = Some (Error 400 "Invalid speed setting (must be 0-4)")) /\
  (forall q, (forall n : Z, ~ q == inject_Z n) ->
     reply rnd (SetMotorSpeed (speed_body (PFloat q)) write_ok) sys
     = Some (Error 400 "Invalid speed setting (must be 0-4)")) /\
  (forall b : bool,
     reply rnd (SetMotorSpeed (speed_body (PBool b)) write_ok) sys
     = echo (PBool b)
         (reply rnd
            (SetMotorSpeed (speed_request (if b then 1 else 0)) write_ok)
            sys) /\
     but_speed_setting
       (vehicle_state
          (step rnd (SetMotorSpeed (speed_body (PBool b)) write_ok) sys))
     = but_speed_setting
         (vehicle_state
            (step rnd
               (SetMotorSpeed (speed_request (if b then 1 else 0)) write_ok)
               sys))) /\
  (forall q n, q == inject_Z n ->
     reply rnd (SetMotorSpeed (speed_body (PFloat q)) write_ok) sys
     = echo (PFloat q)
         (reply rnd (SetMotorSpeed (speed_request n) write_ok) sys) /\
     but_speed_setting
       (vehicle_state
          (step rnd (SetMotorSpeed (speed_body (PFloat q)) write_ok) sys))
     = but_speed_setting
         (vehicle_state
            (step rnd (SetMotorSpeed (speed_request n) write_ok) sys))).
Proof.
  split; [| split; [| split]].
  - intros v Hv. apply speed_in_range_not_number in Hv.
    destruct sys as [st doc]. unfold speed_body. unfold_monad.
    cbn [dict_get find fst snd String.eqb Ascii.eqb Bool.eqb].
    rewrite Hv. reflexivity.
  - intros q Hq. apply speed_in_range_fraction in Hq.
    destruct sys as [st doc]. unfold speed_body. unfold_monad.
    cbn [dict_get find fst snd String.eqb Ascii.eqb Bool.eqb].
    rewrite Hq. reflexivity.
  - intros b.
    pose proof (set_motor_speed_by_number rnd (PBool b)
                  (PInt (if b then 1 else 0)) write_ok sys) as H.
    unfold reply, step. fold (speed_request (if b then 1 else 0)) in H.
    rewrite H by (destruct b; reflexivity). split; reflexivity.
  - intros q n Hq.
    pose proof (set_motor_speed_by_number rnd (PFloat q) (PInt n)
                  write_ok sys (speed_in_range_float q n Hq)) as H.
    unfold reply, step. fold (speed_request n) in H.
    rewrite H. split; reflexivity.
Qed.

(** X17. [toggle_charging] reads the value of ["charging"] by its
    truthiness, whatever its JSON type: on [{"charging": v}] it gives the
    answer that it gives on the boolean [bool(v)] with [v] echoed as it
    was sent, and the dictionary gets the entries it gets for [bool(v)],
    but for [is_charging], which the source assigns [v] as it was sent.
    So a non-empty string (the string ["false"] too) or a non-zero number
    is refused or accepted as [true] is, and sets the setting and the rpm
    to 0 and the power to -5 when accepted; 0, the empty string, [null]
    and an empty list or object are taken as [false]. *)
Theorem charging_value_read_by_truthiness (rnd : Q -> Q) (v : pyval)
  (write_ok : bool) (sys : System) :
  reply rnd (ToggleCharging (charging_body v) write_ok) sys
  = echo v
      (reply rnd (ToggleCharging (charging_request (py_truthy v)) write_ok)
         sys) /\
  but_is_charging
    (vehicle_state (step rnd (ToggleCharging (charging_body v) write_ok) sys))
  = but_is_charging
      (vehicle_state
         (step rnd (ToggleCharging (charging_request (py_truthy v)) write_ok)
            sys)).
Proof.
  assert (H : exec rnd (ToggleCharging (charging_body v) write_ok) sys
              = (echo v
                   (reply rnd
                      (ToggleCharging (charging_request (py_truthy v))
                         write_ok) sys),
                 step rnd
                   (ToggleCharging (charging_request (py_truthy v)) write_ok)
                   sys)).
  { destruct sys as [st doc]. unfold charging_body, charging_request.
    unfold_monad.
    cbn [dict_get find fst snd String.eqb Ascii.eqb Bool.eqb].
    cbn [py_truthy].
    destruct (py_truthy v) eqn:Hv; crunch_all; reflexivity. }
  unfold reply at 1, step at 1. rewrite H. split; reflexivity.
Qed.

(** ** The stored document *)

Lemma step_keeps_document (rnd : Q -> Q) (op : operation) (sys : System) :
  current_state_doc sys <> None -> current_state_doc (step rnd op sys) <> None.
Proof.
  intros Hd. destruct (doc_after_step rnd op sys) as [-> | ->];
    [exact Hd | discriminate].
Qed.

Lemma run_keeps_document (rnd : Q -> Q) (ops : list operation)
  (sys : System) :
  current_state_doc sys <> None ->
  current_state_doc (run_operations rnd ops sys) <> None.
Proof.
  revert sys. induction ops as [| op ops IH]; intros sys Hd; [exact Hd |].
  rewrite run_operations_cons. apply IH, step_keeps_document, Hd.
Qed.

(** X18. Whatever the store holds when the process starts (a document or
    none), after [create_current_state_document] and any sequence of
    ticks and handler calls the 404 "Vehicle state not found" of
    [get_vehicle_state] does not occur: when the read of the store
    succeeds the answer is the stored document, and when it raises (the
    handler has no [try]) the answer is the status 500 of Flask. *)
Theorem state_always_found (rnd : Q -> Q) (stored : option VehicleState)
  (t_doc t_mem : timestamp) (ops : list operation) :
  (forall read_ok message,
     served_state read_ok (run_operations rnd ops (boot stored t_doc t_mem))
     <> Some (Error 404 message)) /\
  (exists doc,
     served_state true (run_operations rnd ops (boot stored t_doc t_mem))
     = Some (StateDocument doc) /\
     reply rnd GetState (run_operations rnd ops (boot stored t_doc t_mem))
     = Some (StateDocument doc)) /\
  served_state false (run_operations rnd ops (boot stored t_doc t_mem))
  = Some (Error 500 "Internal Server Error").
Proof.
  pose proof (run_keeps_document rnd ops (boot stored t_doc t_mem)) as H.
  set (sys := run_operations rnd ops (boot stored t_doc t_mem)) in *.
  assert (Hdoc : exists doc, current_state_doc sys = Some doc).
  { destruct (current_state_doc sys) as [doc |]; [exists doc; reflexivity |].
    exfalso. apply H; [| reflexivity]. destruct stored; discriminate. }
  destruct Hdoc as [doc Hdoc].
  unfold served_state, get_vehicle_state_reading, doc_get, reply, exec,
    get_vehicle_state, answer, bind, ret.
  split; [| split].
  - intros [|] message; cbn [fst snd]; [rewrite Hdoc |]; discriminate.
  - exists doc. cbn [fst snd]. rewrite Hdoc. split; reflexivity.
  - reflexivity.
Qed.

(** The dictionary after an operation, and the answer of every operation
    but [get_vehicle_state], do not depend on the stored document. *)
Lemma step_ignores_document (rnd : Q -> Q) (op : operation)
  (st : VehicleState) (doc doc' : option VehicleState) :
  vehicle_state (step rnd op (mkSystem st doc))
  = vehicle_state (step rnd op (mkSystem st doc')) /\
  (op <> GetState ->
   reply rnd op (mkSystem st doc) = reply rnd op (mkSystem st doc')).
Proof.
  destruct op as [[now r1 r2 ok] | req ok | req ok | now ok |].
  - crunch_all; split; intros; first [reflexivity | congruence].
  - destruct req as [| data]; [split; reflexivity |].
    destruct data; crunch_all; split; intros;
      first [reflexivity | congruence].
  - destruct req as [| data]; [split; reflexivity |].
    destruct data; crunch_all; split; intros;
      first [reflexivity | congruence].
  - crunch_all; split; intros; first [reflexivity | congruence].
  - split; [| intros H; contradiction].
    unfold_monad. simpl_state. destruct doc, doc'; reflexivity.
Qed.

(** X19. The stored document is written, never read back, by the loop and
    the command handlers: after any sequence of operations the dictionary,
    and the answer of any operation but [get_vehicle_state], are the same
    whatever document the store held.  In particular a process restarted
    on a store that holds a document runs from the defaults, as on an
    empty store: the persisted state is not restored. *)
Theorem stored_document_never_read (rnd : Q -> Q) (ops : list operation)
  (st : VehicleState) (doc doc' : option VehicleState) :
  vehicle_state (run_operations rnd ops (mkSystem st doc))
  = vehicle_state (run_operations rnd ops (mkSystem st doc')) /\
  (forall op, op <> GetState ->
     reply rnd op (run_operations rnd ops (mkSystem st doc))
     = reply rnd op (run_operations rnd ops (mkSystem st doc'))) /\
  (forall t_doc t_doc' t_mem,
     vehicle_state (run_operations rnd ops (boot doc t_doc t_mem))
     = vehicle_state (run_operations rnd ops (boot None t_doc' t_mem))).
Proof.
  assert (H : forall st doc doc',
            vehicle_state (run_operations rnd ops (mkSystem st doc))
            = vehicle_state (run_operations rnd ops (mkSystem st doc')) /\
            forall op, op <> GetState ->
              reply rnd op (run_operations rnd ops (mkSystem st doc))
              = reply rnd op (run_operations rnd ops (mkSystem st doc'))).
  { clear st doc doc'.
    induction ops as [| op ops IH]; intros st doc doc'.
    - split; [reflexivity |]. intros op Hop.
      apply (step_ignores_document rnd op st doc doc'), Hop.
    - rewrite !run_operations_cons.
      destruct (step_ignores_document rnd op st doc doc') as [Hst _].
      destruct (step rnd op (mkSystem st doc)) as [st1 d1].
      destruct (step rnd op (mkSystem st doc')) as [st2 d2].
      cbn in Hst. subst st2. apply IH. }
  split; [apply H |]. split; [apply H |].
  intros t_doc t_doc' t_mem. unfold boot. apply H.
Qed.

Lemma step_synced (rnd : Q -> Q) (op : operation) (sys : System) :
  write_accepted op = true -> synced sys -> synced (step rnd op sys).
Proof.
  destruct sys as [st doc]. unfold synced. simpl_state. intros Hw ->.
  destruct op as [[now r1 r2 ok] | req ok | req ok | now ok |];
    cbn [write_accepted tick_write_ok] in Hw; try subst ok.
  - crunch_all; reflexivity.
  - destruct req as [| data]; [reflexivity |].
    destruct data; try reflexivity.
    unfold_monad. simpl_state.
    destruct (speed_in_range (dict_get items "speed" (PInt 0))) as [k |] eqn:Hk;
      [| reflexivity].
    pose proof (speed_in_range_bounds _ _ Hk) as Hk4.
    destruct (tables_defined k Hk4) as (base & rpm & gear & _ & _ & Hr & Hg).
    destruct (calculate_power_consumption_defined rnd k (battery_percentage st)
                Hk4) as (p & Hp).
    crunch; reflexivity.
  - destruct req as [| data]; [reflexivity |].
    destruct data; crunch_all; reflexivity.
  - crunch_all; reflexivity.
  - reflexivity.
Qed.

Lemma success_synced (rnd : Q -> Q) (op : operation) (sys : System) :
  command_succeeded (reply rnd op sys) = true -> synced (step rnd op sys).
Proof.
  destruct sys as [st doc]. unfold synced.
  destruct op as [[now r1 r2 ok] | req ok | req ok | now ok |].
  - discriminate.
  - destruct req as [| data]; [discriminate |].
    destruct data; crunch_all; cbn; intros H; try discriminate; reflexivity.
  - destruct req as [| data]; [discriminate |].
    destruct data; crunch_all; cbn; intros H; try discriminate; reflexivity.
  - crunch_all; cbn; intros H; try discriminate; reflexivity.
  - unfold_monad. simpl_state. destruct doc; discriminate.
Qed.

Lemma tick_synced (rnd : Q -> Q) (i : tick_input) (sys : System) :
  tick_write_ok i = true ->
  (0 <= motor_speed_setting (vehicle_state sys) <= 4)%Z ->
  synced (step rnd (Tick i) sys).
Proof.
  intros Hw Hs. apply (tick_frame rnd i sys Hs), Hw.
Qed.

(** X20. As long as the store accepts every write, the stored document
    stays equal to the dictionary through any sequence of operations, so
    that [get_vehicle_state] serves the state in memory; and whatever came
    before, the document is equal to the dictionary after any command
    answered with success and after any iteration of the loop whose write
    is accepted (the setting being in the tables). *)
Theorem accepted_writes_keep_document_current (rnd : Q -> Q) :
  (forall ops sys,
     forallb write_accepted ops = true -> synced sys ->
     synced (run_operations rnd ops sys)) /\
  (forall op sys,
     command_succeeded (reply rnd op sys) = true -> synced (step rnd op sys))
  /\
  (forall i sys,
     tick_write_ok i = true ->
     (0 <= motor_speed_setting (vehicle_state sys) <= 4)%Z ->
     synced (step rnd (Tick i) sys)).
Proof.
  split; [| split].
  - induction ops as [| op ops IH]; intros sys Hw Hs; [exact Hs |].
    cbn [forallb] in Hw. apply andb_true_iff in Hw. destruct Hw as [Hop Hops].
    rewrite run_operations_cons. apply IH; [exact Hops |].
    apply step_synced; assumption.
  - exact (success_synced rnd).
  - exact (tick_synced rnd).
Qed.

(** ** An empty battery with a speed level set *)

Section Depleted.

Variable rnd : Q -> Q.
Hypothesis rnd_monotone : monotone rnd.
Hypothesis rnd_integers : fixes_integers rnd.

Lemma no_consumption :
  fmul rnd (fmul rnd 0 (float_literal rnd 0.001)) 1 == 0.
Proof.
  unfold fmul.
  assert (H0 : rnd 0 == 0) by (apply (rnd_integers 0%Z); lia).
  assert (H1 : rnd (0 * float_literal rnd 0.001) == 0).
  { rewrite (rnd_proper rnd rnd_monotone _ 0); [exact H0 | ring]. }
  rewrite (rnd_proper rnd rnd_monotone _ 0); [exact H0 |].
  rewrite H1. ring.
Qed.

Lemma tick_depleted (i : tick_input) (sys : System) :
  depleted_in_gear (vehicle_state sys) ->
  depleted_in_gear (vehicle_state (tick rnd i sys)).
Proof.
  destruct sys as [st doc], i as [now r1 r2 ok]. simpl_state.
  intros (Hch & Hk & Hb).
  assert (Hgt : (motor_speed_setting st >? 0)%Z = true) by lia.
  assert (Hp : calculate_power_consumption rnd (motor_speed_setting st)
                 (battery_percentage st) = Some 0).
  { unfold calculate_power_consumption.
    apply Qle_bool_iff in Hb. rewrite Hb. reflexivity. }
  assert (Hdrain : Qmax 0 (fsub rnd (battery_percentage st)
                             (fmul rnd (fmul rnd 0 (float_literal rnd 0.001))
                                1)) <= 0).
  { apply Q.max_lub; [apply Qle_refl |]. unfold fsub.
    apply (rnd_le_integer rnd rnd_monotone rnd_integers _ 0%Z); [lia |].
    rewrite no_consumption. change (inject_Z 0) with 0. lra. }
  unfold_monad. simpl_state. rewrite Hch, Hgt. cbn [negb andb].
  crunch; simpl_state.
  all: repeat split; try assumption; try lia.
Qed.

Lemma step_depleted (op : operation) (sys : System) :
  is_reset op = false ->
  depleted_in_gear (vehicle_state sys) ->
  depleted_in_gear (vehicle_state (step rnd op sys)).
Proof.
  intros Hop Hd. destruct op as [i | req ok | req ok | now ok |];
    try discriminate.
  - apply tick_depleted, Hd.
  - destruct sys as [st doc], Hd as (Hch & Hk & Hb). simpl_state.
    pose proof (proj2 (Qle_bool_iff _ _) Hb) as Hle.
    destruct req as [| data]; [repeat split; assumption |].
    destruct data; crunch_all; try (repeat split; assumption); congruence.
  - destruct sys as [st doc], Hd as (Hch & Hk & Hb). simpl_state.
    assert (Hgt : (motor_speed_setting st >? 0)%Z = true) by lia.
    destruct req as [| data]; [repeat split; assumption |].
    destruct data; crunch_all; try (repeat split; assumption).
    all: rewrite Hgt in *; cbn [andb] in *; congruence.
  - destruct sys as [st [doc |]]; exact Hd.
Qed.

Lemma depleted_refuses (sys : System) :
  depleted_in_gear (vehicle_state sys) ->
  (forall req write_ok,
     command_succeeded (reply rnd (SetMotorSpeed req write_ok) sys) = false) /\
  (forall k write_ok,
     (0 <= k <= 4)%Z ->
     reply rnd (SetMotorSpeed (speed_request k) write_ok) sys
     = Some (Error 400 "Battery depleted")) /\
  (forall v write_ok,
     py_truthy v = true ->
     reply rnd (ToggleCharging (charging_body v) write_ok) sys
     = Some (Error 400 "Cannot start charging while motor is running")).
Proof.
  destruct sys as [st doc]. intros (Hch & Hk & Hb). simpl_state.
  pose proof (proj2 (Qle_bool_iff _ _) Hb) as Hle.
  assert (Hgt : (motor_speed_setting st >? 0)%Z = true) by lia.
  split; [| split].
  - intros req write_ok.
    destruct req as [| data]; [reflexivity |].
    destruct data; crunch_all; try reflexivity; congruence.
  - intros k write_ok Hrange. unfold speed_request. unfold_monad.
    rewrite (speed_request_in_range k Hrange). simpl_state.
    rewrite Hch. unfold_monad. simpl_state. rewrite Hle. reflexivity.
  - intros v write_ok Hv. unfold charging_body. unfold_monad.
    cbn [dict_get find fst snd String.eqb Ascii.eqb Bool.eqb].
    simpl_state. rewrite Hgt, Hv. reflexivity.
Qed.

(** X21. For a monotone rounding that fixes the integers, a dictionary
    with the battery at or below 0, a positive setting and no charge stays
    so through any sequence of operations without a reset: the loop takes
    nothing more off the battery and leaves the setting, no speed request
    is answered with success (a request for one of 0..4, speed 0 too, is
    refused as "Battery depleted"), and every request to start charging
    is refused because the motor is running.  Only [reset_state] ends
    it. *)
Theorem depleted_in_gear_until_reset (ops : list operation) (sys : System) :
  depleted_in_gear (vehicle_state sys) ->
  forallb (fun op => negb (is_reset op)) ops = true ->
  depleted_in_gear (vehicle_state (run_operations rnd ops sys)) /\
  (forall req write_ok,
     command_succeeded
       (reply rnd (SetMotorSpeed req write_ok) (run_operations rnd ops sys))
     = false) /\
  (forall k write_ok,
     (0 <= k <= 4)%Z ->
     reply rnd (SetMotorSpeed (speed_request k) write_ok)
       (run_operations rnd ops sys)
     = Some (Error 400 "Battery depleted")) /\
  (forall v write_ok,
     py_truthy v = true ->
     reply rnd (ToggleCharging (charging_body v) write_ok)
       (run_operations rnd ops sys)
     = Some (Error 400 "Cannot start charging while motor is running")).
Proof.
  intros Hd Hops.
  assert (Hfinal : depleted_in_gear
                     (vehicle_state (run_operations rnd ops sys))).
  { revert sys Hd. induction ops as [| op ops IH]; intros sys Hd;
      [exact Hd |].
    cbn [forallb] in Hops. apply andb_true_iff in Hops.
    destruct Hops as [Hop Hrest]. apply negb_true_iff in Hop.
    rewrite run_operations_cons. apply (IH Hrest).
    apply step_depleted; assumption. }
  split; [exact Hfinal |]. apply depleted_refuses, Hfinal.
Qed.

End Depleted.

(** ** Invariants under interleaving *)

Lemma keeps_atomic {A : Type} (Inv : System -> Prop) (Post : A -> Prop)
  (m : M A) (k : A -> thread) (handler : thread) :
  (forall sys, Inv sys ->
     Inv (snd (m sys)) /\
     match fst (m sys) with Val a => Post a | Raised => True end) ->
  (forall a, Post a -> keeps Inv (k a)) ->
  keeps Inv handler ->
  keeps Inv (atomic m k handler).
Proof.
  intros Hm Hk Hh. cbn [keeps atomic]. intros sys Hinv.
  destruct (Hm sys Hinv) as [Hinv' Hpost].
  destruct (m sys) as [[a |] sys']; cbn [fst snd] in *; split; auto.
Qed.

Lemma replace_thread_keeps (Inv : System -> Prop) (n : nat) (t : thread)
  (pool : list thread) :
  keeps Inv t -> Forall (keeps Inv) pool ->
  Forall (keeps Inv) (replace_thread n t pool).
Proof.
  intros Ht Hpool. revert n.
  induction Hpool as [| t0 pool H0 Hpool IH]; intros [| n]; cbn;
    constructor; auto.
Qed.

Lemma schedule_step_keeps (Inv : System -> Prop) (n : nat)
  (state : list thread * System) :
  Forall (keeps Inv) (fst state) -> Inv (snd state) ->
  Forall (keeps Inv) (fst (schedule_step n state)) /\
  Inv (snd (schedule_step n state)).
Proof.
  destruct state as [pool sys]. cbn [fst snd]. intros Hpool Hinv.
  unfold schedule_step. cbn [fst snd].
  destruct (nth_error pool n) as [[| run] |] eqn:Hn; auto.
  assert (Ht : keeps Inv (Atomic run)).
  { rewrite Forall_forall in Hpool. apply Hpool.
    apply nth_error_In with (n := n). exact Hn. }
  cbn [keeps] in Ht. specialize (Ht sys Hinv).
  destruct (run sys) as [sys' t']. destruct Ht as [Hinv' Ht'].
  cbn [fst snd]. split; [| exact Hinv'].
  apply replace_thread_keeps; assumption.
Qed.

(** An invariant that every step of every thread keeps holds after any
    schedule. *)
Lemma run_schedule_keeps (Inv : System -> Prop) (schedule : list nat)
  (pool : list thread) (sys : System) :
  Forall (keeps Inv) pool -> Inv sys ->
  Inv (snd (run_schedule schedule pool sys)).
Proof.
  unfold run_schedule.
  assert (H : forall state,
            Forall (keeps Inv) (fst state) -> Inv (snd state) ->
            Inv (snd (fold_left (fun state n => schedule_step n state)
                        schedule state))).
  { induction schedule as [| n schedule IH]; intros state Hpool Hinv;
      [exact Hinv |].
    cbn [fold_left].
    destruct (schedule_step_keeps Inv n state Hpool Hinv) as [Hp Hi].
    apply IH; assumption. }
  intros Hpool Hinv. apply (H (pool, sys)); assumption.
Qed.

Ltac open_system :=
  let st := fresh "st" in
  let doc := fresh "doc" in
  let Hs := fresh "Hs" in
  let Hb := fresh "Hb" in
  let Ht := fresh "Ht" in
  let Hdoc := fresh "Hdoc" in
  intros [st doc] (Hs & [Hb Ht] & Hdoc); unfold_monad; simpl_state.

(** [within_limits] of a system whose dictionary is [st] with some fields
    assigned; what is left is the range of an assigned number. *)
Ltac close_limits :=
  repeat match goal with
    | |- _ /\ True => split; [| exact I]
    | |- within_limits _ => split; simpl_state
    | |- holds_in bounded _ => split; simpl_state
    | |- bounded _ => split; simpl_state
    | |- forall doc, Some _ = Some doc -> _ =>
        let d := fresh "d" in
        let Hd := fresh "Hd" in
        intros d Hd; injection Hd as <-
    end;
  try assumption; try lia.

(** One statement that returns nothing of interest. *)
Ltac plain_step :=
  apply (keeps_atomic within_limits (fun _ => True));
  [open_system; close_limits | intros _ _ | exact I].

Section Interleaving.

Variable rnd : Q -> Q.
Hypothesis rnd_monotone : monotone rnd.
Hypothesis rnd_integers : fixes_integers rnd.

Lemma persist_within_limits (write_ok : bool) :
  keeps within_limits
    (atomic (doc_set write_ok) (fun _ => Finished) Finished).
Proof.
  apply (keeps_atomic within_limits (fun _ => True));
    [| intros _ _; exact I | exact I].
  open_system. destruct write_ok; simpl_state; close_limits.
Qed.

Lemma update_tail_within_limits (now : timestamp)
  (brake_draw engine_draw : Q) (write_ok : bool) :
  keeps within_limits (update_tail rnd now brake_draw engine_draw write_ok).
Proof.
  unfold update_tail.
  plain_step. plain_step.
  apply (keeps_atomic within_limits (fun _ => True));
    [| intros _ _ | exact I].
  { open_system. destruct (Qlt_bool brake_draw _); simpl_state;
      close_limits. }
  apply (keeps_atomic within_limits (fun _ => True));
    [| intros _ _ | exact I].
  { open_system. destruct (Qlt_bool engine_draw _); simpl_state;
      close_limits. }
  plain_step.
  apply persist_within_limits.
Qed.

Lemma update_thread_within_limits (now : timestamp)
  (brake_draw engine_draw : Q) (write_ok : bool) :
  keeps within_limits (update_thread rnd now brake_draw engine_draw write_ok).
Proof.
  pose proof (update_tail_within_limits now brake_draw engine_draw write_ok)
    as Htail.
  unfold update_thread. cbv zeta.
  apply (keeps_atomic within_limits (fun _ => True));
    [| intros running _ | exact I].
  { open_system. close_limits. }
  destruct running.
  - (* the motor runs *)
    apply (keeps_atomic within_limits (fun p => 0 <= p));
      [| intros p Hp | exact I].
    { open_system.
      destruct (calculate_power_consumption rnd (motor_speed_setting st)
                  (battery_percentage st)) as [p |] eqn:Hp;
        cbn [lift]; unfold_monad; simpl_state.
      - split; [close_limits |].
        apply (calculate_power_consumption_nonneg rnd rnd_monotone
                 rnd_integers _ _ _ Hp).
      - close_limits. }
    apply (keeps_atomic within_limits (fun _ => True));
      [| intros _ _ | exact I].
    { open_system. close_limits.
      apply (drain_bounded rnd rnd_monotone rnd_integers); assumption. }
    apply (keeps_atomic within_limits (fun speed => (0 <= speed <= 4)%Z));
      [| intros speed Hspeed | exact I].
    { open_system. split; [close_limits | exact Hs]. }
    pose proof (target_temp_bounded rnd rnd_monotone rnd_integers speed Hspeed)
      as Htarget.
    apply (keeps_atomic within_limits (fun _ => True));
      [| intros temperature _ | exact I].
    { open_system. close_limits. }
    destruct (Qlt_bool temperature _); [| exact Htail].
    apply (keeps_atomic within_limits (fun _ => True));
      [| intros _ _ | exact I].
    { open_system. close_limits.
      apply (warm_bounded rnd rnd_monotone rnd_integers);
        [apply Ht | exact Htarget]. }
    exact Htail.
  - (* the motor does not run *)
    apply (keeps_atomic within_limits (fun _ => True));
      [| intros charging _ | exact I].
    { open_system. close_limits. }
    destruct charging; [| exact Htail].
    apply (keeps_atomic within_limits (fun _ => True));
      [| intros battery _ | exact I].
    { open_system. close_limits. }
    apply (keeps_atomic within_limits (fun _ => True));
      [| intros _ _ | exact I].
    { open_system. close_limits.
      destruct (Qlt_bool battery 20);
        apply (charge_bounded rnd rnd_monotone rnd_integers);
        first [apply Hb | lra]. }
    apply (keeps_atomic within_limits (fun _ => True));
      [| intros _ _ | exact I].
    { open_system. close_limits.
      apply (cool_bounded rnd rnd_monotone rnd_integers). apply Ht. }
    exact Htail.
Qed.

Lemma set_motor_speed_thread_within_limits (req : json_request)
  (write_ok : bool) :
  keeps within_limits (set_motor_speed_thread rnd req write_ok).
Proof.
  unfold set_motor_speed_thread.
  destruct req as [| data]; [exact I |].
  destruct data; try exact I.
  destruct (speed_in_range (dict_get items "speed" (PInt 0))) as [speed |]
    eqn:Hspeed; [| exact I].
  apply speed_in_range_bounds in Hspeed.
  apply (keeps_atomic within_limits (fun _ => True));
    [| intros charging _ | exact I].
  { open_system. close_limits. }
  destruct charging; [exact I |].
  apply (keeps_atomic within_limits (fun _ => True));
    [| intros battery _ | exact I].
  { open_system. close_limits. }
  destruct (Qle_bool battery 0); [exact I |].
  apply (keeps_atomic within_limits (fun _ => True));
    [| intros brake _ | exact I].
  { open_system. close_limits. }
  destruct brake; [exact I |].
  plain_step.
  apply (keeps_atomic within_limits (fun _ => True));
    [| intros _ _ | exact I].
  { open_system. destruct (getitem RPM_SETTINGS speed);
      cbn [lift]; unfold_monad; simpl_state; close_limits. }
  apply (keeps_atomic within_limits (fun _ => True));
    [| intros _ _ | exact I].
  { open_system.
    destruct (calculate_power_consumption rnd speed (battery_percentage st));
      cbn [lift]; unfold_monad; simpl_state; close_limits. }
  plain_step.
  apply (keeps_atomic within_limits (fun _ => True));
    [| intros _ _ | exact I].
  { open_system. destruct (getitem GEAR_RATIOS speed);
      cbn [lift]; unfold_monad; simpl_state; close_limits. }
  apply persist_within_limits.
Qed.

Lemma toggle_charging_thread_within_limits (req : json_request)
  (write_ok : bool) :
  keeps within_limits (toggle_charging_thread req write_ok).
Proof.
  unfold toggle_charging_thread.
  destruct req as [| data]; [exact I |].
  destruct data; try exact I. cbv zeta.
  pose proof (persist_within_limits write_ok) as Hpersist.
  apply (keeps_atomic within_limits (fun _ => True));
    [| intros speed _ | exact I].
  { open_system. close_limits. }
  destruct ((speed >? 0)%Z && _); [exact I |].
  apply (keeps_atomic within_limits (fun _ => True));
    [| intros battery _ | exact I].
  { open_system. close_limits. }
  destruct (Qle_bool 100 battery && _); [exact I |].
  plain_step.
  destruct (py_truthy _).
  - plain_step. plain_step. plain_step. exact Hpersist.
  - plain_step. exact Hpersist.
Qed.

Lemma reset_state_thread_within_limits (now : timestamp) (write_ok : bool) :
  keeps within_limits (reset_state_thread now write_ok).
Proof.
  unfold reset_state_thread.
  apply (keeps_atomic within_limits (fun _ => True));
    [| intros _ _ | exact I].
  { open_system. close_limits; apply (initial_state_bounded now). }
  apply persist_within_limits.
Qed.

Lemma thread_of_within_limits (op : operation) :
  keeps within_limits (thread_of rnd op).
Proof.
  destruct op as [i | req ok | req ok | now ok |]; cbn [thread_of].
  - apply update_thread_within_limits.
  - apply set_motor_speed_thread_within_limits.
  - apply toggle_charging_thread_within_limits.
  - apply reset_state_thread_within_limits.
  - exact I.
Qed.

Lemma boot_within_limits (t_doc t_mem : timestamp) :
  within_limits (boot None t_doc t_mem).
Proof.
  split; [cbn; lia |]. split.
  - apply initial_state_bounded.
  - intros doc Hd. injection Hd as <-. apply initial_state_bounded.
Qed.

(** X22. For a monotone rounding that fixes the integers, the bounds hold
    under any interleaving: whatever operations run concurrently and
    however the scheduler interleaves their statements, after a start on
    an empty store the setting is one of 0..4 and [battery_percentage]
    and [battery_temperature] lie in [0, 100] and [25, 80], in the
    dictionary and in the stored document.  (The discrete agreement of the
    fields does not survive interleaving; the ranges do.) *)
Theorem bounds_hold_under_any_interleaving (ops : list operation)
  (schedule : list nat) (t_doc t_mem : timestamp) :
  within_limits
    (snd (run_schedule schedule (map (thread_of rnd) ops)
            (boot None t_doc t_mem))).
Proof.
  apply run_schedule_keeps; [| apply boot_within_limits].
  apply Forall_forall. intros t Hin. apply in_map_iff in Hin.
  destruct Hin as (op & <- & _). apply thread_of_within_limits.
Qed.

End Interleaving.

(** The thread of a valid speed request once its three checks have
    passed: what is left are its writes, which no longer look at the
    charging flag. *)
Lemma set_motor_speed_thread_after_checks (rnd : Q -> Q) (k : Z) :
  (1 <= k <= 4)%Z ->
  exists writes : thread,
    (forall sys,
       is_charging (vehicle_state sys) = false ->
       parking_brake (vehicle_state sys) = false ->
       0 < battery_percentage (vehicle_state sys) ->
       run_steps 3 (thread_of rnd (SetMotorSpeed (speed_request k) true)) sys
       = (writes, sys)) /\
    (forall sys,
       motor_speed_setting (vehicle_state (snd (run_steps 12 writes sys))) = k
       /\
       is_charging (vehicle_state (snd (run_steps 12 writes sys)))
       = is_charging (vehicle_state sys) /\
       current_state_doc (snd (run_steps 12 writes sys))
       = Some (vehicle_state (snd (run_steps 12 writes sys)))).
Proof.
  intros Hk.
  assert (Hrange : (0 <= k <= 4)%Z) by lia.
  destruct (tables_defined k Hrange) as (base & rpm & gear & _ & _ & Hr & Hg).
  eexists. split.
  - intros [st doc] Hch Hbrake Hb. simpl_state.
    apply Qle_bool_false in Hb.
    cbn [thread_of]. unfold set_motor_speed_thread, speed_request.
    rewrite (speed_request_in_range k Hrange).
    cbn [run_steps]. unfold atomic at 1. unfold_monad. simpl_state.
    rewrite Hch.
    unfold atomic at 1. unfold_monad. simpl_state. rewrite Hb.
    unfold atomic at 1. unfold_monad. simpl_state. rewrite Hbrake.
    reflexivity.
  - intros [st doc].
    destruct (calculate_power_consumption_defined rnd k (battery_percentage st)
                Hrange) as (p & Hp).
    cbn [run_steps]. unfold atomic. unfold_monad. simpl_state.
    rewrite Hr. cbn [lift]. unfold_monad. simpl_state.
    rewrite Hp. cbn [lift]. unfold_monad. simpl_state.
    rewrite Hg. cbn [lift]. unfold_monad. simpl_state.
    repeat split.
Qed.

Lemma toggle_charging_starts (rnd : Q -> Q) (sys : System) :
  (motor_speed_setting (vehicle_state sys) <= 0)%Z ->
  battery_percentage (vehicle_state sys) < 100 ->
  is_charging
    (vehicle_state
       (step rnd (ToggleCharging (charging_request true) true) sys)) = true.
Proof.
  destruct sys as [st doc]. simpl_state. intros Hs Hb.
  apply Qle_bool_false in Hb.
  assert (Hgt : (motor_speed_setting st >? 0)%Z = false) by lia.
  unfold charging_request. unfold_monad.
  cbn [dict_get find fst snd String.eqb Ascii.eqb Bool.eqb py_truthy].
  simpl_state. rewrite Hgt. cbn [andb]. unfold_monad. simpl_state.
  rewrite Hb. reflexivity.
Qed.

(** X23. The handlers check and then write, with no lock in between: from
    a dictionary that is idle (no charge, no brake, setting 0, battery
    strictly between 0 and 100), when a request for a level [k] in 1..4
    has passed its checks, a request to start charging then runs to its
    end, and the speed request then makes its writes, the dictionary and
    the stored document end with [is_charging] set together with
    [motor_speed_setting = k]. *)
Theorem interleaved_handlers_break_exclusion (rnd : Q -> Q) (k : Z)
  (sys : System) :
  (1 <= k <= 4)%Z ->
  is_charging (vehicle_state sys) = false ->
  parking_brake (vehicle_state sys) = false ->
  (motor_speed_setting (vehicle_state sys) <= 0)%Z ->
  0 < battery_percentage (vehicle_state sys) ->
  battery_percentage (vehicle_state sys) < 100 ->
  exists final,
    snd (run_schedule exclusion_race_schedule
           (map (thread_of rnd) (exclusion_race k)) sys) = final /\
    is_charging (vehicle_state final) = true /\
    motor_speed_setting (vehicle_state final) = k /\
    current_state_doc final = Some (vehicle_state final).
Proof.
  intros Hk Hch Hbrake Hs Hb0 Hb100.
  destruct (set_motor_speed_thread_after_checks rnd k Hk)
    as (writes & Hchecks & Hwrites).
  eexists. split; [reflexivity |].
  unfold exclusion_race_schedule, exclusion_race. cbn [map].
  set (speed := thread_of rnd (SetMotorSpeed (speed_request k) true)).
  set (charge := thread_of rnd (ToggleCharging (charging_request true) true)).
  rewrite run_schedule_app.
  rewrite (run_schedule_repeat 0 3 speed [speed; charge] sys eq_refl).
  subst speed. rewrite (Hchecks sys Hch Hbrake Hb0).
  cbn [fst snd replace_thread].
  rewrite run_schedule_app.
  rewrite (run_schedule_repeat 1 12 charge [writes; charge] sys eq_refl).
  cbn [fst snd replace_thread].
  subst charge.
  rewrite (run_steps_finished 12 _ sys (thread_of_steps rnd _ sys)).
  rewrite run_alone_thread_of.
  rewrite (run_schedule_repeat 0 12 writes
             [writes; fst (run_steps 12
                             (thread_of rnd
                                (ToggleCharging (charging_request true) true))
                             sys)]
             _ eq_refl).
  cbn [snd].
  destruct (Hwrites (step rnd (ToggleCharging (charging_request true) true)
                       sys)) as (Hspeed & Hcharging & Hdoc).
  split; [| split; assumption].
  rewrite Hcharging. apply toggle_charging_starts; assumption.
Qed.

(** ** Runs that exercise the further properties *)

Lemma power_within_table_rate_witness :
  exists p,
    calculate_power_consumption ideal 2 40 = Some p /\
    0 <= p <= inject_Z 300 /\
    (0 < 40 -> float_literal ideal 0.5 == 0.5 -> inject_Z 300 / 2 <= p).
Proof.
  eexists. split; [reflexivity |].
  apply (power_within_table_rate ideal ideal_monotone ideal_fixes_integers
           2 300 40 _ eq_refl); [lra | reflexivity].
Defined.

Lemma power_monotone_witness :
  exists p1 p2,
    calculate_power_consumption ideal 1 40 = Some p1 /\
    calculate_power_consumption ideal 3 90 = Some p2 /\
    p1 <= p2.
Proof.
  do 2 eexists. split; [reflexivity |]. split; [reflexivity |].
  apply (power_monotone ideal ideal_monotone ideal_fixes_integers
           1 3 40 90 _ _); [lia | lra | reflexivity | reflexivity].
Defined.

Lemma motor_drains_battery_to_zero_witness :
  battery_percentage
    (vehicle_state
       (update_vehicle_state binary64 (repeat (quiet_tick 2) 2001)
          (parked_system binary64)))
  == 0 /\
  battery_low
    (vehicle_state
       (update_vehicle_state binary64 (repeat (quiet_tick 2) 2001)
          (parked_system binary64)))
  = true /\
  motor_speed_setting
    (vehicle_state
       (update_vehicle_state binary64 (repeat (quiet_tick 2) 2001)
          (parked_system binary64)))
  = motor_speed_setting (vehicle_state (parked_system binary64)).
Proof.
  apply (motor_drains_battery_to_zero binary64 (repeat (quiet_tick 2) 2001)
           (parked_system binary64) binary64_float_rounding).
  - vm_compute. reflexivity.
  - vm_compute. split; discriminate.
  - vm_compute. split; discriminate.
  - rewrite repeat_length. lia.
Defined.

Lemma charging_fills_battery_witness :
  battery_percentage
    (vehicle_state
       (update_vehicle_state binary64 (repeat (quiet_tick 2) 1101)
          charging_at_80))
  == 100 /\
  battery_temperature
    (vehicle_state
       (update_vehicle_state binary64 (repeat (quiet_tick 2) 1101)
          charging_at_80))
  == 25.
Proof.
  destruct (charging_fills_battery binary64 (repeat (quiet_tick 2) 1101)
              charging_at_80 binary64_float_rounding)
    as (Hbattery & Htemperature & _).
  - reflexivity.
  - split; vm_compute; split; discriminate.
  - split.
    + apply Hbattery. rewrite repeat_length. lia.
    + apply Htemperature. rewrite repeat_length. lia.
Defined.

Lemma temperature_settles_at_target_witness :
  battery_temperature
    (vehicle_state
       (update_vehicle_state binary64 (repeat (quiet_tick 2) 551)
          (parked_system binary64)))
  == target_temp 3.
Proof.
  destruct (temperature_settles_at_target binary64
              (repeat (quiet_tick 2) 551) (parked_system binary64)
              binary64_float_rounding) as [Hrises _].
  - vm_compute. reflexivity.
  - vm_compute. split; discriminate.
  - vm_compute. discriminate.
  - apply Hrises.
    + vm_compute. discriminate.
    + rewrite repeat_length. lia.
Defined.

Lemma brake_and_engine_follow_the_draws_witness :
  parking_brake
    (vehicle_state
       (update_vehicle_state ideal [quiet_tick 2; mkTick 3 0 0.5 true]
          (boot None 0 1)))
  = xorb (flips (float_literal ideal 0.001) [0.5; 0])
      (parking_brake (vehicle_state (boot None 0 1))) /\
  check_engine
    (vehicle_state
       (update_vehicle_state ideal [quiet_tick 2; mkTick 3 0 0.5 true]
          (boot None 0 1)))
  = xorb (flips (float_literal ideal 0.0005) [0.5; 0.5])
      (check_engine (vehicle_state (boot None 0 1))).
Proof.
  apply (brake_and_engine_follow_the_draws ideal
           [quiet_tick 2; mkTick 3 0 0.5 true] (boot None 0 1)).
  cbn. lia.
Defined.

Lemma setting_outside_table_stalls_loop_witness :
  update_vehicle_state ideal [quiet_tick 2; quiet_tick 3] corrupted_system
  = corrupted_system.
Proof.
  apply (setting_outside_table_stalls_loop ideal [quiet_tick 2; quiet_tick 3]
           corrupted_system).
  - reflexivity.
  - cbn. lia.
  - reflexivity.
Defined.

Lemma battery_only_rises_while_charging_witness :
  battery_percentage
    (vehicle_state
       (run_operations binary64
          [Tick (quiet_tick 2); SetMotorSpeed (speed_request 1) true;
           Tick (quiet_tick 3)]
          (parked_system binary64)))
  <= battery_percentage (vehicle_state (parked_system binary64)) /\
  battery_temperature (vehicle_state (parked_system binary64))
  <= battery_temperature
       (vehicle_state
          (run_operations binary64
             [Tick (quiet_tick 2); SetMotorSpeed (speed_request 1) true;
              Tick (quiet_tick 3)]
             (parked_system binary64))).
Proof.
  apply (battery_only_rises_while_charging binary64
           [Tick (quiet_tick 2); SetMotorSpeed (speed_request 1) true;
            Tick (quiet_tick 3)]
           (parked_system binary64) binary64_float_rounding).
  - vm_compute. reflexivity.
  - vm_compute. discriminate.
  - unfold representable. vm_compute. reflexivity.
  - unfold representable. vm_compute. reflexivity.
  - reflexivity.
Defined.

Lemma refused_command_changes_nothing_witness :
  step ideal (SetMotorSpeed (speed_request 9) true) (boot None 0 1)
  = boot None 0 1.
Proof.
  apply (refused_command_changes_nothing ideal
           (SetMotorSpeed (speed_request 9) true) (boot None 0 1)
           "Invalid speed setting (must be 0-4)").
  reflexivity.
Defined.

Lemma handlers_idempotent_witness :
  exec ideal (SetMotorSpeed (speed_request 3) true) (parked_system ideal)
  = exec ideal (SetMotorSpeed (speed_request 3) true) (boot None 0 1).
Proof.
  apply (handlers_idempotent ideal (SetMotorSpeed (speed_request 3) true)
           (boot None 0 1)).
  reflexivity.
Defined.

Lemma unreadable_request_is_internal_error_witness :
  exec ideal (SetMotorSpeed (GetJsonReturns (PList [PInt 3])) true)
    (boot None 0 1)
  = (Some (Error 500 "Internal server error"), boot None 0 1) /\
  exec ideal (ToggleCharging (GetJsonReturns (PList [PInt 3])) true)
    (boot None 0 1)
  = (Some (Error 500 "Internal server error"), boot None 0 1).
Proof.
  apply (unreadable_request_is_internal_error ideal
           (GetJsonReturns (PList [PInt 3])) true (boot None 0 1)).
  - discriminate.
  - intros items. discriminate.
Defined.

Lemma depleted_in_gear_until_reset_witness :
  depleted_in_gear
    (vehicle_state
       (run_operations ideal
          [Tick (quiet_tick 2); SetMotorSpeed (speed_request 0) true;
           ToggleCharging (charging_request true) true]
          drained_system)) /\
  reply ideal (SetMotorSpeed (speed_request 0) true)
    (run_operations ideal
       [Tick (quiet_tick 2); SetMotorSpeed (speed_request 0) true;
        ToggleCharging (charging_request true) true]
       drained_system)
  = Some (Error 400 "Battery depleted").
Proof.
  destruct (depleted_in_gear_until_reset ideal ideal_monotone
              ideal_fixes_integers
              [Tick (quiet_tick 2); SetMotorSpeed (speed_request 0) true;
               ToggleCharging (charging_request true) true]
              drained_system)
    as (Hstays & _ & Hspeed & _).
  - split; [reflexivity |]. split; [cbn; lia | vm_compute; discriminate].
  - reflexivity.
  - split; [exact Hstays |]. apply Hspeed. lia.
Defined.

Lemma bounds_hold_under_any_interleaving_witness :
  within_limits
    (snd (run_schedule racing_schedule (map (thread_of ideal) racing_operations)
            (boot None 0 1))).
Proof.
  apply (bounds_hold_under_any_interleaving ideal ideal_monotone
           ideal_fixes_integers racing_operations racing_schedule 0%Z 1%Z).
Defined.

Lemma interleaved_handlers_break_exclusion_witness :
  exists final,
    snd (run_schedule exclusion_race_schedule
           (map (thread_of ideal) (exclusion_race 3)) (with_battery 50))
    = final /\
    is_charging (vehicle_state final) = true /\
    motor_speed_setting (vehicle_state final) = 3%Z /\
    current_state_doc final = Some (vehicle_state final).
Proof.
  apply (interleaved_handlers_break_exclusion ideal 3 (with_battery 50)).
  - lia.
  - reflexivity.
  - reflexivity.
  - cbn. lia.
  - reflexivity.
  - reflexivity.
Defined.
